(** * Logo generator: a shallow embedding of [logo_generator.py]

    The development follows the Python module class by class:
    [ColorPalette], [PatternGenerator], [ShapeFactory], [TextRenderer],
    [EffectsEngine], [LogoTemplate], [LogoGenerator] and [LogoComposer].

    Modelling conventions.
    - Python floats are modelled by exact rationals ([Q]); Python ints by [Z].
      Results that the program computes with floats are compared with [==]
      ([Qeq]) so that a statement never depends on how a fraction is written.
    - A Python string is the sequence of its characters ([string]); tuples
      and lists are both lists, told apart only where the program does
      ([pyval]).
    - [math.cos], [math.sin], [math.sqrt] and [math.pi] belong to the Python
      standard library; they are taken as an interface ([MathLib]).
    - The process-wide [random] module is an explicit generator state that is
      threaded through every function that draws from it ([Random.State]).
    - Configuration dicts live in a store of shared objects ([World]); the
      methods of the generator read and write that store, draw random
      numbers and may raise ([M]).
    - A gizeh surface is the sequence of drawing calls issued on it, oldest
      first, together with its size and background colour.  Rasterisation by
      cairo is outside the model.
    - The methods that write files run on the store and on a disk ([IO]): the
      directories they create and the PNG files they write, each file with
      the surface rendered into it.  The operating system is taken to accept
      every directory and file name (I/O errors are outside the model), and
      what [print] writes to the console is not modelled. *)

From Stdlib Require Import ZArith QArith Qround Lia Lqa String Ascii List.
From Stdlib Require Import Floats Uint63.
From Stdlib Require Import Permutation Sorted.
From Stdlib Require DecimalString DecimalNat.
From stdpp Require Import base option list strings gmap.

Set Warnings "-register-all".

Open Scope string_scope.
Open Scope list_scope.
Open Scope Q_scope.

(** ** Python numerics *)

Module Py.

(** [int(x)] on a float truncates towards zero. *)
Definition int (x : Q) : Z := Z.quot (Qnum x) (Zpos (Qden x)).

(** [x % 1.0] on floats: the result has the sign of the divisor. *)
Definition mod1 (x : Q) : Q := x - inject_Z (Qfloor x).

(** [max(a, b)] and [min(a, b)] on floats. *)
Definition max (a b : Q) : Q := if Qle_bool b a then a else b.
Definition min (a b : Q) : Q := if Qle_bool a b then a else b.

(** [range(start, stop, step)] for a positive step, as the list of its
    values; [fuel] bounds the number of iterations. *)
Fixpoint range_up (fuel : nat) (start stop step : Z) : list Z :=
  match fuel with
  | O => []
  | S n => if (start <? stop)%Z
           then start :: range_up n (start + step)%Z stop step
           else []
  end.

Fixpoint range_down (fuel : nat) (start stop step : Z) : list Z :=
  match fuel with
  | O => []
  | S n => if (stop <? start)%Z
           then start :: range_down n (start + step)%Z stop step
           else []
  end.

(** [range(start, stop, step)]; a zero step raises [ValueError]. *)
Definition range (start stop step : Z) : option (list Z) :=
  if (step =? 0)%Z then None
  else if (0 <? step)%Z
       then Some (range_up (Z.to_nat (stop - start)) start stop step)
       else Some (range_down (Z.to_nat (start - stop)) start stop step).

(** [range(n)] *)
Definition range0 (n : Z) : list Z := range_up (Z.to_nat n) 0 n 1.

(** [seq[:n]] on a tuple, list or string. *)
Definition slice_to {A} (n : nat) (l : list A) : list A := take n l.

(** [seq[-1]] *)
Definition last_item {A} (l : list A) : option A := last l.

(** [sorted(seq, key=key)]: ascending by key and stable.  The entry [x]
    goes before the first entry whose key is not smaller, so that among
    equal keys the one met first in [seq] stays first. *)
Fixpoint sorted_insert {A} (key : A -> Z) (x : A) (l : list A) : list A :=
  match l with
  | [] => [x]
  | y :: rest => if (key x <=? key y)%Z then x :: y :: rest
                 else y :: sorted_insert key x rest
  end.

Fixpoint sorted {A} (key : A -> Z) (l : list A) : list A :=
  match l with
  | [] => []
  | x :: rest => sorted_insert key x (sorted key rest)
  end.

(** [str(n)] for an int that is not negative: its decimal digits. *)
Definition str_nat (n : nat) : string :=
  DecimalString.NilEmpty.string_of_uint (Nat.to_uint n).

(** [str(z)] for any int. *)
Definition str_int (z : Z) : string :=
  if (z <? 0)%Z then ("-" ++ str_nat (Z.to_nat (- z)))%string
  else str_nat (Z.to_nat z).

(** [s.rjust(width, "0")]: zeros in front, up to [width] characters. *)
Definition pad_zeros (width : nat) (s : string) : string :=
  (string_of_list_ascii (replicate (width - String.length s) "0"%char)
   ++ s)%string.

(** The format [{z:03d}]: at least three characters, zeros after the
    sign. *)
Definition format_03d (z : Z) : string :=
  if (z <? 0)%Z then ("-" ++ pad_zeros 2 (str_nat (Z.to_nat (- z))))%string
  else pad_zeros 3 (str_nat (Z.to_nat z)).

(** The int a string of decimal digits stands for, leading zeros
    allowed. *)
Definition parse_nat (s : string) : option nat :=
  Nat.of_uint <$> DecimalString.NilEmpty.uint_of_string s.

End Py.

(** ** Exceptions *)

Inductive exn := IndexError | ZeroDivisionError | ValueError | TypeError.

Inductive result (A : Type) :=
| Ok (a : A)
| Raise (e : exn).
Arguments Ok {A} a.
Arguments Raise {A} e.

#[global] Instance result_ret : MRet result := fun A a => Ok a.
#[global] Instance result_bind : MBind result :=
  fun A B f m => match m with Ok a => f a | Raise e => Raise e end.
#[global] Instance result_fmap : FMap result :=
  fun A B f m => match m with Ok a => Ok (f a) | Raise e => Raise e end.

Definition is_ok {A} (r : result A) : bool :=
  match r with Ok _ => true | Raise _ => false end.

(** [for x in xs: body(x)] where every iteration yields drawing calls (or
    any list): the calls of all iterations, in iteration order; the first
    exception ends the loop. *)
Fixpoint for_each {A B} (xs : list A) (body : A -> result (list B))
  : result (list B) :=
  match xs with
  | [] => Ok []
  | x :: rest =>
      ys ← body x;
      zs ← for_each rest body;
      Ok (ys ++ zs)
  end.

Module PyR.

(** [a / b]; raises [ZeroDivisionError] on a zero divisor. *)
Definition div (a b : Q) : result Q :=
  if Qeq_bool b 0 then Raise ZeroDivisionError else Ok (a / b).

(** [range(start, stop, step)] with its [ValueError]. *)
Definition range (start stop step : Z) : result (list Z) :=
  match Py.range start stop step with
  | Some l => Ok l
  | None => Raise ValueError
  end.

(** [seq[0]]; raises [IndexError] on an empty sequence. *)
Definition first {A} (l : list A) : result A :=
  match l with
  | x :: _ => Ok x
  | [] => Raise IndexError
  end.

(** [seq[i]] for a non-negative index. *)
Definition item {A} (l : list A) (i : nat) : result A :=
  match l !! i with
  | Some x => Ok x
  | None => Raise IndexError
  end.

End PyR.

(** ** numpy and os.path *)

Module Np.


End Np.

Module Os.

Definition starts_with_slash (s : string) : bool :=
  match s with
  | String "/" _ => true
  | _ => false
  end.

Definition ends_with_slash (s : string) : bool :=
  match last (list_ascii_of_string s) with
  | Some "/"%char => true
  | _ => false
  end.

(** [os.path.join(a, b)] on a POSIX system. *)
Definition path_join (a b : string) : string :=
  if starts_with_slash b then b
  else if String.eqb a "" || ends_with_slash a then (a ++ b)%string
  else (a ++ "/" ++ b)%string.

End Os.

(** ** The [random] module

    The state of the generator is the sequence of raw outputs it will still
    produce.  [random.seed] replaces that sequence by the one the seed
    determines; every library call consumes one raw output and derives its
    result from it ([random()] from 53 of its bits, [_randbelow(n)] by
    reduction modulo [n]). *)

Module Random.

Definition State := nat -> N.

(** A computation that draws from the generator and may raise. *)
Definition R (A : Type) : Type := State -> result A * State.

Definition ret {A} (a : A) : R A := fun s => (Ok a, s).

Definition bind {A B} (m : R A) (f : A -> R B) : R B :=
  fun s => match m s with
           | (Ok a, s') => f a s'
           | (Raise e, s') => (Raise e, s')
           end.

Definition raise {A} (e : exn) : R A := fun s => (Raise e, s).

Definition lift {A} (r : result A) : R A := fun s => (r, s).

(** The generator after one output. *)
Definition advance (s : State) : State := fun i => s (S i).

(** One raw output of the generator. *)
Definition next : R N := fun s => (Ok (s O), advance s).

(** The float in [0, 1) that 53 bits of a raw output stand for. *)
Definition unit_float (n : N) : Q := Z.of_N (n mod 2 ^ 53) # 2 ^ 53.

(** [random.random()]: a float in [0, 1) with 53 bits. *)
Definition random : R Q := bind next (fun n => ret (unit_float n)).

(** [_randbelow(n)] for [n > 0]: an int in [0, n). *)
Definition randbelow (n : Z) : R Z :=
  bind next (fun raw => ret (Z.of_N raw mod n)%Z).

(** [random.uniform(a, b)]: [a + (b - a) * random()] *)
Definition uniform (a b : Q) : R Q :=
  bind random (fun u => ret (a + (b - a) * u)).

(** [random.choice(seq)]; raises [IndexError] on an empty sequence. *)
Definition choice {A} (seq : list A) : R A :=
  match seq with
  | [] => raise IndexError
  | _ => bind (randbelow (Z.of_nat (length seq)))
           (fun i => lift (PyR.item seq (Z.to_nat i)))
  end.

(** [random.randint(a, b)]; raises [ValueError] on an empty range. *)
Definition randint (a b : Z) : R Z :=
  if (b <? a)%Z then raise ValueError
  else bind (randbelow (b - a + 1)) (fun k => ret (a + k)%Z).

(** The selection loop of [random.sample] over its [pool]: [k] draws,
    each moving the last live entry into the slot it empties. *)
Fixpoint sample_loop {A} (k : nat) (pool : list A) (n : nat) : R (list A) :=
  match k with
  | O => ret []
  | S k' =>
      bind (randbelow (Z.of_nat n)) (fun j =>
      bind (lift (PyR.item pool (Z.to_nat j))) (fun x =>
      bind (lift (PyR.item pool (n - 1))) (fun y =>
      bind (sample_loop k' (<[Z.to_nat j := y]> pool) (n - 1)) (fun rest =>
      ret (x :: rest)))))
  end.

(** [random.sample(population, k)] for a population of at most 21
    entries (the pool branch of the library). *)
Definition sample {A} (population : list A) (k : Z) : R (list A) :=
  if ((k <? 0) || (Z.of_nat (length population) <? k))%Z
  then raise ValueError
  else sample_loop (Z.to_nat k) population (length population).

(** [for _ in range(count): body()] *)
Fixpoint repeat_draw {B} (count : nat) (body : R (list B)) : R (list B) :=
  match count with
  | O => ret []
  | S n => bind body (fun ys =>
           bind (repeat_draw n body) (fun zs => ret (ys ++ zs)))
  end.

End Random.

#[global] Instance R_ret : MRet Random.R := @Random.ret.
#[global] Instance R_bind : MBind Random.R := fun A B f m => Random.bind m f.

(** ** Colours *)

(** A colour is a Python tuple of floats, usually (r, g, b) or (r, g, b, a). *)
Definition Color := list Q.

(** Channel-wise equality of two colours as numbers. *)
Definition color_eq (c d : Color) : Prop := Forall2 Qeq c d.

Definition rgb (r g b : Q) : Color := [r; g; b].

Module ColorPalette.

(** [hsv_to_rgb(h, s, v)] *)
Definition hsv_to_rgb (h s v : Q) : Color :=
  let i := Py.int (h * 6) in
  let f := h * 6 - inject_Z i in
  let p := v * (1 - s) in
  let q := v * (1 - f * s) in
  let t := v * (1 - (1 - f) * s) in
  let i := (i mod 6)%Z in
  if (i =? 0)%Z then [v; t; p]
  else if (i =? 1)%Z then [q; v; p]
  else if (i =? 2)%Z then [p; v; t]
  else if (i =? 3)%Z then [p; q; v]
  else if (i =? 4)%Z then [t; p; v]
  else [v; p; q].

(** The conversion as the specification words it: the sector is
    [floor(h*6) mod 6] and [f] is the fractional part of [h*6]. *)
Definition hsvToRgb_spec (h s v : Q) : Color :=
  let f := h * 6 - inject_Z (Qfloor (h * 6)) in
  let p := v * (1 - s) in
  let q := v * (1 - f * s) in
  let t := v * (1 - (1 - f) * s) in
  match (Qfloor (h * 6) mod 6)%Z with
  | 0%Z => [v; t; p]
  | 1%Z => [q; v; p]
  | 2%Z => [p; v; t]
  | 3%Z => [p; q; v]
  | 4%Z => [t; p; v]
  | _ => [v; p; q]
  end.

(** [HARMONY_RULES]: the hues a rule adds to the base hue. *)
Definition complementary_rule (h : Q) : list Q := [Py.mod1 (h + (5 # 10))].
Definition triadic_rule (h : Q) : list Q :=
  [Py.mod1 (h + 1 / 3); Py.mod1 (h + 2 / 3)].
Definition analogous_rule (h : Q) : list Q :=
  [Py.mod1 (h + 1 / 12); Py.mod1 (h - 1 / 12)].
Definition split_complementary_rule (h : Q) : list Q :=
  [Py.mod1 (h + 5 / 12); Py.mod1 (h + 7 / 12)].
Definition tetradic_rule (h : Q) : list Q :=
  [Py.mod1 (h + (25 # 100)); Py.mod1 (h + (5 # 10)); Py.mod1 (h + (75 # 100))].
Definition monochromatic_rule (h : Q) : list Q := [h].

Definition HARMONY_RULES : gmap string (Q -> list Q) :=
  list_to_map
    [ ("complementary", complementary_rule);
      ("triadic", triadic_rule);
      ("analogous", analogous_rule);
      ("split_complementary", split_complementary_rule);
      ("tetradic", tetradic_rule);
      ("monochromatic", monochromatic_rule) ].

(** [PRESET_PALETTES] *)
Definition PRESET_PALETTES : gmap string (list Color) :=
  list_to_map
    [ ("sunset", [rgb (98#100) (4#10) (2#10); rgb (95#100) (6#10) (1#10);
                  rgb (85#100) (2#10) (3#10); rgb (4#10) (1#10) (3#10)]);
      ("ocean", [rgb 0 (3#10) (6#10); rgb (1#10) (5#10) (8#10);
                 rgb (2#10) (7#10) (9#10); rgb 0 (2#10) (4#10)]);
      ("forest", [rgb (1#10) (4#10) (1#10); rgb (2#10) (6#10) (2#10);
                  rgb (4#10) (7#10) (3#10); rgb (5#100) (3#10) (5#100)]);
      ("neon", [rgb 1 0 (5#10); rgb 0 1 (8#10);
                rgb (5#10) 0 1; rgb 1 1 0]);
      ("pastel", [rgb (9#10) (7#10) (7#10); rgb (7#10) (9#10) (7#10);
                  rgb (7#10) (7#10) (9#10); rgb (9#10) (9#10) (7#10)]);
      ("corporate", [rgb (1#10) (2#10) (5#10); rgb (2#10) (4#10) (7#10);
                     rgb (8#10) (8#10) (85#100);
                     rgb (95#100) (95#100) (95#100)]);
      ("retro", [rgb (9#10) (5#10) (2#10); rgb (7#10) (3#10) (3#10);
                 rgb (3#10) (5#10) (5#10); rgb (9#10) (8#10) (6#10)]);
      ("dark_elegance", [rgb (1#10) (1#10) (15#100); rgb (8#10) (7#10) (4#10);
                         rgb (3#10) (25#100) (3#10);
                         rgb (6#10) (5#10) (3#10)]) ].

(** [get_preset(name)]:
    [PRESET_PALETTES.get(name, PRESET_PALETTES["corporate"])] *)
Definition get_preset (name : string) : list Color :=
  default (PRESET_PALETTES !!! "corporate") (PRESET_PALETTES !! name).

(** [adjust_brightness(color, factor)] *)
Definition adjust_brightness (color : Color) (factor : Q) : Color :=
  map (fun c => Py.min 1 (Py.max 0 (c * factor))) color.

(** [adjust_opacity(color, alpha)]: [( *color[:3], alpha)] *)
Definition adjust_opacity (color : Color) (alpha : Q) : Color :=
  Py.slice_to 3 color ++ [alpha].

(** [cls.HARMONY_RULES.get(rule, cls.HARMONY_RULES["triadic"])] *)
Definition harmony_func (rule : string) : Q -> list Q :=
  default (HARMONY_RULES !!! "triadic") (HARMONY_RULES !! rule).

(** [hues = [base_hue] + harmony_func(base_hue)] *)
Definition harmony_hues (rule : string) (base_hue : Q) : list Q :=
  [base_hue] ++ harmony_func rule base_hue.

(** [max(0, min(1, x))] *)
Definition clamp01 (x : Q) : Q := Py.max 0 (Py.min 1 x).

(** The loop of [generate_harmonious] over [hues]. *)
Fixpoint colors_of_hues (hues : list Q) (saturation value : Q)
  : Random.R (list Color) :=
  match hues with
  | [] => mret []
  | h :: rest =>
      ds ← Random.uniform (- (1 # 10)) (1 # 10);
      let s := saturation + ds in
      dv ← Random.uniform (- (1 # 10)) (1 # 10);
      let v := value + dv in
      let c := hsv_to_rgb h (clamp01 s) (clamp01 v) in
      cs ← colors_of_hues rest saturation value;
      mret (c :: cs)
  end.

(** [generate_harmonious(base_hue=None, rule="triadic", saturation=0.7,
    value=0.85)] *)
Definition generate_harmonious (base_hue : option Q) (rule : string)
    (saturation value : Q) : Random.R (list Color) :=
  base_hue ← match base_hue with
             | None => Random.random
             | Some h => mret h
             end;
  colors_of_hues (harmony_hues rule base_hue) saturation value.


End ColorPalette.

(** ** [hsv_to_rgb] on IEEE 754 doubles

    The same function on the machine floats Python computes with, for its
    values at concrete inputs. *)

Module Binary64.

(** [int(x)]; [None] where Python raises (infinities and NaN). *)
Definition int (x : float) : option Z :=
  match Prim2SF x with
  | S754_zero _ => Some 0%Z
  | S754_finite s m e =>
      let a := if (0 <=? e)%Z then (Zpos m * 2 ^ e)%Z
               else (Zpos m / 2 ^ (- e))%Z in
      Some (if s then (- a)%Z else a)
  | _ => None
  end.

(** An int of magnitude below 2^53 as a float. *)
Definition of_int (z : Z) : float :=
  if (0 <=? z)%Z then of_uint63 (Uint63.of_Z z)
  else PrimFloat.opp (of_uint63 (Uint63.of_Z (- z))).

Definition hsv_to_rgb (h s v : float) : option (float * float * float) :=
  match int (h * 6)%float with
  | None => None
  | Some i =>
      let f := (h * 6 - of_int i)%float in
      let p := (v * (1 - s))%float in
      let q := (v * (1 - f * s))%float in
      let t := (v * (1 - (1 - f) * s))%float in
      let i := (i mod 6)%Z in
      Some (if (i =? 0)%Z then (v, t, p)
            else if (i =? 1)%Z then (q, v, p)
            else if (i =? 2)%Z then (p, v, t)
            else if (i =? 3)%Z then (p, q, v)
            else if (i =? 4)%Z then (t, p, v)
            else (v, p, q))
  end.

End Binary64.

(** ** The [math] module *)

Class MathLib := {
  m_cos : Q -> Q;
  m_sin : Q -> Q;
  m_sqrt : Q -> Q;
  m_pi : Q
}.

(** [math.radians(x)] *)
Definition radians `{MathLib} (deg : Q) : Q := deg * m_pi / 180.

(** An int used where the program computes with floats. *)
Abbreviation fl := inject_Z.

(** ** gizeh elements and surfaces *)

Definition Point := (Q * Q)%type.

(** The geometry of a gizeh element. *)
Inductive Shape :=
| Circle (r : Q) (xy : Point)
| Rectangle (lx ly : Q) (xy : Point)
| Square (l : Q) (xy : Point) (angle : Q)
| Polyline (points : list Point) (xy : Point) (close_path : bool)
| Text (txt : string) (fontfamily : string) (fontsize : Q) (xy : Point)
       (angle : Q) (fontweight : string).

(** A gizeh element: its geometry and the [fill], [stroke] and
    [stroke_width] keyword arguments the call passes ([None] when the call
    leaves the argument out or passes [None]). *)
Record Element := {
  shape : Shape;
  fill : option Color;
  stroke : option Color;
  stroke_width : option Q
}.

Definition filled (s : Shape) (c : Color) : Element :=
  {| shape := s; fill := Some c; stroke := None; stroke_width := None |}.

Definition stroked (s : Shape) (c : Color) (w : Q) : Element :=
  {| shape := s; fill := None; stroke := Some c; stroke_width := Some w |}.

(** [gizeh.Surface]: the elements drawn so far, oldest first. *)
Record Surface := {
  s_width : Z;
  s_height : Z;
  s_bg_color : Color;
  s_drawn : list Element
}.

(** [gizeh.Surface(width, height, bg_color)] *)
Definition new_surface (w h : Z) (bg : Color) : Surface :=
  {| s_width := w; s_height := h; s_bg_color := bg; s_drawn := [] |}.

(** [element.draw(surface)] *)
Definition draw (e : Element) (s : Surface) : Surface :=
  {| s_width := s_width s; s_height := s_height s;
     s_bg_color := s_bg_color s; s_drawn := s_drawn s ++ [e] |}.

(** Several [draw] calls in a row. *)
Definition draw_all (es : list Element) (s : Surface) : Surface :=
  fold_left (fun acc e => draw e acc) es s.

(** The string of a text element. *)
Definition text_of (e : Element) : option string :=
  match shape e with Text t _ _ _ _ _ => Some t | _ => None end.

(** ** PatternGenerator *)

Module PatternGenerator.
Section Patterns.
Context `{MathLib}.

(** [draw_dots(surface, width, height, color, spacing=20, radius=2)] *)
Definition draw_dots (width height : Z) (color : Color)
    (spacing : Z) (radius : Q) : result (list Element) :=
  xs ← PyR.range 0 (width + spacing) spacing;
  for_each xs (fun x =>
    ys ← PyR.range 0 (height + spacing) spacing;
    Ok (map (fun y => filled (Circle radius (fl x, fl y)) color) ys)).

(** The [length] local of [draw_lines]. *)
Definition lines_length (width height : Z) : Z :=
  (Z.max width height * 2)%Z.

(** The stroke [draw_lines] builds for one [offset]. *)
Definition line_at (length : Z) (rad : Q) (color : Color)
    (stroke_width : Q) (offset : Z) : Element :=
  let x1 := fl offset in
  let y1 := 0 in
  let x2 := fl offset + fl length * m_cos rad in
  let y2 := fl length * m_sin rad in
  stroked (Polyline [(x1, y1); (x2, y2)] (0, 0) false) color stroke_width.

(** [draw_lines(surface, width, height, color, spacing=15, stroke_width=1,
    angle=45)] *)
Definition draw_lines (width height : Z) (color : Color)
    (spacing : Z) (stroke_width : Q) (angle : Q) : result (list Element) :=
  let rad := radians angle in
  let length := lines_length width height in
  offsets ← PyR.range (- length) length spacing;
  Ok (map (line_at length rad color stroke_width) offsets).

(** [draw_grid(surface, width, height, color, spacing=25, stroke_width=0.5)] *)
Definition draw_grid (width height : Z) (color : Color)
    (spacing : Z) (stroke_width : Q) : result (list Element) :=
  xs ← PyR.range 0 (width + spacing) spacing;
  ys ← PyR.range 0 (height + spacing) spacing;
  Ok (map (fun x => stroked (Polyline [(fl x, 0); (fl x, fl height)]
                               (0, 0) false) color stroke_width) xs
      ++ map (fun y => stroked (Polyline [(0, fl y); (fl width, fl y)]
                                  (0, 0) false) color stroke_width) ys).

(** [draw_concentric_circles(surface, cx, cy, max_radius, color, count=8,
    stroke_width=1)] *)
Definition draw_concentric_circles (cx cy max_radius : Q) (color : Color)
    (count : Z) (stroke_width : Q) : result (list Element) :=
  idxs ← PyR.range 1 (count + 1) 1;
  for_each idxs (fun i =>
    r ← PyR.div (max_radius * fl i) (fl count);
    Ok [stroked (Circle r (cx, cy)) color stroke_width]).

(** The six corners of one hexagon of [draw_hexagon_pattern]. *)
Definition hexagon_points (cx cy size : Q) : list Point :=
  map (fun i => (cx + size * m_cos (radians (60 * fl i)),
                 cy + size * m_sin (radians (60 * fl i))))
      (Py.range0 6).

(** [draw_hexagon_pattern(surface, width, height, color, size=20,
    stroke_width=0.5)] *)
Definition draw_hexagon_pattern (width height : Z) (color : Color)
    (size : Q) (stroke_width : Q) : result (list Element) :=
  let hex_height := size * m_sqrt 3 in
  nrows ← PyR.div (fl height) hex_height;
  rows ← PyR.range (-1) (Py.int nrows + 2) 1;
  for_each rows (fun row =>
    ncols ← PyR.div (fl width) (size * (15 # 10));
    cols ← PyR.range (-1) (Py.int ncols + 2) 1;
    for_each cols (fun col =>
      let cx := fl col * size * (15 # 10) in
      let cy := fl row * hex_height + fl (col mod 2) * hex_height / 2 in
      let points := hexagon_points cx cy size in
      p0 ← PyR.first points;
      Ok [stroked (Polyline (points ++ [p0]) (0, 0) false)
            color stroke_width])).

(** [draw_wave_pattern(surface, width, height, color, amplitude=10,
    frequency=0.05, stroke_width=1)] *)
Definition draw_wave_pattern (width height : Z) (color : Color)
    (amplitude frequency stroke_width : Q) : result (list Element) :=
  offsets ← PyR.range 0 (height + 40) 20;
  for_each offsets (fun y_offset =>
    xs ← PyR.range 0 (width + 5) 5;
    let points :=
      map (fun x => (fl x, fl y_offset
                           + amplitude * m_sin (frequency * fl x * 2 * m_pi)))
          xs in
    if (1 <? Z.of_nat (length points))%Z
    then Ok [stroked (Polyline points (0, 0) false) color stroke_width]
    else Ok []).

End Patterns.
End PatternGenerator.

(** ** ShapeFactory *)

Module ShapeFactory.
Section Shapes.
Context `{MathLib}.

(** A closed polyline with the keyword arguments the factory passes on. *)
Definition closed_polyline (points : list Point) (xy : Point)
    (fill stroke : option Color) (stroke_width : Q) : result Element :=
  p0 ← PyR.first points;
  Ok {| shape := Polyline (points ++ [p0]) xy true;
        fill := fill; stroke := stroke; stroke_width := Some stroke_width |}.

(** [create_star(points_count, outer_radius, inner_radius, xy, fill=None,
    stroke=None, stroke_width=0, rotation=0)] *)
Definition create_star (points_count : Z) (outer_radius inner_radius : Q)
    (xy : Point) (fill stroke : option Color) (stroke_width rotation : Q)
  : result Element :=
  points ← for_each (Py.range0 (points_count * 2)) (fun i =>
    a ← PyR.div (m_pi * fl i) (fl points_count);
    let angle := a + rotation - m_pi / 2 in
    let r := if (i mod 2 =? 0)%Z then outer_radius else inner_radius in
    Ok [(r * m_cos angle, r * m_sin angle)]);
  closed_polyline points xy fill stroke stroke_width.

(** [create_diamond(size, xy, fill=None, stroke=None, stroke_width=0)] *)
Definition create_diamond (size : Q) (xy : Point)
    (fill stroke : option Color) (stroke_width : Q) : result Element :=
  let points := [(0, - size); (size * (6 # 10), 0); (0, size);
                 (- size * (6 # 10), 0)] in
  closed_polyline points xy fill stroke stroke_width.

(** [create_polygon(sides, radius, xy, fill=None, stroke=None,
    stroke_width=0, rotation=0)] *)
Definition create_polygon (sides : Z) (radius : Q) (xy : Point)
    (fill stroke : option Color) (stroke_width rotation : Q)
  : result Element :=
  points ← for_each (Py.range0 sides) (fun i =>
    a ← PyR.div (2 * m_pi * fl i) (fl sides);
    Ok [(radius * m_cos (a + rotation), radius * m_sin (a + rotation))]);
  closed_polyline points xy fill stroke stroke_width.

(** [create_rounded_rectangle(w, h, corner_radius, xy, fill=None,
    stroke=None, stroke_width=0)] *)
Definition create_rounded_rectangle (w h corner_radius : Q) (xy : Point)
    (fill stroke : option Color) (stroke_width : Q) : Element :=
  {| shape := Rectangle w h xy; fill := fill; stroke := stroke;
     stroke_width := Some stroke_width |}.

(** The truth value of an optional colour in a condition: [None] and the
    empty tuple are false. *)
Definition truthy (c : option Color) : bool :=
  match c with
  | Some (_ :: _) => true
  | _ => false
  end.

(** [create_ring(outer_r, inner_r, xy, fill=None, stroke=None,
    stroke_width=2)] *)
Definition create_ring (outer_r inner_r : Q) (xy : Point)
    (fill stroke : option Color) (stroke_width : Q) : list Element :=
  let elements := [] in
  let elements :=
    if truthy fill
    then elements ++ [ {| shape := Circle outer_r xy; fill := fill;
                          stroke := None; stroke_width := None |} ]
    else elements in
  if truthy stroke
  then elements ++ [ {| shape := Circle outer_r xy; fill := None;
                        stroke := stroke;
                        stroke_width := Some stroke_width |};
                     {| shape := Circle inner_r xy; fill := None;
                        stroke := stroke;
                        stroke_width := Some stroke_width |} ]
  else elements.

(** [create_spiral(center, max_radius, turns, xy, stroke=(0, 0, 0),
    stroke_width=2)]; [None] stands for the [None] the function returns
    when it has fewer than two points. *)
Definition create_spiral (center : Point) (max_radius turns : Q) (xy : Point)
    (stroke : Color) (stroke_width : Q) : result (option Element) :=
  let steps := Py.int (turns * 100) in
  points ← for_each (Py.range0 steps) (fun i =>
    t ← PyR.div (fl i) (fl steps);
    let angle := turns * 2 * m_pi * t in
    let r := max_radius * t in
    let x := fst center + r * m_cos angle in
    let y := snd center + r * m_sin angle in
    Ok [(x, y)]);
  if (1 <? Z.of_nat (length points))%Z
  then Ok (Some (stroked (Polyline points xy false) stroke stroke_width))
  else Ok None.

(** [create_cross(size, thickness, xy, fill=None, stroke=None,
    stroke_width=0)] *)
Definition create_cross (size thickness : Q) (xy : Point)
    (fill stroke : option Color) (stroke_width : Q) : result Element :=
  let half := thickness / 2 in
  let points := [ (- half, - size); (half, - size); (half, - half);
                  (size, - half); (size, half); (half, half);
                  (half, size); (- half, size); (- half, half);
                  (- size, half); (- size, - half); (- half, - half) ] in
  closed_polyline points xy fill stroke stroke_width.

(** [create_arrow(size, xy, direction="right", fill=None, stroke=None,
    stroke_width=0)] *)
Definition create_arrow (size : Q) (xy : Point) (direction : string)
    (fill stroke : option Color) (stroke_width : Q) : result Element :=
  let points :=
    if String.eqb direction "right" then
      [ (- size, - size * (3 # 10)); (size * (3 # 10), - size * (3 # 10));
        (size * (3 # 10), - size * (6 # 10)); (size, 0);
        (size * (3 # 10), size * (6 # 10)); (size * (3 # 10), size * (3 # 10));
        (- size, size * (3 # 10)) ]
    else if String.eqb direction "up" then
      [ (- size * (3 # 10), size); (- size * (3 # 10), - size * (3 # 10));
        (- size * (6 # 10), - size * (3 # 10)); (0, - size);
        (size * (6 # 10), - size * (3 # 10)); (size * (3 # 10), - size * (3 # 10));
        (size * (3 # 10), size) ]
    else
      [ (- size, - size * (3 # 10)); (size * (3 # 10), - size * (3 # 10));
        (size * (3 # 10), - size * (6 # 10)); (size, 0);
        (size * (3 # 10), size * (6 # 10)); (size * (3 # 10), size * (3 # 10));
        (- size, size * (3 # 10)) ] in
  closed_polyline points xy fill stroke stroke_width.

End Shapes.
End ShapeFactory.

(** ** TextRenderer *)

Module TextRenderer.

Definition text_elem (txt fontfamily : string) (fontsize : Q) (xy : Point)
    (fill : Color) (angle : Q) (fontweight : string) : Element :=
  filled (Text txt fontfamily fontsize xy angle fontweight) fill.

(** [render_text(surface, text, xy, fontsize=36, fontfamily="Arial",
    fill=(0,0,0), angle=0, font_weight="normal")] *)
Definition render_text (txt : string) (xy : Point) (fontsize : Q)
    (fontfamily : string) (fill : Color) (angle : Q) (font_weight : string)
  : list Element :=
  [text_elem txt fontfamily fontsize xy fill angle font_weight].

(** [render_text_with_shadow(surface, text, xy, fontsize=36,
    fontfamily="Arial", fill=(1,1,1), shadow_color=(0,0,0),
    shadow_offset=(3,3), angle=0)] *)
Definition render_text_with_shadow (txt : string) (xy : Point) (fontsize : Q)
    (fontfamily : string) (fill shadow_color : Color) (shadow_offset : Point)
    (angle : Q) : list Element :=
  let shadow_xy := (fst xy + fst shadow_offset, snd xy + snd shadow_offset) in
  [text_elem txt fontfamily fontsize shadow_xy shadow_color angle "normal";
   text_elem txt fontfamily fontsize xy fill angle "normal"].

Definition outline_offsets : list (Z * Z) :=
  [(-1, -1); (-1, 1); (1, -1); (1, 1); (-1, 0); (1, 0); (0, -1); (0, 1)]%Z.

(** [render_text_with_outline(surface, text, xy, fontsize=36,
    fontfamily="Arial", fill=(1,1,1), outline_color=(0,0,0),
    outline_width=2, angle=0)] *)
Definition render_text_with_outline (txt : string) (xy : Point) (fontsize : Q)
    (fontfamily : string) (fill outline_color : Color) (outline_width : Z)
    (angle : Q) : list Element :=
  flat_map (fun d : Z * Z =>
    map (fun mult =>
           let outline_xy := (fst xy + fl (fst d * mult),
                              snd xy + fl (snd d * mult)) in
           text_elem txt fontfamily fontsize outline_xy outline_color angle
             "normal")
        (Py.range_up (Z.to_nat outline_width) 1 (outline_width + 1) 1))
    outline_offsets
  ++ [text_elem txt fontfamily fontsize xy fill angle "normal"].

(** The loop of [render_curved_text] over the characters still to draw. *)
Fixpoint curved_chars `{MathLib} (chars : list ascii) (center_xy : Point)
    (radius current_angle fontsize : Q) (fontfamily : string) (fill : Color)
  : result (list Element) :=
  match chars with
  | [] => Ok []
  | char :: rest =>
      let char_angle := current_angle in
      let x := fst center_xy + radius * m_cos char_angle in
      let y := snd center_xy + radius * m_sin char_angle in
      let char_elem :=
        text_elem (String char EmptyString) fontfamily fontsize (x, y) fill
          (char_angle + m_pi / 2) "normal" in
      step ← PyR.div (fontsize * (6 # 10)) radius;
      es ← curved_chars rest center_xy radius (current_angle + step) fontsize
             fontfamily fill;
      Ok (char_elem :: es)
  end.

(** [render_curved_text(surface, text, center_xy, radius, start_angle=0,
    fontsize=24, fontfamily="Arial", fill=(0, 0, 0))] *)
Definition render_curved_text `{MathLib} (text : string) (center_xy : Point)
    (radius start_angle fontsize : Q) (fontfamily : string) (fill : Color)
  : result (list Element) :=
  total_angle ← PyR.div (fl (Z.of_nat (String.length text)) * fontsize
                         * (6 # 10)) radius;
  let current_angle := start_angle - total_angle / 2 in
  curved_chars (list_ascii_of_string text) center_xy radius current_angle
    fontsize fontfamily fill.

(** [render_multi_line(surface, lines, start_xy, fontsize=24,
    fontfamily="Arial", fill=(0, 0, 0), line_spacing=1.4, align="center")] *)
Definition render_multi_line (lines : list string) (start_xy : Point)
    (fontsize : Q) (fontfamily : string) (fill : Color) (line_spacing : Q)
    (align : string) : list Element :=
  imap (fun i line =>
          let y := snd start_xy + fl (Z.of_nat i) * fontsize * line_spacing in
          text_elem line fontfamily fontsize (fst start_xy, y) fill 0 "normal")
       lines.

End TextRenderer.

(** ** EffectsEngine *)

Module EffectsEngine.
Section Effects.
Context `{MathLib}.

(** [tuple(c1 + (c2 - c1) * t for c1, c2 in zip(color1, color2))] *)
Definition lerp (color1 color2 : Color) (t : Q) : Color :=
  zip_with (fun c1 c2 => c1 + (c2 - c1) * t) color1 color2.

(** [( *color[:3], alpha)] *)
Definition with_alpha (color : Color) (alpha : Q) : Color :=
  Py.slice_to 3 color ++ [alpha].

(** One band of [draw_gradient_background]. *)
Definition gradient_band (width height : Z) (color1 color2 : Color)
    (direction : string) (steps i : Z) : result (list Element) :=
  t ← PyR.div (fl i) (fl steps);
  let color := lerp color1 color2 t in
  if String.eqb direction "vertical" then
    let y := fl height * t in
    q ← PyR.div (fl height) (fl steps);
    let h := q + 1 in
    Ok [filled (Rectangle (fl width + 2) h (fl width / 2, y + h / 2)) color]
  else if String.eqb direction "horizontal" then
    let x := fl width * t in
    q ← PyR.div (fl width) (fl steps);
    let w := q + 1 in
    Ok [filled (Rectangle w (fl height + 2) (x + w / 2, fl height / 2)) color]
  else if String.eqb direction "diagonal" then
    let y := fl height * t in
    q ← PyR.div (fl height) (fl steps);
    let h := q + 1 in
    Ok [filled (Rectangle (fl width * 2) h (fl width / 2, y + h / 2)) color]
  else
    let y := fl height * t in
    q ← PyR.div (fl height) (fl steps);
    let h := q + 1 in
    Ok [filled (Rectangle (fl width + 2) h (fl width / 2, y + h / 2)) color].

(** [draw_gradient_background(surface, width, height, color1, color2,
    direction="vertical", steps=50)] *)
Definition draw_gradient_background (width height : Z)
    (color1 color2 : Color) (direction : string) (steps : Z)
  : result (list Element) :=
  for_each (Py.range0 steps)
    (gradient_band width height color1 color2 direction steps).

(** [draw_radial_gradient(surface, center, max_radius, color1, color2,
    steps=40)] *)
Definition draw_radial_gradient (center : Point) (max_radius : Q)
    (color1 color2 : Color) (steps : Z) : result (list Element) :=
  idxs ← PyR.range steps 0 (-1);
  for_each idxs (fun i =>
    t ← PyR.div (fl i) (fl steps);
    let r := max_radius * t in
    let color := lerp color1 color2 (1 - t) in
    Ok [filled (Circle r center) color]).

(** [draw_glow(surface, center, radius, color, intensity=5, steps=15)] *)
Definition draw_glow (center : Point) (radius : Q) (color : Color)
    (intensity : Q) (steps : Z) : result (list Element) :=
  idxs ← PyR.range steps 0 (-1);
  for_each idxs (fun i =>
    t ← PyR.div (fl i) (fl steps);
    let r := radius + intensity * (1 - t) * 3 in
    let alpha := t * (3 # 10) in
    let glow_color :=
      if (3 <=? Z.of_nat (length color))%Z
      then Py.slice_to 3 color ++ [alpha]
      else color ++ [alpha] in
    Ok [filled (Circle r center) glow_color]).

(** One particle of [draw_particle_burst]. *)
Definition particle (center : Point) (max_radius : Q) (colors : list Color)
  : Random.R (list Element) :=
  angle ← Random.uniform 0 (2 * m_pi);
  distance ← Random.uniform 10 max_radius;
  let x := fst center + distance * m_cos angle in
  let y := snd center + distance * m_sin angle in
  r ← Random.uniform 1 4;
  color ← Random.choice colors;
  alpha ← Random.uniform (3 # 10) 1;
  let fill := with_alpha color alpha in
  mret [filled (Circle r (x, y)) fill].

(** [draw_particle_burst(surface, center, count=30, max_radius=80,
    colors=None)] *)
Definition draw_particle_burst (center : Point) (count : Z) (max_radius : Q)
    (colors : option (list Color)) : Random.R (list Element) :=
  let colors := default [[1; 1; 1]] colors in
  Random.repeat_draw (Z.to_nat count) (particle center max_radius colors).

(** [draw_lens_flare(surface, center, size=50, color=(1, 1, 0.8))] *)
Definition draw_lens_flare (center : Point) (size : Q) (color : Color)
  : result (list Element) :=
  idxs ← PyR.range 5 0 (-1);
  let flares :=
    map (fun i =>
           let alpha := (1 # 10) * fl i / 5 in
           let r := size * fl i / 3 in
           filled (Circle r center) (with_alpha color alpha)) idxs in
  angles ← PyR.range 0 360 30;
  let spokes :=
    map (fun angle =>
           let rad := radians (fl angle) in
           let length := size * (15 # 10) in
           let x2 := fst center + length * m_cos rad in
           let y2 := snd center + length * m_sin rad in
           stroked (Polyline [center; (x2, y2)] (0, 0) false)
             (with_alpha color (15 # 100)) 1) angles in
  Ok (flares ++ spokes).

(** [draw_gradient_circle(surface, center, max_radius, color1, color2,
    steps=30)] *)
Definition draw_gradient_circle (center : Point) (max_radius : Q)
    (color1 color2 : Color) (steps : Z) : result (list Element) :=
  idxs ← PyR.range steps 0 (-1);
  for_each idxs (fun i =>
    t ← PyR.div (fl i) (fl steps);
    let r := max_radius * t in
    let color := lerp color1 color2 (1 - t) in
    Ok [filled (Circle r center) color]).

(** [draw_shadow(surface, shape_func, offset=(5, 5), blur_steps=8,
    shadow_color=(0, 0, 0))]; the callback [shape_func(offset=..., color=...)]
    yields the drawing calls it issues. *)
Definition draw_shadow {B} (shape_func : Point -> Color -> result (list B))
    (offset : Point) (blur_steps : Z) (shadow_color : Color)
  : result (list B) :=
  idxs ← PyR.range blur_steps 0 (-1);
  for_each idxs (fun i =>
    alpha ← PyR.div ((1 # 10) * fl (blur_steps - i)) (fl blur_steps);
    let spread := fl i * (5 # 10) in
    let shadow_c := shadow_color ++ [alpha] in
    shape_func (fst offset + spread, snd offset + spread) shadow_c).

End Effects.
End EffectsEngine.

(** ** LogoTemplate *)

Module LogoTemplate.
Section Templates.
Context `{MathLib}.

Definition white : Color := [1; 1; 1].

(** [colors[i] if len(colors) > i else fallback] *)
Definition color_or (colors : list Color) (i : nat) (fallback : Color)
  : Color :=
  if (i <? length colors)%nat then default fallback (colors !! i)
  else fallback.

(** [min(width, height) * k] *)
Definition scaled (width height : Z) (k : Q) : Q :=
  fl (Z.min width height) * k.

Definition bold (txt fontfamily : string) (fontsize : Q) (xy : Point)
    (fill : Color) : Element :=
  TextRenderer.text_elem txt fontfamily fontsize xy fill 0 "bold".

(** [minimal_circle(surface, width, height, colors, text="LOGO",
    fontfamily="Arial")] *)
Definition minimal_circle (width height : Z) (colors : list Color)
    (text fontfamily : string) : result (list Element) :=
  let cx := fl width / 2 in
  let cy := fl height / 2 in
  let radius := scaled width height (3 # 10) in
  c0 ← PyR.first colors;
  let text_color := color_or colors 2 white in
  Ok [ filled (Circle radius (cx, cy)) c0;
       filled (Circle (radius * (7 # 10)) (cx, cy)) (color_or colors 1 white);
       bold text fontfamily (radius * (5 # 10)) (cx, cy) text_color ].

(** [shield_badge(surface, width, height, colors, text="BRAND",
    fontfamily="Arial")] *)
Definition shield_badge (width height : Z) (colors : list Color)
    (text fontfamily : string) : result (list Element) :=
  let cx := fl width / 2 in
  let cy := fl height / 2 in
  let size := scaled width height (35 # 100) in
  let points := [ (0, - size);
                  (size * (8 # 10), - size * (5 # 10));
                  (size * (8 # 10), size * (3 # 10));
                  (0, size);
                  (- size * (8 # 10), size * (3 # 10));
                  (- size * (8 # 10), - size * (5 # 10)) ] in
  p0 ← PyR.first points;
  c0 ← PyR.first colors;
  let shield :=
    {| shape := Polyline (points ++ [p0]) (cx, cy) true;
       fill := Some c0; stroke := Some (color_or colors 1 white);
       stroke_width := Some 3 |} in
  let text_color := color_or colors 2 white in
  Ok [ shield;
       bold text fontfamily (size * (35 # 100)) (cx, cy) text_color ].

(** [geometric_abstract(surface, width, height, colors, text="",
    fontfamily="Arial")] *)
Definition geometric_abstract (width height : Z) (colors : list Color)
    (text fontfamily : string) : result (list Element) :=
  let cx := fl width / 2 in
  let cy := fl height / 2 in
  let size := scaled width height (25 # 100) in
  circles ← for_each (Py.range0 3) (fun i =>
    let angle := fl i * 2 * m_pi / 3 in
    let x := cx + size * (3 # 10) * m_cos angle in
    let y := cy + size * (3 # 10) * m_sin angle in
    color ← (if (length colors =? 0)%nat then Raise ZeroDivisionError
             else PyR.item colors (Z.to_nat (i mod Z.of_nat (length colors))));
    let fill_color := Py.slice_to 3 color ++ [7 # 10] in
    Ok [filled (Circle (size * (5 # 10)) (x, y)) fill_color]);
  if String.eqb text "" then Ok circles
  else
    c0 ← PyR.first colors;
    Ok (circles ++
        [bold text fontfamily (size * (4 # 10)) (cx, cy + size * (9 # 10)) c0]).

(** [text[:2]] *)
Definition first_two (text : string) : string :=
  string_of_list_ascii (Py.slice_to 2 (list_ascii_of_string text)).

(** [monogram(surface, width, height, colors, text="AB",
    fontfamily="Arial")] *)
Definition monogram (width height : Z) (colors : list Color)
    (text fontfamily : string) : result (list Element) :=
  let cx := fl width / 2 in
  let cy := fl height / 2 in
  let size := scaled width height (35 # 100) in
  let points := [(0, - size); (size, 0); (0, size); (- size, 0)] in
  p0 ← PyR.first points;
  c0 ← PyR.first colors;
  let diamond :=
    {| shape := Polyline (points ++ [p0]) (cx, cy) true;
       fill := Some c0; stroke := None; stroke_width := None |} in
  let border :=
    {| shape := Polyline (points ++ [p0]) (cx, cy) true;
       fill := None; stroke := Some (color_or colors 1 white);
       stroke_width := Some 2 |} in
  let text_color := color_or colors 2 white in
  Ok [ diamond; border;
       bold (first_two text) fontfamily (size * (7 # 10)) (cx, cy)
         text_color ].

(** The corners of the hexagons of [tech_hexagon], at radius [r]. *)
Definition tech_points (r : Q) : list Point :=
  map (fun i => (r * m_cos (radians (60 * fl i - 30)),
                 r * m_sin (radians (60 * fl i - 30))))
      (Py.range0 6).

(** [tech_hexagon(surface, width, height, colors, text="TECH",
    fontfamily="Arial")] *)
Definition tech_hexagon (width height : Z) (colors : list Color)
    (text fontfamily : string) : result (list Element) :=
  let cx := fl width / 2 in
  let cy := fl height / 2 in
  let size := scaled width height (32 # 100) in
  let points := tech_points size in
  p0 ← PyR.first points;
  c0 ← PyR.first colors;
  let hex_shape :=
    {| shape := Polyline (points ++ [p0]) (cx, cy) true;
       fill := Some c0; stroke := None; stroke_width := None |} in
  let inner_points := tech_points (size * (7 # 10)) in
  q0 ← PyR.first inner_points;
  let inner_hex :=
    {| shape := Polyline (inner_points ++ [q0]) (cx, cy) true;
       fill := None; stroke := Some (color_or colors 1 white);
       stroke_width := Some 2 |} in
  lines ← for_each (seq 0 6) (fun i =>
    a ← PyR.item inner_points i;
    b ← PyR.item points i;
    Ok [stroked (Polyline [a; b] (cx, cy) false)
          (color_or colors 1 white) 1]);
  let text_color := color_or colors 2 white in
  Ok ([hex_shape; inner_hex] ++ lines ++
      [bold text fontfamily (size * (35 # 100)) (cx, cy) text_color]).

(** [circular_badge(surface, width, height, colors, text="PREMIUM",
    fontfamily="Arial")] *)
Definition circular_badge (width height : Z) (colors : list Color)
    (text fontfamily : string) : result (list Element) :=
  let cx := fl width / 2 in
  let cy := fl height / 2 in
  let radius := scaled width height (35 # 100) in
  c0 ← PyR.first colors;
  let ring :=
    [ filled (Circle radius (cx, cy)) c0;
      stroked (Circle (radius * (85 # 100)) (cx, cy))
        (color_or colors 1 white) 2;
      filled (Circle (radius * (75 # 100)) (cx, cy))
        (color_or colors 1 [2 # 10; 2 # 10; 2 # 10]) ] in
  let dot_color := color_or colors 2 white in
  let dots :=
    map (fun i =>
           let angle := radians (30 * fl i) in
           let dx := cx + radius * (8 # 10) * m_cos angle in
           let dy := cy + radius * (8 # 10) * m_sin angle in
           filled (Circle 3 (dx, dy)) dot_color) (Py.range0 12) in
  star ← ShapeFactory.create_star 5 (radius * (3 # 10)) (radius * (15 # 100))
           (cx, cy) (Some (color_or colors 2 white)) None 0 0;
  c0' ← PyR.first colors;
  let text_color := c0' in
  Ok (ring ++ dots ++
      [star;
       bold text fontfamily (radius * (2 # 10)) (cx, cy + radius * (55 # 100))
         text_color]).

(** The [templates] table of [_apply_template]. *)
Definition templates
  : gmap string (Z -> Z -> list Color -> string -> string
                 -> result (list Element)) :=
  list_to_map
    [ ("minimal_circle", minimal_circle);
      ("shield_badge", shield_badge);
      ("geometric_abstract", geometric_abstract);
      ("monogram", monogram);
      ("tech_hexagon", tech_hexagon);
      ("circular_badge", circular_badge) ].

End Templates.
End LogoTemplate.

(** ** Configurations *)

(** A configuration dict with its recognised keys; [None] is an absent key. *)
Record Config := {
  cfg_bg_color : option Color;
  cfg_colors : option (list Color);
  cfg_template : option string;
  cfg_pattern : option string;
  cfg_effects : option (list string);
  cfg_text : option string;
  cfg_subtitle : option string;
  cfg_fontfamily : option string;
  cfg_fontsize : option Z;
  cfg_text_effect : option string;
  cfg_extra_shapes : option bool;
  cfg_gradient_direction : option string
}.

(** The dict [{}]. *)
Definition empty_config : Config :=
  {| cfg_bg_color := None; cfg_colors := None; cfg_template := None;
     cfg_pattern := None; cfg_effects := None; cfg_text := None;
     cfg_subtitle := None; cfg_fontfamily := None; cfg_fontsize := None;
     cfg_text_effect := None; cfg_extra_shapes := None;
     cfg_gradient_direction := None |}.

(** [config["colors"] = colors], [config["extra_shapes"] = b] and
    [config["pattern"] = name] *)
Definition set_colors (colors : list Color) (c : Config) : Config :=
  {| cfg_bg_color := cfg_bg_color c; cfg_colors := Some colors;
     cfg_template := cfg_template c; cfg_pattern := cfg_pattern c;
     cfg_effects := cfg_effects c; cfg_text := cfg_text c;
     cfg_subtitle := cfg_subtitle c; cfg_fontfamily := cfg_fontfamily c;
     cfg_fontsize := cfg_fontsize c; cfg_text_effect := cfg_text_effect c;
     cfg_extra_shapes := cfg_extra_shapes c;
     cfg_gradient_direction := cfg_gradient_direction c |}.

Definition set_extra_shapes (b : bool) (c : Config) : Config :=
  {| cfg_bg_color := cfg_bg_color c; cfg_colors := cfg_colors c;
     cfg_template := cfg_template c; cfg_pattern := cfg_pattern c;
     cfg_effects := cfg_effects c; cfg_text := cfg_text c;
     cfg_subtitle := cfg_subtitle c; cfg_fontfamily := cfg_fontfamily c;
     cfg_fontsize := cfg_fontsize c; cfg_text_effect := cfg_text_effect c;
     cfg_extra_shapes := Some b;
     cfg_gradient_direction := cfg_gradient_direction c |}.

Definition set_pattern (name : string) (c : Config) : Config :=
  {| cfg_bg_color := cfg_bg_color c; cfg_colors := cfg_colors c;
     cfg_template := cfg_template c; cfg_pattern := Some name;
     cfg_effects := cfg_effects c; cfg_text := cfg_text c;
     cfg_subtitle := cfg_subtitle c; cfg_fontfamily := cfg_fontfamily c;
     cfg_fontsize := cfg_fontsize c; cfg_text_effect := cfg_text_effect c;
     cfg_extra_shapes := cfg_extra_shapes c;
     cfg_gradient_direction := cfg_gradient_direction c |}.

(** ** The object store

    Configuration dicts are mutable objects that the caller and the
    generator share by reference; the store maps every reference to the
    current contents of its dict. *)

Definition loc := nat.

Record World := {
  heap : loc -> Config;
  fresh : loc;
  self_width : Z;
  self_height : Z;
  self_config : loc;
  rng : Random.State
}.

(** A method of [LogoGenerator]: it may read and write the store, draw
    random numbers and raise. *)
Definition M (A : Type) : Type := World -> result A * World.

#[global] Instance M_ret : MRet M := fun A a w => (Ok a, w).
#[global] Instance M_bind : MBind M :=
  fun A B f m w =>
    match m w with
    | (Ok a, w') => f a w'
    | (Raise e, w') => (Raise e, w')
    end.

Module Store.

Definition set_rng (s : Random.State) (w : World) : World :=
  {| heap := heap w; fresh := fresh w; self_width := self_width w;
     self_height := self_height w; self_config := self_config w; rng := s |}.

(** Reading the dict behind a reference. *)
Definition deref (l : loc) : M Config := fun w => (Ok (heap w l), w).

(** A dict display [{...}]: a new object. *)
Definition alloc (c : Config) : M loc := fun w =>
  (Ok (fresh w),
   {| heap := fun l => if decide (l = fresh w) then c else heap w l;
      fresh := S (fresh w); self_width := self_width w;
      self_height := self_height w; self_config := self_config w;
      rng := rng w |}).

(** [self.width], [self.height] *)
Definition width : M Z := fun w => (Ok (self_width w), w).
Definition height : M Z := fun w => (Ok (self_height w), w).

(** [self.config = config] *)
Definition set_config (l : loc) : M unit := fun w =>
  (Ok tt,
   {| heap := heap w; fresh := fresh w; self_width := self_width w;
      self_height := self_height w; self_config := l; rng := rng w |}).

(** A computation on the generator of the [random] module. *)
Definition random {A} (r : Random.R A) : M A := fun w =>
  let (a, s) := r (rng w) in (a, set_rng s w).

(** A computation that only may raise. *)
Definition pure {A} (r : result A) : M A := fun w => (r, w).

(** [random.seed(...)]: the generator restarts on the sequence [s]. *)
Definition seed (s : Random.State) (w : World) : World := set_rng s w.

(** An item assignment [d[key] = value] on the dict behind [l]: the
    contents of that dict change, every reference to it sees the change. *)
Definition assign (l : loc) (f : Config -> Config) : M unit := fun w =>
  (Ok tt,
   {| heap := fun l' => if decide (l' = l) then f (heap w l) else heap w l';
      fresh := fresh w; self_width := self_width w;
      self_height := self_height w; self_config := self_config w;
      rng := rng w |}).

(** [self.width = w] and [self.height = h] *)
Definition set_width (width : Z) : M unit := fun w =>
  (Ok tt,
   {| heap := heap w; fresh := fresh w; self_width := width;
      self_height := self_height w; self_config := self_config w;
      rng := rng w |}).

Definition set_height (height : Z) : M unit := fun w =>
  (Ok tt,
   {| heap := heap w; fresh := fresh w; self_width := self_width w;
      self_height := height; self_config := self_config w;
      rng := rng w |}).

End Store.

(** ** The file system

    What the methods that write files do to the disk: the directories
    they make sure exist and the PNG files they write, each file with the
    surface rendered into it.  A method that writes files runs on the
    store and on the disk ([IO]); what it has written stays written when
    it raises.  Creating a directory and writing a file always succeed
    here: an empty path, a file in the way of a directory or a full disk
    are outside the model. *)

Record Disk := {
  dirs : gset string;
  png_files : gmap string Surface
}.

Definition IO (A : Type) : Type := World -> Disk -> result A * World * Disk.

#[global] Instance IO_ret : MRet IO := fun A a w d => (Ok a, w, d).
#[global] Instance IO_bind : MBind IO :=
  fun A B f m w d =>
    match m w d with
    | (Ok a, w', d') => f a w' d'
    | (Raise e, w', d') => (Raise e, w', d')
    end.

Module Fs.

(** A method of the generator, run where files are written too. *)
Definition run {A} (m : M A) : IO A := fun w d =>
  let (r, w') := m w in (r, w', d).

(** [os.makedirs(path, exist_ok=True)] *)
Definition makedirs (path : string) : IO unit := fun w d =>
  (Ok tt, w, {| dirs := {[ path ]} ∪ dirs d; png_files := png_files d |}).

(** [surface.write_to_png(filename)] *)
Definition write_to_png (surface : Surface) (filename : string) : IO unit :=
  fun w d =>
    (Ok tt, w,
     {| dirs := dirs d;
        png_files := <[ filename := surface ]> (png_files d) |}).

(** [for x in xs: ...; out.append(body(x))] *)
Fixpoint for_each {A B} (xs : list A) (body : A -> IO B) : IO (list B) :=
  match xs with
  | [] => mret []
  | x :: rest =>
      y ← body x;
      ys ← for_each rest body;
      mret (y :: ys)
  end.

End Fs.

(** ** LogoGenerator *)

Module LogoGenerator.
Section Generator.
Context `{MathLib}.

Definition AVAILABLE_TEMPLATES : list string :=
  ["minimal_circle"; "shield_badge"; "geometric_abstract";
   "monogram"; "tech_hexagon"; "circular_badge"].

Definition AVAILABLE_PATTERNS : list string :=
  ["dots"; "lines"; "grid"; "concentric"; "hexagon"; "wave"; "none"].

Definition AVAILABLE_EFFECTS : list string :=
  ["gradient_bg"; "radial_gradient"; "glow";
   "particles"; "lens_flare"; "shadow"; "none"].

(** [list(ColorPalette.HARMONY_RULES.keys())], in insertion order. *)
Definition AVAILABLE_HARMONY : list string :=
  ["complementary"; "triadic"; "analogous"; "split_complementary";
   "tetradic"; "monochromatic"].

(** [list(ColorPalette.PRESET_PALETTES.keys())], in insertion order. *)
Definition AVAILABLE_PRESETS : list string :=
  ["sunset"; "ocean"; "forest"; "neon"; "pastel"; "corporate"; "retro";
   "dark_elegance"].

(** [name in effects] *)
Definition has (name : string) (effects : list string) : bool :=
  bool_decide (name ∈ effects).

(** [_random_config(self)] *)
Definition _random_config : Random.R Config :=
  harmony ← Random.choice AVAILABLE_HARMONY;
  colors ← ColorPalette.generate_harmonious None harmony (7 # 10) (85 # 100);
  c0 ← Random.lift (PyR.first colors);
  let bg := ColorPalette.adjust_brightness c0 (3 # 10) in
  template ← Random.choice AVAILABLE_TEMPLATES;
  pattern ← Random.choice AVAILABLE_PATTERNS;
  k ← Random.randint 0 3;
  effects ← Random.sample AVAILABLE_EFFECTS k;
  fontfamily ← Random.choice ["Arial"; "Helvetica"; "Georgia"; "Verdana"];
  text_effect ← Random.choice ["none"; "shadow"; "outline"];
  extra_shapes ← Random.choice [true; false];
  gradient_direction ← Random.choice ["vertical"; "horizontal"; "diagonal"];
  mret {| cfg_bg_color := Some bg; cfg_colors := Some colors;
          cfg_template := Some template; cfg_pattern := Some pattern;
          cfg_effects := Some effects; cfg_text := Some "LOGO";
          cfg_subtitle := Some ""; cfg_fontfamily := Some fontfamily;
          cfg_fontsize := Some 36%Z; cfg_text_effect := Some text_effect;
          cfg_extra_shapes := Some extra_shapes;
          cfg_gradient_direction := Some gradient_direction |}.

(** The calls a stage issues are drawn on the surface in order. *)
Definition paint (surface : Surface) (es : result (list Element))
  : M Surface :=
  es ← Store.pure es; mret (draw_all es surface).

(** [_apply_background(self, surface, config)] *)
Definition _apply_background (surface : Surface) (config : loc)
  : M Surface :=
  cfg ← Store.deref config;
  let effects := default [] (cfg_effects cfg) in
  let colors := default [[2 # 10; 3 # 10; 5 # 10]; [1 # 10; 1 # 10; 2 # 10]]
                  (cfg_colors cfg) in
  width ← Store.width;
  height ← Store.height;
  if has "gradient_bg" effects && (2 <=? length colors)%nat then
    let direction := default "vertical" (cfg_gradient_direction cfg) in
    paint surface (
      c0 ← PyR.first colors;
      cl ← PyR.item colors (length colors - 1);
      EffectsEngine.draw_gradient_background width height c0 cl direction 50)
  else if has "radial_gradient" effects && (2 <=? length colors)%nat then
    let max_radius := fl (Z.max width height) * (8 # 10) in
    paint surface (
      c0 ← PyR.first colors;
      cl ← PyR.item colors (length colors - 1);
      EffectsEngine.draw_radial_gradient (fl width / 2, fl height / 2)
        max_radius c0 cl 40)
  else mret surface.

(** [_apply_pattern(self, surface, config)] *)
Definition _apply_pattern (surface : Surface) (config : loc) : M Surface :=
  cfg ← Store.deref config;
  let pattern := default "none" (cfg_pattern cfg) in
  let colors := default [[5 # 10; 5 # 10; 5 # 10]] (cfg_colors cfg) in
  c0 ← Store.pure (PyR.first colors);
  let pattern_color := ColorPalette.adjust_brightness c0 (5 # 10) in
  let pattern_color := Py.slice_to 3 pattern_color ++ [15 # 100] in
  width ← Store.width;
  height ← Store.height;
  if String.eqb pattern "dots" then
    paint surface (PatternGenerator.draw_dots width height pattern_color 25 2)
  else if String.eqb pattern "lines" then
    paint surface
      (PatternGenerator.draw_lines width height pattern_color 20 1 45)
  else if String.eqb pattern "grid" then
    paint surface
      (PatternGenerator.draw_grid width height pattern_color 30 (5 # 10))
  else if String.eqb pattern "concentric" then
    paint surface
      (PatternGenerator.draw_concentric_circles (fl width / 2) (fl height / 2)
         (fl (Z.max width height) * (6 # 10)) pattern_color 10 1)
  else if String.eqb pattern "hexagon" then
    paint surface
      (PatternGenerator.draw_hexagon_pattern width height pattern_color 25
         (5 # 10))
  else if String.eqb pattern "wave" then
    paint surface
      (PatternGenerator.draw_wave_pattern width height pattern_color 10
         (5 # 100) 1)
  else mret surface.

(** [_apply_pre_effects(self, surface, config)] *)
Definition _apply_pre_effects (surface : Surface) (config : loc)
  : M Surface :=
  cfg ← Store.deref config;
  let effects := default [] (cfg_effects cfg) in
  let colors := default [[1; 1; 1]] (cfg_colors cfg) in
  width ← Store.width;
  height ← Store.height;
  let cx := fl width / 2 in
  let cy := fl height / 2 in
  if has "glow" effects then
    let glow_color := match colors with
                      | c0 :: _ => c0
                      | [] => [1; 1; 1]
                      end in
    paint surface (EffectsEngine.draw_glow (cx, cy) 30 glow_color 8 15)
  else mret surface.

(** [_apply_template(self, surface, config)] *)
Definition _apply_template (surface : Surface) (config : loc) : M Surface :=
  cfg ← Store.deref config;
  let template_name := default "minimal_circle" (cfg_template cfg) in
  let colors := default [[2 # 10; 4 # 10; 8 # 10]; [1; 1; 1]; [1; 1; 1]]
                  (cfg_colors cfg) in
  let text := default "LOGO" (cfg_text cfg) in
  let fontfamily := default "Arial" (cfg_fontfamily cfg) in
  let template_func :=
    default LogoTemplate.minimal_circle
      (LogoTemplate.templates !! template_name) in
  width ← Store.width;
  height ← Store.height;
  paint surface (template_func width height colors text fontfamily).

(** One decorative element of [_apply_extra_shapes]. *)
Definition extra_shape (width height : Z) (colors : list Color)
  : Random.R (list Element) :=
  let cx := fl width / 2 in
  let cy := fl height / 2 in
  angle ← Random.uniform 0 (2 * m_pi);
  distance ← Random.uniform (fl (Z.min width height) * (35 # 100))
                            (fl (Z.min width height) * (45 # 100));
  let x := cx + distance * m_cos angle in
  let y := cy + distance * m_sin angle in
  color ← Random.choice colors;
  alpha ← Random.uniform (3 # 10) (7 # 10);
  let alpha_color := Py.slice_to 3 color ++ [alpha] in
  shape_type ← Random.choice ["circle"; "square"; "diamond"; "triangle"];
  size ← Random.uniform 3 10;
  if String.eqb shape_type "circle" then
    mret [filled (Circle size (x, y)) alpha_color]
  else if String.eqb shape_type "square" then
    rot ← Random.uniform 0 m_pi;
    mret [filled (Square (size * 2) (x, y) rot) alpha_color]
  else if String.eqb shape_type "diamond" then
    d ← Random.lift
          (ShapeFactory.create_diamond size (x, y) (Some alpha_color) None 0);
    mret [d]
  else mret [].

(** [_apply_extra_shapes(self, surface, config)] *)
Definition _apply_extra_shapes (surface : Surface) (config : loc)
  : M Surface :=
  cfg ← Store.deref config;
  if negb (default false (cfg_extra_shapes cfg)) then mret surface
  else
    let colors := default [[5 # 10; 5 # 10; 5 # 10]] (cfg_colors cfg) in
    width ← Store.width;
    height ← Store.height;
    es ← Store.random (
      num_elements ← Random.randint 3 8;
      Random.repeat_draw (Z.to_nat num_elements)
        (extra_shape width height colors));
    mret (draw_all es surface).

(** [_apply_text(self, surface, config)] *)
Definition _apply_text (surface : Surface) (config : loc) : M Surface :=
  cfg ← Store.deref config;
  let subtitle := default "" (cfg_subtitle cfg) in
  if String.eqb subtitle "" then mret surface
  else
    let colors := default [[1; 1; 1]] (cfg_colors cfg) in
    let fontfamily := default "Arial" (cfg_fontfamily cfg) in
    width ← Store.width;
    height ← Store.height;
    let cx := fl width / 2 in
    let cy := fl height * (82 # 100) in
    let text_color := default [1; 1; 1] (Py.last_item colors) in
    let text_effect := default "none" (cfg_text_effect cfg) in
    if String.eqb text_effect "shadow" then
      paint surface (Ok (
        TextRenderer.render_text_with_shadow subtitle (cx, cy) 18 fontfamily
          text_color [0; 0; 0] (3, 3) 0))
    else if String.eqb text_effect "outline" then
      paint surface (Ok (
        TextRenderer.render_text_with_outline subtitle (cx, cy) 18 fontfamily
          text_color [0; 0; 0] 2 0))
    else
      paint surface (Ok (
        TextRenderer.render_text subtitle (cx, cy) 18 fontfamily text_color
          0 "normal")).

(** [_apply_post_effects(self, surface, config)] *)
Definition _apply_post_effects (surface : Surface) (config : loc)
  : M Surface :=
  cfg ← Store.deref config;
  let effects := default [] (cfg_effects cfg) in
  let colors := default [[1; 1; 1]] (cfg_colors cfg) in
  width ← Store.width;
  height ← Store.height;
  let cx := fl width / 2 in
  let cy := fl height / 2 in
  surface ← (if has "particles" effects then
               es ← Store.random (
                 EffectsEngine.draw_particle_burst (cx, cy) 40
                   (fl (Z.min width height) * (45 # 100)) (Some colors));
               mret (draw_all es surface)
             else mret surface);
  if has "lens_flare" effects then
    flare_x ← Store.random (
      d ← Random.uniform (- fl width * (2 # 10)) (fl width * (2 # 10));
      mret (cx + d));
    flare_y ← Store.random (
      d ← Random.uniform (- fl height * (2 # 10)) (fl height * (2 # 10));
      mret (cy + d));
    paint surface
      (EffectsEngine.draw_lens_flare (flare_x, flare_y) 30 [1; 1; 8 # 10])
  else mret surface.

(** [generate(self, config=None)] *)
Definition generate (config : option loc) : M Surface :=
  config ← match config with
           | None => c ← Store.random _random_config; Store.alloc c
           | Some l => mret l
           end;
  _ ← Store.set_config config;
  cfg ← Store.deref config;
  let bg_color := default [1 # 10; 1 # 10; 15 # 100] (cfg_bg_color cfg) in
  width ← Store.width;
  height ← Store.height;
  let surface := new_surface width height bg_color in
  (* Step 1: Background effects *)
  surface ← _apply_background surface config;
  (* Step 2: Pattern overlay *)
  surface ← _apply_pattern surface config;
  (* Step 3: Pre-effects *)
  surface ← _apply_pre_effects surface config;
  (* Step 4: Main logo template *)
  surface ← _apply_template surface config;
  (* Step 5: Additional shapes *)
  surface ← _apply_extra_shapes surface config;
  (* Step 6: Text elements *)
  surface ← _apply_text surface config;
  (* Step 7: Post-effects *)
  surface ← _apply_post_effects surface config;
  mret surface.

(** [save(self, surface, filename="logo.png")] *)
Definition save (surface : Surface) (filename : string) : IO unit :=
  Fs.write_to_png surface filename.

(** [batch_generate(self, count=10, output_dir="logos", prefix="logo")] *)
Definition batch_generate (count : Z) (output_dir prefix : string)
  : IO (list string) :=
  _ ← Fs.makedirs output_dir;
  generated_files ← Fs.for_each (Py.range0 count) (fun i =>
    config ← Fs.run (c ← Store.random _random_config; Store.alloc c);
    surface ← Fs.run (generate (Some config));
    let filename :=
      Os.path_join output_dir
        (prefix ++ "_" ++ Py.format_03d (i + 1) ++ ".png")%string in
    _ ← save surface filename;
    mret filename);
  mret generated_files.

(** [tuple(max(0, min(1, c + random.uniform(-0.1, 0.1))) for c in color)] *)
Fixpoint vary_color (color : Color) : Random.R Color :=
  match color with
  | [] => mret []
  | c :: rest =>
      d ← Random.uniform (- (1 # 10)) (1 # 10);
      cs ← vary_color rest;
      mret (ColorPalette.clamp01 (c + d) :: cs)
  end.

(** The loop of [generate_variations] over [config["colors"]]. *)
Fixpoint vary_colors (colors : list Color) : Random.R (list Color) :=
  match colors with
  | [] => mret []
  | color :: rest =>
      varied ← vary_color color;
      varied_colors ← vary_colors rest;
      mret (varied :: varied_colors)
  end.

(** [generate_variations(self, base_config, count=5,
    output_dir="variations")] *)
Definition generate_variations (base_config : loc) (count : Z)
    (output_dir : string) : IO (list string) :=
  _ ← Fs.makedirs output_dir;
  generated_files ← Fs.for_each (Py.range0 count) (fun i =>
    config ← Fs.run (c ← Store.deref base_config; Store.alloc c);
    _ ← Fs.run (
      cfg ← Store.deref config;
      match cfg_colors cfg with
      | Some colors =>
          varied_colors ← Store.random (vary_colors colors);
          Store.assign config (set_colors varied_colors)
      | None => mret tt
      end);
    _ ← Fs.run (
      b ← Store.random (Random.choice [true; false]);
      Store.assign config (set_extra_shapes b));
    _ ← Fs.run (
      name ← Store.random (Random.choice AVAILABLE_PATTERNS);
      Store.assign config (set_pattern name));
    surface ← Fs.run (generate (Some config));
    let filename :=
      Os.path_join output_dir
        ("variation_" ++ Py.format_03d (i + 1) ++ ".png")%string in
    _ ← save surface filename;
    mret filename);
  mret generated_files.

(** [generate_size_variants(self, config, sizes=None, output_dir="sizes")] *)
Definition generate_size_variants (config : loc)
    (sizes : option (list (Z * Z))) (output_dir : string)
  : IO (list string) :=
  let sizes := default [(64, 64); (128, 128); (256, 256); (512, 512);
                        (1024, 1024)]%Z sizes in
  _ ← Fs.makedirs output_dir;
  original_w ← Fs.run Store.width;
  original_h ← Fs.run Store.height;
  generated_files ← Fs.for_each sizes (fun size =>
    let w := fst size in
    let h := snd size in
    _ ← Fs.run (Store.set_width w);
    _ ← Fs.run (Store.set_height h);
    surface ← Fs.run (generate (Some config));
    let filename :=
      Os.path_join output_dir
        ("logo_" ++ Py.str_int w ++ "x" ++ Py.str_int h ++ ".png")%string in
    _ ← save surface filename;
    mret filename);
  _ ← Fs.run (Store.set_width original_w);
  _ ← Fs.run (Store.set_height original_h);
  mret generated_files.

End Generator.
End LogoGenerator.

(** ** Persistence: [save_config] and [load_config] *)

(** The Python values a configuration dict holds. *)
Inductive pyval :=
| PNone
| PBool (b : bool)
| PInt (z : Z)
| PFloat (q : Q)
| PStr (s : string)
| PTuple (items : list pyval)
| PList (items : list pyval).

(** A JSON document below the top-level object. *)
Inductive json :=
| JNull
| JBool (b : bool)
| JInt (z : Z)
| JFloat (q : Q)
| JStr (s : string)
| JArr (items : list json).

Module Json.

(** [json.dump]: tuples and lists both become arrays. *)
Fixpoint dump (v : pyval) : json :=
  match v with
  | PNone => JNull
  | PBool b => JBool b
  | PInt z => JInt z
  | PFloat q => JFloat q
  | PStr s => JStr s
  | PTuple items => JArr (map dump items)
  | PList items => JArr (map dump items)
  end.

(** [json.load]: arrays become lists. *)
Fixpoint load (j : json) : pyval :=
  match j with
  | JNull => PNone
  | JBool b => PBool b
  | JInt z => PInt z
  | JFloat q => PFloat q
  | JStr s => PStr s
  | JArr items => PList (map load items)
  end.

End Json.

Module Persistence.

(** The value [save_config] stores for one item of [self.config]. *)
Definition serializable (value : pyval) : pyval :=
  match value with
  | PTuple items => PList items
  | PList items =>
      PList (map (fun v => match v with
                           | PTuple l => PList l
                           | _ => v
                           end) items)
  | _ => value
  end.

(** [save_config(self, filename)]: the JSON object written to the file,
    from the dict [self.config]. *)
Definition save_config (config : gmap string pyval) : gmap string json :=
  Json.dump <$> (serializable <$> config).

(** [tuple(c) if isinstance(c, list) else c] *)
Definition tuple_if_list (c : pyval) : pyval :=
  match c with
  | PList l => PTuple l
  | _ => c
  end.

(** The characters of a string, as iterating over it yields them. *)
Definition chars (s : string) : list pyval :=
  map (fun a => PStr (String a EmptyString)) (list_ascii_of_string s).

(** [[tuple(c) if isinstance(c, list) else c for c in value]] *)
Definition tuples_of (value : pyval) : result pyval :=
  match value with
  | PList items => Ok (PList (map tuple_if_list items))
  | PTuple items => Ok (PList (map tuple_if_list items))
  | PStr s => Ok (PList (chars s))
  | _ => Raise TypeError
  end.

(** [load_config(self, filename)], from the JSON object read from the
    file. *)
Definition load_config (file : gmap string json)
  : result (gmap string pyval) :=
  let config := Json.load <$> file in
  let config :=
    match config !! "bg_color" with
    | Some (PList items) => <["bg_color" := PTuple items]> config
    | _ => config
    end in
  match config !! "colors" with
  | Some value =>
      cs ← tuples_of value;
      Ok (<["colors" := cs]> config)
  | None => Ok config
  end.

(** The dict a typed configuration stands for. *)
Definition py_color (c : Color) : pyval := PTuple (map PFloat c).

Definition entry {A} (key : string) (f : A -> pyval) (o : option A)
  : list (string * pyval) :=
  match o with
  | Some a => [(key, f a)]
  | None => []
  end.

Definition to_dict (c : Config) : gmap string pyval :=
  list_to_map
    (entry "bg_color" py_color (cfg_bg_color c)
     ++ entry "colors" (fun cs => PList (map py_color cs)) (cfg_colors c)
     ++ entry "template" PStr (cfg_template c)
     ++ entry "pattern" PStr (cfg_pattern c)
     ++ entry "effects" (fun es => PList (map PStr es)) (cfg_effects c)
     ++ entry "text" PStr (cfg_text c)
     ++ entry "subtitle" PStr (cfg_subtitle c)
     ++ entry "fontfamily" PStr (cfg_fontfamily c)
     ++ entry "fontsize" PInt (cfg_fontsize c)
     ++ entry "text_effect" PStr (cfg_text_effect c)
     ++ entry "extra_shapes" PBool (cfg_extra_shapes c)
     ++ entry "gradient_direction" PStr (cfg_gradient_direction c)).

End Persistence.

(** ** LogoComposer *)

Module LogoComposer.

(** A layer: [{"func": draw_func, "z_index": z_index}].  A callback
    receives the surface and draws on it. *)
Record Layer := {
  func : Surface -> Surface;
  z_index : Z
}.

(** The composer object: [self.width], [self.height], [self.layers]. *)
Record Composer := {
  width : Z;
  height : Z;
  layers : list Layer
}.

(** [LogoComposer(width, height)] *)
Definition init (w h : Z) : Composer :=
  {| width := w; height := h; layers := [] |}.

(** [add_layer(self, draw_func, z_index=0)] *)
Definition add_layer (draw_func : Surface -> Surface) (z : Z)
    (self : Composer) : Composer :=
  {| width := width self; height := height self;
     layers := layers self ++ [{| func := draw_func; z_index := z |}] |}.

(** The callbacks [compose] calls, in call order. *)
Definition call_order (self : Composer) : list Layer :=
  Py.sorted z_index (layers self).

(** [compose(self, bg_color=(0.1, 0.1, 0.15))] *)
Definition compose (self : Composer) (bg_color : Color) : Surface :=
  let surface := new_surface (width self) (height self) bg_color in
  let sorted_layers := Py.sorted z_index (layers self) in
  fold_left (fun surface layer => func layer surface) sorted_layers surface.

(** [clear(self)] *)
Definition clear (self : Composer) : Composer :=
  {| width := width self; height := height self; layers := [] |}.

End LogoComposer.

(** * Vocabulary of the properties *)

(** The order of the keys, on the entries. *)
Definition key_le {A : Type} (key : A -> Z) (a b : A) : Prop :=
  (key a <= key b)%Z.

(** The entries with key [k], in the order the list has them. *)
Definition with_key {A : Type} (key : A -> Z) (k : Z) (l : list A)
  : list A :=
  List.filter (fun a => (key a =? k)%Z) l.

(** A value without a tuple anywhere inside. *)
Fixpoint tuple_free (v : pyval) : bool :=
  match v with
  | PTuple _ => false
  | PList items => forallb tuple_free items
  | _ => true
  end.

(** A colour as configurations hold it: a tuple of plain values. *)
Definition is_color (v : pyval) : bool :=
  match v with
  | PTuple items => forallb tuple_free items
  | _ => false
  end.

(** What a configuration may hold under a key: a colour under "bg_color",
    a list of colours under "colors", and no tuple elsewhere. *)
Definition storable (key : string) (v : pyval) : bool :=
  if String.eqb key "bg_color" then is_color v
  else if String.eqb key "colors" then
    match v with
    | PList items => forallb is_color items
    | _ => false
    end
  else tuple_free v.

Definition well_formed (config : gmap string pyval) : Prop :=
  forall key v, config !! key = Some v -> storable key v = true.

(** A list of colours after [save_config], [json.dump] and [json.load]. *)
Definition as_lists (items : list pyval) : list pyval :=
  map (fun v => match v with PTuple l => PList l | _ => v end) items.

(** The sample configuration of the demos: three RGB colours and a
    background colour. *)
Definition sample_config : Config :=
  {| cfg_bg_color := Some [95 # 100; 95 # 100; 97 # 100];
     cfg_colors := Some [ [1 # 10; 2 # 10; 5 # 10];
                          [2 # 10; 4 # 10; 7 # 10];
                          [8 # 10; 8 # 10; 85 # 100] ];
     cfg_template := Some "minimal_circle";
     cfg_pattern := Some "none";
     cfg_effects := Some [];
     cfg_text := Some "PAT";
     cfg_subtitle := Some "None";
     cfg_fontfamily := Some "Arial";
     cfg_fontsize := Some 36%Z;
     cfg_text_effect := Some "none";
     cfg_extra_shapes := Some false;
     cfg_gradient_direction := Some "vertical" |}.

(** A rational stand-in for the [math] module, exact on the unit circle:
    [cos] and [sin] by the half-angle parametrisation with [tan (x/2)]
    replaced by [x/2]. *)
Definition rational_math : MathLib :=
  {| m_cos := fun x => (4 - x * x) / (4 + x * x);
     m_sin := fun x => 4 * x / (4 + x * x);
     m_sqrt := fun x => (x + 1) / 2;
     m_pi := 355 # 113 |}.

(** The square of the length of a two-point stroke. *)
Definition stroke_length_sq (e : Element) : option Q :=
  match shape e with
  | Polyline [(x1, y1); (x2, y2)] _ _ =>
      Some ((x2 - x1) * (x2 - x1) + (y2 - y1) * (y2 - y1))
  | _ => None
  end.

(** The square of twice the canvas diagonal. *)
Definition twice_diagonal_sq (width height : Z) : Q :=
  4 * (fl width * fl width + fl height * fl height).

(** Consecutive entries differ by [step]. *)
Definition stepped (step : Z) (l : list Z) : Prop :=
  forall i a b, l !! i = Some a -> l !! S i = Some b -> b = (a + step)%Z.

(** Whether a stroke has the squared length [q]. *)
Definition has_length_sq (q : Q) (e : Element) : bool :=
  match stroke_length_sq e with
  | Some len => Qeq_bool len q
  | None => false
  end.

(** The text runs among some drawing calls, in call order. *)
Definition texts_of (es : list Element) : list string := omap text_of es.

(** Drawing the calls [r] on top of what a surface already holds. *)
Definition on_top (r : result (list Element)) (s : Surface) : result Surface :=
  match r with
  | Ok es => Ok (draw_all es s)
  | Raise e => Raise e
  end.

(** The surface a step starts from when it is observed on its own. *)
Definition blank : Surface := new_surface 0 0 [].

(** What a step of [generate] draws, and the generator state it leaves,
    observed by running the step on a blank surface. *)
Definition drawn_by (step : Surface -> loc -> M Surface) (config : loc)
    (w : World) : result (list Element) :=
  match fst (step blank config w) with
  | Ok s => Ok (s_drawn s)
  | Raise e => Raise e
  end.

Definition rng_after (step : Surface -> loc -> M Surface) (config : loc)
    (w : World) : Random.State :=
  rng (snd (step blank config w)).

(** A step only adds drawing calls on top of the surface it receives, the
    same calls whatever the surface holds, and leaves the store alone. *)
Definition appends (step : Surface -> loc -> M Surface) : Prop :=
  forall config w surface,
    step surface config w
    = (on_top (drawn_by step config w) surface,
       Store.set_rng (rng_after step config w) w).

(** A step that draws no random number. *)
Definition deterministic (step : Surface -> loc -> M Surface) : Prop :=
  forall config w, rng_after step config w = rng w.

(** The store once [generate] has executed [self.config = config]. *)
Definition entered (config : loc) (w : World) : World :=
  snd (Store.set_config config w).

(** The surface [generate] creates for the configuration [cfg]. *)
Definition start_surface (cfg : Config) (w : World) : Surface :=
  new_surface (self_width w) (self_height w)
    (default [1 # 10; 1 # 10; 15 # 100] (cfg_bg_color cfg)).

(** What the steps after the random decorations see: the store with the
    generator advanced by [_apply_extra_shapes]. *)
Definition decorated `{MathLib} (config : loc) (w : World) : World :=
  Store.set_rng
    (rng_after LogoGenerator._apply_extra_shapes config (entered config w))
    (entered config w).

(** The calls of the seven steps, one after the other; the first step
    that raises ends the call. *)
Definition seven_steps `{MathLib} (config : loc) (w : World) : result (list Element) :=
  let w0 := entered config w in
  let w5 := decorated config w in
  es1 ← drawn_by LogoGenerator._apply_background config w0;
  es2 ← drawn_by LogoGenerator._apply_pattern config w0;
  es3 ← drawn_by LogoGenerator._apply_pre_effects config w0;
  es4 ← drawn_by LogoGenerator._apply_template config w0;
  es5 ← drawn_by LogoGenerator._apply_extra_shapes config w0;
  es6 ← drawn_by LogoGenerator._apply_text config w5;
  es7 ← drawn_by LogoGenerator._apply_post_effects config w5;
  Ok (es1 ++ es2 ++ es3 ++ es4 ++ es5 ++ es6 ++ es7).

(** The function [_apply_template] picks for a template name. *)
Definition template_func `{MathLib} (name : string) :=
  default LogoTemplate.minimal_circle (LogoTemplate.templates !! name).

(** The colour list is not empty, and the square root the hexagon pattern
    divides by is not zero. *)
Definition usable `{MathLib} (cfg : Config) : Prop :=
  cfg_colors cfg <> Some []
  /\ (default "none" (cfg_pattern cfg) = "hexagon" -> ~ m_sqrt 3 == 0).

(** The names each dispatch of the pipeline tests for. *)
Definition tested_patterns : list string :=
  ["dots"; "lines"; "grid"; "concentric"; "hexagon"; "wave"].

Definition tested_effects : list string :=
  ["gradient_bg"; "radial_gradient"; "glow"; "particles"; "lens_flare"].

(** Two pattern names, two effect lists that no test of the pipeline tells
    apart. *)
Definition same_pattern (p q : string) : Prop :=
  Forall (fun n => String.eqb p n = String.eqb q n) tested_patterns.

Definition same_effects (es fs : list string) : Prop :=
  Forall (fun n => LogoGenerator.has n es = LogoGenerator.has n fs)
    tested_effects.

(** Two configurations that differ at most in names the pipeline treats
    alike: the template names select the same function, the pattern names
    and the effect lists pass the same tests, and all other keys agree. *)
Definition alike `{MathLib} (c d : Config) : Prop :=
  cfg_bg_color c = cfg_bg_color d
  /\ cfg_colors c = cfg_colors d
  /\ template_func (default "minimal_circle" (cfg_template c))
     = template_func (default "minimal_circle" (cfg_template d))
  /\ same_pattern (default "none" (cfg_pattern c))
       (default "none" (cfg_pattern d))
  /\ same_effects (default [] (cfg_effects c)) (default [] (cfg_effects d))
  /\ cfg_text c = cfg_text d
  /\ cfg_subtitle c = cfg_subtitle d
  /\ cfg_fontfamily c = cfg_fontfamily d
  /\ cfg_text_effect c = cfg_text_effect d
  /\ cfg_extra_shapes c = cfg_extra_shapes d
  /\ cfg_gradient_direction c = cfg_gradient_direction d.

(** Two stores in which a call of [generate] on [config] sees the same
    canvas size, the same generator state and like configurations. *)
Definition same_view `{MathLib} (config : loc) (w1 w2 : World) : Prop :=
  alike (heap w1 config) (heap w2 config)
  /\ self_width w1 = self_width w2
  /\ self_height w1 = self_height w2
  /\ rng w1 = rng w2.

(** A step whose drawing calls and generator state depend on the store
    only through that view. *)
Definition reads_view `{MathLib} (step : Surface -> loc -> M Surface) : Prop :=
  forall config w1 w2,
    same_view config w1 w2 ->
    drawn_by step config w1 = drawn_by step config w2
    /\ rng_after step config w1 = rng_after step config w2.

Definition background_on (cfg : Config) : bool :=
  let effects := default [] (cfg_effects cfg) in
  let colors := default [[2 # 10; 3 # 10; 5 # 10]; [1 # 10; 1 # 10; 2 # 10]]
                  (cfg_colors cfg) in
  (LogoGenerator.has "gradient_bg" effects && (2 <=? length colors)%nat)
  || (LogoGenerator.has "radial_gradient" effects && (2 <=? length colors)%nat).

Definition pattern_on (cfg : Config) : bool :=
  existsb (String.eqb (default "none" (cfg_pattern cfg))) tested_patterns.

Definition glow_on (cfg : Config) : bool :=
  LogoGenerator.has "glow" (default [] (cfg_effects cfg)).

Definition extra_shapes_on (cfg : Config) : bool :=
  default false (cfg_extra_shapes cfg).

Definition subtitle_on (cfg : Config) : bool :=
  negb (String.eqb (default "" (cfg_subtitle cfg)) "").

Definition post_effects_on (cfg : Config) : bool :=
  LogoGenerator.has "particles" (default [] (cfg_effects cfg))
  || LogoGenerator.has "lens_flare" (default [] (cfg_effects cfg)).

(** A step that is switched off returns the surface as it received it and
    leaves the store, generator state included, as it was. *)
Definition no_op (step : Surface -> loc -> M Surface) (config : loc)
    (w : World) : Prop :=
  forall surface, step surface config w = (Ok surface, w).

(** A 500 x 500 generator, a store in which every reference holds the
    sample configuration, and a generator sequence for the examples. *)
Definition sample_world : World :=
  {| heap := fun _ => sample_config;
     fresh := 1%nat;
     self_width := 500;
     self_height := 500;
     self_config := 0%nat;
     rng := fun i => (N.of_nat i * 7919 + 12345)%N |}.

(** A step whose drawing calls do not depend on the generator state. *)
Definition ignores_rng (step : Surface -> loc -> M Surface) : Prop :=
  forall config w s,
    drawn_by step config (Store.set_rng s w) = drawn_by step config w.

(** A configuration with every step switched on, in a store where the
    other references hold other dicts. *)
Definition rich_config : Config :=
  {| cfg_bg_color := Some [1 # 10; 1 # 10; 2 # 10];
     cfg_colors := Some [ [1 # 10; 2 # 10; 5 # 10];
                          [2 # 10; 4 # 10; 7 # 10];
                          [8 # 10; 8 # 10; 85 # 100] ];
     cfg_template := Some "monogram";
     cfg_pattern := Some "dots";
     cfg_effects := Some ["gradient_bg"; "glow"; "particles"; "lens_flare"];
     cfg_text := Some "LOGO";
     cfg_subtitle := Some "Studio";
     cfg_fontfamily := Some "Arial";
     cfg_fontsize := Some 36%Z;
     cfg_text_effect := Some "shadow";
     cfg_extra_shapes := Some true;
     cfg_gradient_direction := Some "vertical" |}.

Definition rich_world : World :=
  {| heap := fun l => if (l =? 0)%nat then rich_config else sample_config;
     fresh := 1%nat;
     self_width := 500;
     self_height := 500;
     self_config := 0%nat;
     rng := fun i => (N.of_nat i * 7919 + 12345)%N |}.

(** The same generator and configuration later in the process: other
    dicts have come and gone, the generator has produced other numbers and
    [self.config] refers to another dict. *)
Definition later_world : World :=
  {| heap := fun l => if (l =? 0)%nat then rich_config else empty_config;
     fresh := 7%nat;
     self_width := 500;
     self_height := 500;
     self_config := 3%nat;
     rng := fun i => (N.of_nat i * 31 + 5)%N |}.

(** The sequence a seed stands for in the examples. *)
Definition seed_42 : Random.State := fun i => (N.of_nat i * 1103515245 + 42)%N.

(** How many drawing calls a call of [generate] on [config] issued and
    the text runs among them, when it returned. *)
Definition summary `{MathLib} (config : loc) (w : World)
  : option (nat * list string) :=
  match fst (LogoGenerator.generate (Some config) w) with
  | Ok s => Some (length (s_drawn s), texts_of (s_drawn s))
  | Raise _ => None
  end.

(** [config["template"] = name], and likewise for the pattern and the
    effects. *)
Definition with_template (name : string) (c : Config) : Config :=
  {| cfg_bg_color := cfg_bg_color c; cfg_colors := cfg_colors c;
     cfg_template := Some name; cfg_pattern := cfg_pattern c;
     cfg_effects := cfg_effects c; cfg_text := cfg_text c;
     cfg_subtitle := cfg_subtitle c; cfg_fontfamily := cfg_fontfamily c;
     cfg_fontsize := cfg_fontsize c; cfg_text_effect := cfg_text_effect c;
     cfg_extra_shapes := cfg_extra_shapes c;
     cfg_gradient_direction := cfg_gradient_direction c |}.

Definition with_pattern (name : string) (c : Config) : Config :=
  {| cfg_bg_color := cfg_bg_color c; cfg_colors := cfg_colors c;
     cfg_template := cfg_template c; cfg_pattern := Some name;
     cfg_effects := cfg_effects c; cfg_text := cfg_text c;
     cfg_subtitle := cfg_subtitle c; cfg_fontfamily := cfg_fontfamily c;
     cfg_fontsize := cfg_fontsize c; cfg_text_effect := cfg_text_effect c;
     cfg_extra_shapes := cfg_extra_shapes c;
     cfg_gradient_direction := cfg_gradient_direction c |}.

Definition with_effects (names : list string) (c : Config) : Config :=
  {| cfg_bg_color := cfg_bg_color c; cfg_colors := cfg_colors c;
     cfg_template := cfg_template c; cfg_pattern := cfg_pattern c;
     cfg_effects := Some names; cfg_text := cfg_text c;
     cfg_subtitle := cfg_subtitle c; cfg_fontfamily := cfg_fontfamily c;
     cfg_fontsize := cfg_fontsize c; cfg_text_effect := cfg_text_effect c;
     cfg_extra_shapes := cfg_extra_shapes c;
     cfg_gradient_direction := cfg_gradient_direction c |}.

(** The store in which the dict behind [config] holds [c]. *)
Definition holding (config : loc) (c : Config) (w : World) : World :=
  {| heap := fun l => if decide (l = config) then c else heap w l;
     fresh := fresh w; self_width := self_width w;
     self_height := self_height w; self_config := self_config w;
     rng := rng w |}.

(** What [generate] returns for the configuration [c]. *)
Definition render `{MathLib} (c : Config) (config : loc) (w : World)
  : result Surface :=
  fst (LogoGenerator.generate (Some config) (holding config c w)).

(** A colour of three channels, each within [0, 1]. *)
Definition in_gamut (c : Color) : Prop :=
  length c = 3%nat /\ Forall (fun x => 0 <= x <= 1) c.

(** The generator of the [random] module after [n] outputs. *)
Fixpoint advanced (n : nat) (s : Random.State) : Random.State :=
  match n with
  | O => s
  | S k => advanced k (Random.advance s)
  end.

(** The harmony rules that add one hue to the base hue. *)
Definition two_hue_rules : list string := ["complementary"; "monochromatic"].

(** An element that is an outline of [n] corners returning to its first
    point: a polyline of [n + 1] points whose last point is the first. *)
Definition closed_outline (n : nat) (e : Element) : Prop :=
  match shape e with
  | Polyline points _ _ => length points = S n /\ head points = last points
  | _ => False
  end.

(** The points of a polyline element. *)
Definition points_of (e : Element) : list Point :=
  match shape e with
  | Polyline points _ _ => points
  | _ => []
  end.

(** The square of the distance between two points. *)
Definition dist_sq (p q : Point) : Q :=
  (fst p - fst q) * (fst p - fst q) + (snd p - snd q) * (snd p - snd q).

(** The identity [cos^2 + sin^2 = 1], which the statements about
    distances assume of the [math] module. *)
Definition on_unit_circle `{MathLib} : Prop :=
  forall a, m_cos a * m_cos a + m_sin a * m_sin a == 1.

(** A point turned by a quarter turn: [(x, y)] becomes [(y, -x)]. *)
Definition quarter_turn (p q : Point) : Prop :=
  fst q == snd p /\ snd q == - fst p.

(** A particle of [draw_particle_burst]: a disc of radius in [1, 4) in a
    colour of the list, cut to three channels, with an alpha in
    [0.3, 1). *)
Definition a_particle (colors : list Color) (e : Element) : Prop :=
  exists r xy color alpha,
    e = filled (Circle r xy) (take 3 color ++ [alpha])
    /\ 1 <= r /\ r < 4 /\ 3 # 10 <= alpha /\ alpha < 1
    /\ In color colors.

(** The text a template draws for the configured text: [monogram] keeps
    its first two characters. *)
Definition caption (name text : string) : string :=
  if String.eqb name "monogram" then LogoTemplate.first_two text else text.

(** The exception a template raises on an empty colour list:
    [geometric_abstract] divides by the length of the list, the others
    index it. *)
Definition on_no_colors (name : string) : exn :=
  if String.eqb name "geometric_abstract" then ZeroDivisionError
  else IndexError.

(** The name of the [k]-th file of [batch_generate], counting from 0. *)
Definition batch_name (output_dir prefix : string) (k : nat) : string :=
  Os.path_join output_dir
    (prefix ++ "_" ++ Py.format_03d (Z.of_nat k + 1) ++ ".png")%string.

(** The name of the [k]-th file of [generate_variations]. *)
Definition variation_name (output_dir : string) (k : nat) : string :=
  Os.path_join output_dir
    ("variation_" ++ Py.format_03d (Z.of_nat k + 1) ++ ".png")%string.

(** The name of the file of [generate_size_variants] for one size. *)
Definition size_name (output_dir : string) (size : Z * Z) : string :=
  Os.path_join output_dir
    ("logo_" ++ Py.str_int (fst size) ++ "x" ++ Py.str_int (snd size)
     ++ ".png")%string.

(** The disk holds under [name] a PNG file rendered from a surface of
    [width] by [height] pixels. *)
Definition holds_render (d : Disk) (name : string) (width height : Z)
  : Prop :=
  exists s, png_files d !! name = Some s
            /\ s_width s = width /\ s_height s = height.

(** Two configurations that agree on every key but "colors",
    "extra_shapes" and "pattern". *)
Definition same_design (c d : Config) : Prop :=
  cfg_bg_color c = cfg_bg_color d
  /\ cfg_template c = cfg_template d
  /\ cfg_effects c = cfg_effects d
  /\ cfg_text c = cfg_text d
  /\ cfg_subtitle c = cfg_subtitle d
  /\ cfg_fontfamily c = cfg_fontfamily d
  /\ cfg_fontsize c = cfg_fontsize d
  /\ cfg_text_effect c = cfg_text_effect d
  /\ cfg_gradient_direction c = cfg_gradient_direction d.

(** A channel moved by at most 0.1 and kept within [0, 1]. *)
Definition nudged (c c' : Q) : Prop :=
  0 <= c' /\ c' <= 1
  /\ (0 <= c -> c <= 1 -> c - (1 # 10) <= c' /\ c' <= c + (1 # 10)).

(** A colour list varied channel by channel: as many colours, as many
    channels in each, every channel nudged. *)
Definition varied (colors colors' : list Color) : Prop :=
  Forall2 (Forall2 nudged) colors colors'.

(** The state [batch_generate] has reached after [k] logos, from the
    store [w0] and the disk [d0]. *)
Definition batch_state (output_dir prefix : string) (w0 : World) (d0 : Disk)
    (k : nat) (w : World) (d : Disk) : Prop :=
  self_width w = self_width w0 /\ self_height w = self_height w0
  /\ fresh w = (fresh w0 + k)%nat
  /\ (forall l, (l < fresh w0)%nat -> heap w l = heap w0 l)
  /\ output_dir ∈ dirs d
  /\ (forall j, (j < k)%nat ->
        holds_render d (batch_name output_dir prefix j)
          (self_width w0) (self_height w0))
  /\ (forall name, (forall j, (j < k)%nat ->
                      name <> batch_name output_dir prefix j) ->
        png_files d !! name = png_files d0 !! name).


(** The colours of a variation against the colours of its base: varied
    when the base has colours, absent when it has none. *)
Definition varied_config (base c : Config) : Prop :=
  match cfg_colors base, cfg_colors c with
  | Some colors, Some colors' => varied colors colors'
  | None, None => True
  | _, _ => False
  end.

(** A variation of a base configuration, as [generate_variations] builds
    it. *)
Definition variation_of (base c : Config) : Prop :=
  same_design c base
  /\ varied_config base c
  /\ (exists name, cfg_pattern c = Some name
                   /\ name ∈ LogoGenerator.AVAILABLE_PATTERNS)
  /\ (exists b, cfg_extra_shapes c = Some b).

(** A step of a method that leaves the generator's size and the number of
    dicts as they are and changes no dict but the one behind [config]. *)
Definition touches_only (config : loc) (w w' : World) : Prop :=
  fresh w' = fresh w
  /\ self_width w' = self_width w /\ self_height w' = self_height w
  /\ forall l, l <> config -> heap w' l = heap w l.

(** The state [generate_variations] has reached after [k] variations of
    the dict behind [base], from the store [w0] and the disk [d0]. *)
Definition variations_state (output_dir : string) (base : loc) (w0 : World)
    (d0 : Disk) (k : nat) (w : World) (d : Disk) : Prop :=
  self_width w = self_width w0 /\ self_height w = self_height w0
  /\ fresh w = (fresh w0 + k)%nat
  /\ (forall l, (l < fresh w0)%nat -> heap w l = heap w0 l)
  /\ (forall j, (j < k)%nat ->
        variation_of (heap w0 base) (heap w (fresh w0 + j)%nat))
  /\ output_dir ∈ dirs d
  /\ (forall j, (j < k)%nat ->
        holds_render d (variation_name output_dir j)
          (self_width w0) (self_height w0))
  /\ (forall name, (forall j, (j < k)%nat ->
                      name <> variation_name output_dir j) ->
        png_files d !! name = png_files d0 !! name).

(** The sizes [generate_size_variants] renders when none are given. *)
Definition default_sizes : list (Z * Z) :=
  [(64, 64); (128, 128); (256, 256); (512, 512); (1024, 1024)]%Z.

(** The state [generate_size_variants] has reached after the sizes
    [done], from the store [w0]: no dict has changed, and every file
    written so far holds a render at one of the sizes that share its
    name. *)
Definition size_variants_state (output_dir : string) (w0 : World)
    (done : list (Z * Z)) (w : World) (d : Disk) : Prop :=
  heap w = heap w0 /\ fresh w = fresh w0
  /\ output_dir ∈ dirs d
  /\ forall size, size ∈ done ->
       exists size', size' ∈ done
                     /\ size_name output_dir size' = size_name output_dir size
                     /\ holds_render d (size_name output_dir size)
                          (fst size') (snd size').

(** A decorative element of [_apply_extra_shapes]: a filled disc, square
    or diamond (a closed outline of four corners) whose fill has an alpha
    in [0.3, 0.7). *)
Definition a_decoration (e : Element) : Prop :=
  match shape e with
  | Circle _ _ | Square _ _ _ => True
  | Polyline _ _ _ => closed_outline 4 e
  | _ => False
  end
  /\ exists color alpha,
       fill e = Some (take 3 color ++ [alpha])
       /\ 3 # 10 <= alpha /\ alpha < 7 # 10.

(** A JSON value that is not a string and not an array: [null], a
    boolean or a number. *)
Definition scalar (j : json) : bool :=
  match j with
  | JNull | JBool _ | JInt _ | JFloat _ => true
  | JStr _ | JArr _ => false
  end.

(** ** The seven stages of a render, call by call

    What each stage of a render issues for a configuration [cfg] on a
    canvas of [width] by [height] pixels, written out with the calls of
    the drawing engines.  The two stages that draw at random run on the
    generator of the [random] module. *)

Section Stages.
Context `{MathLib}.

(** (1) Background: with at least two colours, the gradient from the
    first to the last colour, in bands for "gradient_bg", else in discs for
    "radial_gradient"; nothing otherwise. *)
Definition background_stage (cfg : Config) (width height : Z)
  : result (list Element) :=
  let effects := default [] (cfg_effects cfg) in
  let colors := default [[2 # 10; 3 # 10; 5 # 10]; [1 # 10; 1 # 10; 2 # 10]]
                  (cfg_colors cfg) in
  if negb (background_on cfg) then Ok []
  else
    c0 ← PyR.first colors;
    cl ← PyR.item colors (length colors - 1);
    if LogoGenerator.has "gradient_bg" effects then
      EffectsEngine.draw_gradient_background width height c0 cl
        (default "vertical" (cfg_gradient_direction cfg)) 50
    else
      EffectsEngine.draw_radial_gradient (fl width / 2, fl height / 2)
        (fl (Z.max width height) * (8 # 10)) c0 cl 40.

(** (2) Pattern: the first colour is looked up, darkened and made
    translucent before the pattern name is tested; then the pattern of
    that name, nothing for any other name. *)
Definition pattern_stage (cfg : Config) (width height : Z)
  : result (list Element) :=
  c0 ← PyR.first (default [[5 # 10; 5 # 10; 5 # 10]] (cfg_colors cfg));
  let color := take 3 (ColorPalette.adjust_brightness c0 (5 # 10))
               ++ [15 # 100] in
  let pattern := default "none" (cfg_pattern cfg) in
  if String.eqb pattern "dots" then
    PatternGenerator.draw_dots width height color 25 2
  else if String.eqb pattern "lines" then
    PatternGenerator.draw_lines width height color 20 1 45
  else if String.eqb pattern "grid" then
    PatternGenerator.draw_grid width height color 30 (5 # 10)
  else if String.eqb pattern "concentric" then
    PatternGenerator.draw_concentric_circles (fl width / 2) (fl height / 2)
      (fl (Z.max width height) * (6 # 10)) color 10 1
  else if String.eqb pattern "hexagon" then
    PatternGenerator.draw_hexagon_pattern width height color 25 (5 # 10)
  else if String.eqb pattern "wave" then
    PatternGenerator.draw_wave_pattern width height color 10 (5 # 100) 1
  else Ok [].

(** (3) Pre-effects: the glow around the centre, in the first colour
    (white on an empty colour list). *)
Definition glow_stage (cfg : Config) (width height : Z)
  : result (list Element) :=
  if glow_on cfg then
    EffectsEngine.draw_glow (fl width / 2, fl height / 2) 30
      (default [1; 1; 1] (head (default [[1; 1; 1]] (cfg_colors cfg)))) 8 15
  else Ok [].

(** (4) Template: the template of the configured name, "minimal_circle"
    for an absent or unknown name. *)
Definition template_stage (cfg : Config) (width height : Z)
  : result (list Element) :=
  template_func (default "minimal_circle" (cfg_template cfg)) width height
    (default [[2 # 10; 4 # 10; 8 # 10]; [1; 1; 1]; [1; 1; 1]] (cfg_colors cfg))
    (default "LOGO" (cfg_text cfg)) (default "Arial" (cfg_fontfamily cfg)).

(** (5) Extra shapes: between 3 and 8 decorative elements at random. *)
Definition decoration_stage (cfg : Config) (width height : Z)
  : Random.R (list Element) :=
  if extra_shapes_on cfg then
    num_elements ← Random.randint 3 8;
    Random.repeat_draw (Z.to_nat num_elements)
      (LogoGenerator.extra_shape width height
         (default [[5 # 10; 5 # 10; 5 # 10]] (cfg_colors cfg)))
  else mret [].

(** (6) Text: the subtitle under the logo in the last colour, with the
    configured text effect. *)
Definition subtitle_stage (cfg : Config) (width height : Z) : list Element :=
  let subtitle := default "" (cfg_subtitle cfg) in
  let fontfamily := default "Arial" (cfg_fontfamily cfg) in
  let xy := (fl width / 2, fl height * (82 # 100)) in
  let text_color :=
    default [1; 1; 1] (last (default [[1; 1; 1]] (cfg_colors cfg))) in
  let text_effect := default "none" (cfg_text_effect cfg) in
  if subtitle_on cfg then
    if String.eqb text_effect "shadow" then
      TextRenderer.render_text_with_shadow subtitle xy 18 fontfamily
        text_color [0; 0; 0] (3, 3) 0
    else if String.eqb text_effect "outline" then
      TextRenderer.render_text_with_outline subtitle xy 18 fontfamily
        text_color [0; 0; 0] 2 0
    else
      TextRenderer.render_text subtitle xy 18 fontfamily text_color 0 "normal"
  else [].

(** (7) Post-effects: a burst of 40 particles, then a lens flare at a
    random place near the centre. *)
Definition post_effects_stage (cfg : Config) (width height : Z)
  : Random.R (list Element) :=
  let effects := default [] (cfg_effects cfg) in
  let cx := fl width / 2 in
  let cy := fl height / 2 in
  particles ← (if LogoGenerator.has "particles" effects then
                 EffectsEngine.draw_particle_burst (cx, cy) 40
                   (fl (Z.min width height) * (45 # 100))
                   (Some (default [[1; 1; 1]] (cfg_colors cfg)))
               else mret []);
  flare ← (if LogoGenerator.has "lens_flare" effects then
             dx ← Random.uniform (- fl width * (2 # 10))
                    (fl width * (2 # 10));
             dy ← Random.uniform (- fl height * (2 # 10))
                    (fl height * (2 # 10));
             Random.lift
               (EffectsEngine.draw_lens_flare (cx + dx, cy + dy) 30
                  [1; 1; 8 # 10])
           else mret []);
  mret (particles ++ flare).

(** The seven stages in their order, from the generator state [st]: the
    calls of a later stage come after the calls of every earlier one, and
    the first stage that raises ends the render. *)
Definition pipeline (cfg : Config) (width height : Z) (st : Random.State)
  : result (list Element) :=
  es1 ← background_stage cfg width height;
  es2 ← pattern_stage cfg width height;
  es3 ← glow_stage cfg width height;
  es4 ← template_stage cfg width height;
  es5 ← fst (decoration_stage cfg width height st);
  let es6 := subtitle_stage cfg width height in
  es7 ← fst (post_effects_stage cfg width height
               (snd (decoration_stage cfg width height st)));
  Ok (es1 ++ es2 ++ es3 ++ es4 ++ es5 ++ es6 ++ es7).

End Stages.

(** The canvas of a render of [cfg] that holds exactly the calls [es]. *)
Definition canvas (cfg : Config) (width height : Z) (es : list Element)
  : Surface :=
  {| s_width := width; s_height := height;
     s_bg_color := default [1 # 10; 1 # 10; 15 # 100] (cfg_bg_color cfg);
     s_drawn := es |}.

(** The configuration of the examples with an empty colour list, in the
    store of the examples. *)
Definition colourless_config : Config := set_colors [] sample_config.

Definition colourless_world : World :=
  holding 0%nat colourless_config sample_world.

(** * Properties *)

(** ** Numerics *)

Lemma int_is_floor (x : Q) : 0 <= x -> Py.int x = Qfloor x.
Proof.
  destruct x as [n d]. unfold Qle, Py.int, Qfloor. simpl. intros Hn.
  apply Z.quot_div_nonneg; lia.
Qed.

Lemma Qfloor_unique (x : Q) (n : Z) :
  inject_Z n <= x -> x < inject_Z (n + 1) -> Qfloor x = n.
Proof.
  intros Hlo Hhi.
  pose proof (Qfloor_le x) as H1. pose proof (Qlt_floor x) as H2.
  assert (Hlt1 : inject_Z n < inject_Z (Qfloor x + 1)) by (eapply Qle_lt_trans; eauto).
  assert (Hlt2 : inject_Z (Qfloor x) < inject_Z (n + 1)) by (eapply Qle_lt_trans; eauto).
  rewrite <- Zlt_Qlt in Hlt1, Hlt2. lia.
Qed.

Lemma Qfloor_shift (x : Q) (k : Z) : Qfloor (x + inject_Z k) = (Qfloor x + k)%Z.
Proof.
  apply Qfloor_unique.
  - rewrite inject_Z_plus. apply Qplus_le_compat; [apply Qfloor_le | apply Qle_refl].
  - replace (Qfloor x + k + 1)%Z with ((Qfloor x + 1) + k)%Z by lia.
    rewrite inject_Z_plus. apply Qplus_lt_le_compat; [apply Qlt_floor | apply Qle_refl].
Qed.

Lemma sector_cases (i : Z) :
  let m := (i mod 6)%Z in
  m = 0%Z \/ m = 1%Z \/ m = 2%Z \/ m = 3%Z \/ m = 4%Z \/ m = 5%Z.
Proof. intros m. pose proof (Z.mod_pos_bound i 6). lia. Qed.

Lemma color_eq_refl (c : Color) : color_eq c c.
Proof. induction c; constructor; [reflexivity | assumption]. Qed.

(** ** ColorPalette.hsv_to_rgb *)

Lemma hsv_to_rgb_is_spec (h s v : Q) :
  0 <= h -> ColorPalette.hsv_to_rgb h s v = ColorPalette.hsvToRgb_spec h s v.
Proof.
  intros Hh.
  assert (H6 : 0 <= h * 6) by (apply Qmult_le_0_compat; [assumption | discriminate]).
  unfold ColorPalette.hsv_to_rgb, ColorPalette.hsvToRgb_spec.
  rewrite (int_is_floor _ H6). cbv zeta.
  destruct (sector_cases (Qfloor (h * 6))) as [E|[E|[E|[E|[E|E]]]]];
    rewrite E; reflexivity.
Qed.

Lemma hsv_spec_wraps (h s v : Q) :
  color_eq (ColorPalette.hsvToRgb_spec (h + 1) s v)
           (ColorPalette.hsvToRgb_spec h s v).
Proof.
  unfold ColorPalette.hsvToRgb_spec. cbv zeta.
  assert (E : Qfloor ((h + 1) * 6) = (Qfloor (h * 6) + 6)%Z).
  { rewrite <- Qfloor_shift. apply Qfloor_comp. simpl. ring. }
  rewrite E.
  replace ((Qfloor (h * 6) + 6) mod 6)%Z with (Qfloor (h * 6) mod 6)%Z
    by (rewrite <- (Z.mod_add _ 1 6) by lia; f_equal; lia).
  assert (F : (h + 1) * 6 - inject_Z (Qfloor (h * 6) + 6)
              == h * 6 - inject_Z (Qfloor (h * 6))).
  { rewrite inject_Z_plus. simpl. ring. }
  destruct (Qfloor (h * 6) mod 6)%Z as [|[[[]|[]|]|[[]|[]|]|]|];
    repeat constructor; try reflexivity; rewrite F; reflexivity.
Qed.

(** C6: for a hue [h >= 0], [hsv_to_rgb] is the six-sector conversion of the
    specification (sector [floor(h*6) mod 6], [f] the fractional part of
    [h*6], [p = v(1-s)], [q = v(1-f*s)], [t = v(1-(1-f)*s)]); the hue wraps
    with period 1; and hues 0, 1/3 and 2/3 at full saturation and value give
    pure red, green and blue, over the rationals and on IEEE doubles. *)
Theorem hsv_to_rgb_six_sectors (h s v : Q) :
  0 <= h ->
  ColorPalette.hsv_to_rgb h s v = ColorPalette.hsvToRgb_spec h s v
  /\ color_eq (ColorPalette.hsv_to_rgb (h + 1) s v) (ColorPalette.hsv_to_rgb h s v)
  /\ color_eq (ColorPalette.hsv_to_rgb 0 1 1) [1; 0; 0]
  /\ color_eq (ColorPalette.hsv_to_rgb (1 / 3) 1 1) [0; 1; 0]
  /\ color_eq (ColorPalette.hsv_to_rgb (2 / 3) 1 1) [0; 0; 1]
  /\ Binary64.hsv_to_rgb 0 1 1 = Some (1, 0, 0)%float
  /\ Binary64.hsv_to_rgb (1 / 3) 1 1 = Some (0, 1, 0)%float
  /\ Binary64.hsv_to_rgb (2 / 3) 1 1 = Some (0, 0, 1)%float.
Proof.
  intros Hh. split; [apply hsv_to_rgb_is_spec; assumption |].
  split.
  { rewrite !hsv_to_rgb_is_spec; [apply hsv_spec_wraps | assumption |].
    apply Qle_trans with h; [assumption |].
    rewrite <- (Qplus_0_r h) at 1. apply Qplus_le_compat; [apply Qle_refl | discriminate]. }
  repeat split; try (vm_compute; repeat constructor; reflexivity); reflexivity.
Qed.

Lemma hsv_to_rgb_six_sectors_witness :
  0 <= 5 # 12
  /\ ColorPalette.hsv_to_rgb (5 # 12) (1 # 2) (3 # 4)
     = ColorPalette.hsvToRgb_spec (5 # 12) (1 # 2) (3 # 4).
Proof.
  split; [discriminate |].
  apply (hsv_to_rgb_six_sectors (5 # 12) (1 # 2) (3 # 4)). discriminate.
Defined.

(** Below zero [int] rounds up where [floor] rounds down, and the two
    conversions part: at hue -1/10 the program stays in sector 0. *)
Example hsv_to_rgb_negative_hue :
  color_eq (ColorPalette.hsv_to_rgb (- (1 # 10)) 1 1) [1; - (6 # 10); 0]
  /\ color_eq (ColorPalette.hsvToRgb_spec (- (1 # 10)) 1 1) [1; 0; 6 # 10].
Proof. split; vm_compute; repeat constructor; reflexivity. Qed.

(** ** ColorPalette.generate_harmonious *)

Lemma clamp01_bounds (x : Q) :
  0 <= ColorPalette.clamp01 x /\ ColorPalette.clamp01 x <= 1.
Proof.
  unfold ColorPalette.clamp01, Py.max, Py.min.
  destruct (Qle_bool 1 x) eqn:E1.
  - simpl. split; discriminate.
  - destruct (Qle_bool x 0) eqn:E2.
    + split; [apply Qle_refl | discriminate].
    + assert (H1 : ~ 1 <= x) by (rewrite <- Qle_bool_iff; congruence).
      assert (H2 : ~ x <= 0) by (rewrite <- Qle_bool_iff; congruence).
      apply Qnot_le_lt in H1, H2. split; apply Qlt_le_weak; assumption.
Qed.

Lemma mod1_range (x : Q) : 0 <= Py.mod1 x /\ Py.mod1 x < 1.
Proof.
  unfold Py.mod1. pose proof (Qfloor_le x). pose proof (Qlt_floor x) as H2.
  rewrite inject_Z_plus in H2. change (inject_Z 1) with 1 in H2.
  set (k := inject_Z (Qfloor x)) in *. split; lra.
Qed.

Lemma half_turn_apart (h : Q) :
  Py.mod1 (Py.mod1 (h + (5 # 10)) - h) == 1 # 2.
Proof.
  unfold Py.mod1 at 2.
  set (k := Qfloor (h + (5 # 10))).
  assert (E : h + (5 # 10) - inject_Z k - h == (1 # 2) + inject_Z (- k)).
  { rewrite inject_Z_opp. ring. }
  unfold Py.mod1. rewrite (Qfloor_comp _ _ E), Qfloor_shift, E.
  replace (Qfloor (1 # 2)) with 0%Z by reflexivity.
  rewrite inject_Z_plus. simpl (inject_Z 0). ring.
Qed.

(** C7: with rule "complementary" and base hue [h], [generate_harmonious]
    returns exactly two colours, the first converted from hue [h] and the
    second from hue [(h + 0.5) % 1.0]; the two hues are half a turn apart,
    and the random offsets only enter the saturation and the value, which
    stay in [0, 1].  The same holds when the base hue is drawn at random. *)
Theorem complementary_gives_two_hues (h sat val : Q) (st : Random.State) :
  ColorPalette.harmony_hues "complementary" h = [h; Py.mod1 (h + (5 # 10))]
  /\ Py.mod1 (Py.mod1 (h + (5 # 10)) - h) == 1 # 2
  /\ (0 <= Py.mod1 (h + (5 # 10)) /\ Py.mod1 (h + (5 # 10)) < 1)
  /\ (exists s1 v1 s2 v2,
        fst (ColorPalette.generate_harmonious (Some h) "complementary" sat val st)
        = Ok [ColorPalette.hsv_to_rgb h s1 v1;
              ColorPalette.hsv_to_rgb (Py.mod1 (h + (5 # 10))) s2 v2]
        /\ (0 <= s1 /\ s1 <= 1) /\ (0 <= v1 /\ v1 <= 1)
        /\ (0 <= s2 /\ s2 <= 1) /\ (0 <= v2 /\ v2 <= 1))
  /\ (exists h0 s1 v1 s2 v2,
        fst (ColorPalette.generate_harmonious None "complementary" sat val st)
        = Ok [ColorPalette.hsv_to_rgb h0 s1 v1;
              ColorPalette.hsv_to_rgb (Py.mod1 (h0 + (5 # 10))) s2 v2]
        /\ Py.mod1 (Py.mod1 (h0 + (5 # 10)) - h0) == 1 # 2).
Proof.
  split; [reflexivity |].
  split; [apply half_turn_apart |].
  split; [apply mod1_range |].
  split.
  - eexists _, _, _, _. split; [reflexivity |].
    repeat split; apply clamp01_bounds.
  - eexists _, _, _, _, _. split; [reflexivity | apply half_turn_apart].
Qed.

(** ** LogoComposer *)

Section Sorting.
Context {A : Type} (key : A -> Z).

Lemma sorted_insert_perm (x : A) (l : list A) :
  Permutation (Py.sorted_insert key x l) (x :: l).
Proof.
  induction l as [|y l IH]; simpl; [reflexivity |].
  destruct (key x <=? key y)%Z; [reflexivity |].
  rewrite IH. apply perm_swap.
Qed.

Lemma sorted_perm (l : list A) : Permutation (Py.sorted key l) l.
Proof.
  induction l as [|x l IH]; simpl; [reflexivity |].
  rewrite sorted_insert_perm. constructor. exact IH.
Qed.

Lemma sorted_insert_sorted (x : A) (l : list A) :
  StronglySorted (key_le key) l -> StronglySorted (key_le key) (Py.sorted_insert key x l).
Proof.
  induction 1 as [|y l Hl IH Hy]; simpl.
  - constructor; constructor.
  - destruct (Z.leb_spec (key x) (key y)) as [Hle|Hgt].
    + constructor; [constructor; assumption |].
      constructor; [exact Hle |].
      eapply Forall_impl; [exact Hy |]. unfold key_le. intros; simpl in *; lia.
    + constructor; [exact IH |].
      eapply Permutation_Forall; [symmetry; apply sorted_insert_perm |].
      constructor; [unfold key_le; lia | exact Hy].
Qed.

Lemma sorted_is_sorted (l : list A) : StronglySorted (key_le key) (Py.sorted key l).
Proof.
  induction l as [|x l IH]; simpl; [constructor |].
  apply sorted_insert_sorted, IH.
Qed.

Lemma sorted_insert_stable (k : Z) (x : A) (l : list A) :
  with_key key k (Py.sorted_insert key x l) = with_key key k (x :: l).
Proof.
  induction l as [|y l IH]; [reflexivity |].
  simpl. destruct (Z.leb_spec (key x) (key y)) as [Hle|Hgt]; [reflexivity |].
  unfold with_key in *. simpl in *. rewrite IH.
  destruct (Z.eqb_spec (key x) k), (Z.eqb_spec (key y) k); try reflexivity; lia.
Qed.

Lemma sorted_stable (k : Z) (l : list A) :
  with_key key k (Py.sorted key l) = with_key key k l.
Proof.
  induction l as [|x l IH]; [reflexivity |].
  simpl. rewrite sorted_insert_stable. unfold with_key in *. simpl.
  rewrite IH. reflexivity.
Qed.

End Sorting.

(** Any list of layers is what a sequence of [add_layer] calls registers. *)
Lemma add_layer_calls (w h : Z) (calls : list (LogoComposer.Layer)) :
  LogoComposer.layers
    (fold_left (fun self l => LogoComposer.add_layer (LogoComposer.func l)
                                (LogoComposer.z_index l) self)
       calls (LogoComposer.init w h))
  = calls.
Proof.
  assert (G : forall self, LogoComposer.layers
    (fold_left (fun self l => LogoComposer.add_layer (LogoComposer.func l)
                                (LogoComposer.z_index l) self) calls self)
    = LogoComposer.layers self ++ calls).
  { induction calls as [|[f z] calls IH]; intros self; simpl.
    - rewrite app_nil_r. reflexivity.
    - rewrite IH. simpl. rewrite <- app_assoc. reflexivity. }
  rewrite G. reflexivity.
Qed.

(** C4: [compose] calls the registered callbacks one after the other on a
    fresh surface, every callback exactly once, in ascending z-index order,
    and callbacks of equal z-index in the order they were added; layers
    added with z-indices 3, 1, 2 run in the order 1, 2, 3. *)
Theorem compose_runs_layers_by_z_index
    (self : LogoComposer.Composer) (bg_color : Color)
    (f1 f2 f3 : Surface -> Surface) :
  let order := LogoComposer.call_order self in
  LogoComposer.compose self bg_color
  = fold_left (fun surface layer => LogoComposer.func layer surface) order
      (new_surface (LogoComposer.width self) (LogoComposer.height self) bg_color)
  /\ Permutation order (LogoComposer.layers self)
  /\ StronglySorted (key_le LogoComposer.z_index) order
  /\ (forall k, with_key LogoComposer.z_index k order
                = with_key LogoComposer.z_index k (LogoComposer.layers self))
  /\ LogoComposer.compose
       (LogoComposer.add_layer f2 2
          (LogoComposer.add_layer f1 1
             (LogoComposer.add_layer f3 3
                (LogoComposer.init (LogoComposer.width self)
                   (LogoComposer.height self))))) bg_color
     = f3 (f2 (f1 (new_surface (LogoComposer.width self)
                     (LogoComposer.height self) bg_color))).
Proof.
  intros order. split; [reflexivity |].
  split; [apply sorted_perm |].
  split; [apply sorted_is_sorted |].
  split; [intros k; apply sorted_stable |].
  reflexivity.
Qed.

(** ** Persistence *)

Lemma load_dump (v : pyval) :
  tuple_free v = true -> Json.load (Json.dump v) = v.
Proof.
  revert v. fix IH 1.
  intros [ | b | z | q | s | items | items]; simpl;
    try reflexivity; try discriminate.
  intros Hfree. f_equal.
  induction items as [|x xs IHxs]; simpl in *; [reflexivity |].
  apply andb_prop in Hfree as [Hx Hxs].
  rewrite (IH x Hx), (IHxs Hxs). reflexivity.
Qed.

Lemma load_dump_all (items : list pyval) :
  forallb tuple_free items = true ->
  map Json.load (map Json.dump items) = items.
Proof.
  induction items as [|x xs IH]; simpl; [reflexivity |].
  intros Hfree. apply andb_prop in Hfree as [Hx Hxs].
  rewrite (load_dump x Hx), (IH Hxs). reflexivity.
Qed.

Lemma serializable_tuple_free (v : pyval) :
  tuple_free v = true -> Persistence.serializable v = v.
Proof.
  destruct v as [ | b | z | q | s | items | items]; simpl;
    try reflexivity; try discriminate.
  intros Hfree. f_equal.
  induction items as [|x xs IH]; simpl in *; [reflexivity |].
  apply andb_prop in Hfree as [Hx Hxs]. rewrite (IH Hxs).
  destruct x; try reflexivity; discriminate.
Qed.

Lemma colors_written (items : list pyval) :
  forallb is_color items = true ->
  map Json.load (map Json.dump (as_lists items)) = as_lists items
  /\ map Persistence.tuple_if_list (as_lists items) = items.
Proof.
  induction items as [|x xs IH]; simpl; [split; reflexivity |].
  intros Hcol. apply andb_prop in Hcol as [Hx Hxs].
  destruct (IH Hxs) as [IH1 IH2]. rewrite IH1, IH2.
  destruct x as [ | | | | | l | l]; try discriminate. simpl in *.
  rewrite (load_dump_all l Hx). split; reflexivity.
Qed.

Lemma saved_then_loaded (config : gmap string pyval) (key : string) :
  (Json.load <$> Persistence.save_config config) !! key
  = (fun v => Json.load (Json.dump (Persistence.serializable v)))
      <$> config !! key.
Proof.
  unfold Persistence.save_config. rewrite !lookup_fmap.
  destruct (config !! key); reflexivity.
Qed.

Lemma round_trip (config : gmap string pyval) :
  well_formed config ->
  Persistence.load_config (Persistence.save_config config) = Ok config.
Proof.
  intros Hwf. unfold Persistence.load_config.
  set (loaded := Json.load <$> Persistence.save_config config).
  assert (Hother : forall key, key <> "bg_color" -> key <> "colors" ->
                               loaded !! key = config !! key).
  { intros key H1 H2. unfold loaded. rewrite saved_then_loaded.
    destruct (config !! key) as [v|] eqn:E; [| reflexivity]. simpl.
    specialize (Hwf key v E). unfold storable in Hwf.
    apply String.eqb_neq in H1, H2. rewrite H1, H2 in Hwf.
    rewrite (serializable_tuple_free v Hwf), (load_dump v Hwf). reflexivity. }
  assert (Hbg : (match loaded !! "bg_color" with
                 | Some (PList items) => <["bg_color" := PTuple items]> loaded
                 | _ => loaded
                 end) !! "bg_color" = config !! "bg_color").
  { unfold loaded at 1. rewrite saved_then_loaded.
    destruct (config !! "bg_color") as [v|] eqn:E; simpl.
    - specialize (Hwf _ v E). unfold storable in Hwf. simpl in Hwf.
      destruct v as [ | | | | | l | l]; try discriminate. simpl in *.
      rewrite (load_dump_all l Hwf). apply lookup_insert_eq.
    - unfold loaded. rewrite saved_then_loaded, E. reflexivity. }
  set (step1 := match loaded !! "bg_color" with
                | Some (PList items) => <["bg_color" := PTuple items]> loaded
                | _ => loaded
                end) in *.
  assert (Hstep1 : forall key, key <> "bg_color" -> step1 !! key = loaded !! key).
  { intros key Hne. unfold step1.
    destruct (loaded !! "bg_color") as [[ | | | | | l | l]|]; try reflexivity.
    apply lookup_insert_ne. congruence. }
  assert (Hcolors : step1 !! "colors"
                    = (fun v => Json.load (Json.dump (Persistence.serializable v)))
                        <$> config !! "colors").
  { rewrite Hstep1 by discriminate. unfold loaded. apply saved_then_loaded. }
  rewrite Hcolors.
  destruct (config !! "colors") as [v|] eqn:E; simpl.
  - specialize (Hwf _ v E) as Hv. unfold storable in Hv. simpl in Hv.
    destruct v as [ | | | | | l | cs]; try discriminate.
    destruct (colors_written cs Hv) as [H1 H2].
    simpl. fold (as_lists cs). rewrite H1. simpl. rewrite H2. f_equal.
    apply map_eq. intros key.
    destruct (decide (key = "colors")) as [->|Hc].
    + rewrite lookup_insert_eq. symmetry. exact E.
    + rewrite lookup_insert_ne by congruence.
      destruct (decide (key = "bg_color")) as [->|Hb]; [exact Hbg |].
      rewrite Hstep1 by assumption. apply Hother; assumption.
  - f_equal. apply map_eq. intros key.
    destruct (decide (key = "bg_color")) as [->|Hb]; [exact Hbg |].
    rewrite Hstep1 by assumption.
    destruct (decide (key = "colors")) as [->|Hc].
    + unfold loaded. rewrite saved_then_loaded, E. reflexivity.
    + apply Hother; assumption.
Qed.

Lemma py_color_is_color (c : Color) : is_color (Persistence.py_color c) = true.
Proof. unfold Persistence.py_color. simpl. induction c; simpl; auto. Qed.

Lemma entry_storable {A} (key : string) (f : A -> pyval) (o : option A) :
  (forall a, storable key (f a) = true) ->
  Forall (fun kv => storable (fst kv) (snd kv) = true) (Persistence.entry key f o).
Proof. intros Hf. destruct o; simpl; repeat constructor. apply Hf. Qed.

Lemma to_dict_well_formed (c : Config) : well_formed (Persistence.to_dict c).
Proof.
  intros key v Hlook. unfold Persistence.to_dict in Hlook.
  apply elem_of_list_to_map_2 in Hlook.
  revert Hlook.
  match goal with |- (_ ∈ ?l) -> _ =>
    assert (Hall : Forall (fun kv => storable (fst kv) (snd kv) = true) l)
  end.
  { repeat (apply Forall_app; split); apply entry_storable; intros a;
      try reflexivity.
    - apply py_color_is_color.
    - unfold storable. cbn [String.eqb Ascii.eqb Bool.eqb].
      induction a as [|x xs IH]; [reflexivity |].
      cbn [map forallb]. rewrite py_color_is_color. exact IH.
    - unfold storable. simpl. induction a as [|x xs IH]; simpl; auto. }
  intros Hin. rewrite Forall_forall in Hall. apply (Hall (key, v) Hin).
Qed.

(** C3: a configuration whose "bg_color" is a colour tuple, whose "colors"
    is a list of colour tuples (three or any other number) and whose other
    values hold no tuple is read back by [load_config] exactly as
    [save_config] received it: same keys, same colours, same background
    colour, same scalar values.  Every typed configuration is of that
    kind. *)
Theorem save_then_load_config (config : gmap string pyval) :
  well_formed config ->
  Persistence.load_config (Persistence.save_config config) = Ok config
  /\ (forall c : Config,
        Persistence.load_config (Persistence.save_config (Persistence.to_dict c))
        = Ok (Persistence.to_dict c)).
Proof.
  intros Hwf. split; [apply round_trip; exact Hwf |].
  intros c. apply round_trip, to_dict_well_formed.
Qed.

Lemma save_then_load_config_witness :
  well_formed (Persistence.to_dict sample_config)
  /\ Persistence.load_config
       (Persistence.save_config (Persistence.to_dict sample_config))
     = Ok (Persistence.to_dict sample_config).
Proof.
  split; [apply to_dict_well_formed |].
  apply (save_then_load_config (Persistence.to_dict sample_config)).
  apply to_dict_well_formed.
Defined.

(** A background colour written as a list comes back as a tuple: the
    round trip needs the colour representation the program itself uses. *)
Example list_bg_color_comes_back_as_tuple :
  Persistence.load_config
    (Persistence.save_config {[ "bg_color" := PList [PFloat 1; PFloat 1; PFloat 1] ]})
  = Ok {[ "bg_color" := PTuple [PFloat 1; PFloat 1; PFloat 1] ]}.
Proof.
  unfold Persistence.load_config, Persistence.save_config.
  rewrite !map_fmap_singleton. simpl.
  rewrite lookup_singleton_eq. rewrite lookup_insert_ne by discriminate.
  rewrite lookup_singleton_ne by discriminate.
  rewrite insert_singleton_eq. reflexivity.
Qed.

(** ** PatternGenerator.draw_lines *)

Lemma range_up_stepped (fuel : nat) (start stop step : Z) :
  stepped step (Py.range_up fuel start stop step).
Proof.
  revert start. induction fuel as [|n IH]; intros start i a b; simpl.
  - intros Ha. rewrite lookup_nil in Ha. discriminate.
  - destruct (start <? stop)%Z; [| intros Ha; rewrite lookup_nil in Ha; discriminate].
    destruct i as [|i]; simpl.
    + intros Ha Hb. injection Ha as <-.
      destruct n; simpl in Hb; [discriminate |].
      destruct (start + step <? stop)%Z; simpl in Hb; [congruence | discriminate].
    + apply IH.
Qed.

Lemma range_down_stepped (fuel : nat) (start stop step : Z) :
  stepped step (Py.range_down fuel start stop step).
Proof.
  revert start. induction fuel as [|n IH]; intros start i a b; simpl.
  - intros Ha. rewrite lookup_nil in Ha. discriminate.
  - destruct (stop <? start)%Z; [| intros Ha; rewrite lookup_nil in Ha; discriminate].
    destruct i as [|i]; simpl.
    + intros Ha Hb. injection Ha as <-.
      destruct n; simpl in Hb; [discriminate |].
      destruct (stop <? start + step)%Z; simpl in Hb; [congruence | discriminate].
    + apply IH.
Qed.

(** With a positive step the fuel [stop - start] is enough: the list holds
    every [start + k * step] below [stop]. *)
Lemma range_up_complete (fuel : nat) (start stop step k : Z) :
  (0 < step)%Z -> (Z.to_nat (stop - start) <= fuel)%nat ->
  (0 <= k)%Z -> (start + k * step < stop)%Z ->
  In (start + k * step)%Z (Py.range_up fuel start stop step).
Proof.
  intros Hstep. revert start k.
  induction fuel as [|n IH]; intros start k Hfuel Hk Hlt; simpl.
  - nia.
  - destruct (Z.ltb_spec start stop) as [Hs|Hs]; [| nia].
    destruct (Z.eq_dec k 0%Z) as [->|Hk0].
    + left. lia.
    + right. replace (start + k * step)%Z with ((start + step) + (k - 1) * step)%Z by lia.
      apply IH; lia.
Qed.

Lemma range_up_bounds (fuel : nat) (start stop step : Z) :
  (0 < step)%Z ->
  Forall (fun x => (start <= x < stop)%Z) (Py.range_up fuel start stop step).
Proof.
  intros Hstep. revert start.
  induction fuel as [|n IH]; intros start; simpl; [constructor |].
  destruct (Z.ltb_spec start stop) as [Hs|Hs]; [| constructor].
  constructor; [lia |].
  eapply Forall_impl; [apply IH |]. simpl. intros; lia.
Qed.

Lemma range_stepped (start stop step : Z) (l : list Z) :
  Py.range start stop step = Some l -> stepped step l.
Proof.
  unfold Py.range. destruct (step =? 0)%Z; [discriminate |].
  destruct (0 <? step)%Z; intros [= <-];
    [apply range_up_stepped | apply range_down_stepped].
Qed.

Lemma range_defined (start stop step : Z) :
  step <> 0%Z -> exists l, Py.range start stop step = Some l.
Proof.
  intros Hne. unfold Py.range. apply Z.eqb_neq in Hne. rewrite Hne.
  destruct (0 <? step)%Z; eauto.
Qed.

Lemma line_at_length `{MathLib} (length : Z) (rad : Q) (color : Color)
    (stroke_width : Q) (offset : Z) :
  m_cos rad * m_cos rad + m_sin rad * m_sin rad == 1 ->
  exists len,
    stroke_length_sq
      (PatternGenerator.line_at length rad color stroke_width offset) = Some len
    /\ len == fl length * fl length.
Proof.
  intros Hunit. eexists. split; [reflexivity |].
  transitivity (fl length * fl length
                * (m_cos rad * m_cos rad + m_sin rad * m_sin rad)); [ring |].
  rewrite Hunit. ring.
Qed.

(** C9, as the specification states it, fails: on a 500 x 500 canvas, at
    angle 0, every one of the 100 strokes has length 1000 (squared length
    1000000), while twice the diagonal is [2 * sqrt(500000)] (squared
    length 2000000). *)
Lemma lines_do_not_span_twice_the_diagonal :
  exists strokes,
    @PatternGenerator.draw_lines rational_math 500 500 [1; 1; 1] 20 1 0
    = Ok strokes
    /\ length strokes = 100%nat
    /\ forallb (has_length_sq 1000000) strokes = true
    /\ Qeq_bool (twice_diagonal_sq 500 500) 2000000 = true
    /\ Qeq_bool (twice_diagonal_sq 500 500) 1000000 = false.
Proof.
  eexists. split; [vm_compute; reflexivity |].
  repeat split; vm_compute; reflexivity.
Qed.

(** C9, amended: for a non-zero spacing, [draw_lines] draws one stroke per
    offset of [range(-length, length, spacing)] with
    [length = 2 * max(width, height)]; consecutive offsets are [spacing]
    apart; the stroke of an offset starts at [(offset, 0)] and runs
    [length] times the unit vector of the angle, so that all strokes are
    parallel and each has length [2 * max(width, height)]. *)
Theorem lines_span_twice_the_longer_side `{MathLib}
    (width height spacing : Z) (color : Color) (stroke_width angle : Q) :
  spacing <> 0%Z ->
  m_cos (radians angle) * m_cos (radians angle)
  + m_sin (radians angle) * m_sin (radians angle) == 1 ->
  exists offsets,
    PatternGenerator.lines_length width height = (2 * Z.max width height)%Z
    /\ Py.range (- (2 * Z.max width height)) (2 * Z.max width height) spacing
       = Some offsets
    /\ stepped spacing offsets
    /\ PatternGenerator.draw_lines width height color spacing stroke_width angle
       = Ok (map (PatternGenerator.line_at (2 * Z.max width height)
                    (radians angle) color stroke_width) offsets)
    /\ Forall (fun offset =>
         let e := PatternGenerator.line_at (2 * Z.max width height)
                    (radians angle) color stroke_width offset in
         shape e
         = Polyline [ (fl offset, 0);
                      (fl offset + fl (2 * Z.max width height) * m_cos (radians angle),
                       fl (2 * Z.max width height) * m_sin (radians angle)) ]
             (0, 0) false
         /\ exists len, stroke_length_sq e = Some len
                        /\ len == fl (2 * Z.max width height)
                                  * fl (2 * Z.max width height)) offsets.
Proof.
  intros Hstep Hunit.
  assert (Hlen : PatternGenerator.lines_length width height
                 = (2 * Z.max width height)%Z)
    by (unfold PatternGenerator.lines_length; lia).
  destruct (range_defined (- (2 * Z.max width height)) (2 * Z.max width height)
              spacing Hstep) as [offsets Hoff].
  exists offsets. split; [exact Hlen |]. split; [exact Hoff |].
  split; [eapply range_stepped; exact Hoff |].
  split.
  - unfold PatternGenerator.draw_lines, PyR.range. rewrite Hlen, Hoff. reflexivity.
  - apply Forall_forall. intros offset _. split; [reflexivity |].
    apply line_at_length. exact Hunit.
Qed.

Lemma lines_span_twice_the_longer_side_witness :
  exists offsets,
    @PatternGenerator.draw_lines rational_math 500 300 [1; 1; 1] 20 1 45
    = Ok (map (@PatternGenerator.line_at rational_math (2 * Z.max 500 300)
                 (@radians rational_math 45) [1; 1; 1] 1) offsets)
    /\ length offsets = 100%nat.
Proof.
  destruct (@lines_span_twice_the_longer_side rational_math 500 300 20
              [1; 1; 1] 1 45) as (offsets & _ & Hoff & _ & Hdraw & _).
  - discriminate.
  - vm_compute. reflexivity.
  - exists offsets. split; [exact Hdraw |].
    vm_compute in Hoff. injection Hoff as <-. reflexivity.
Defined.

(** ** LogoTemplate.monogram *)

Lemma length_list_ascii (s : string) :
  length (list_ascii_of_string s) = String.length s.
Proof. induction s; simpl; congruence. Qed.

Lemma length_of_list_ascii (l : list ascii) :
  String.length (string_of_list_ascii l) = length l.
Proof. induction l; simpl; congruence. Qed.

Lemma first_two_length (text : string) :
  String.length (LogoTemplate.first_two text)
  = Nat.min 2 (String.length text).
Proof.
  unfold LogoTemplate.first_two, Py.slice_to.
  rewrite length_of_list_ascii, length_take, length_list_ascii. reflexivity.
Qed.

Lemma first_two_prefix (text : string) :
  exists rest, text = (LogoTemplate.first_two text ++ rest)%string.
Proof.
  destruct text as [|a [|b rest]].
  - exists ""%string. reflexivity.
  - exists ""%string. reflexivity.
  - exists rest. reflexivity.
Qed.

Lemma first_two_idempotent (text : string) :
  LogoTemplate.first_two (LogoTemplate.first_two text)
  = LogoTemplate.first_two text.
Proof. destruct text as [|a [|b rest]]; reflexivity. Qed.

(** C10: whatever the text, [monogram] draws a single text run and that run
    is [text[:2]], the first two characters at most; the rest of the text
    has no influence on what is drawn.  ([monogram] raises only for an
    empty colour list.) *)
Theorem monogram_draws_first_two_characters `{MathLib}
    (width height : Z) (colors : list Color) (text fontfamily : string) :
  match LogoTemplate.monogram width height colors text fontfamily with
  | Ok es => texts_of es = [LogoTemplate.first_two text]
             /\ length es = 3%nat
  | Raise e => colors = [] /\ e = IndexError
  end
  /\ (String.length (LogoTemplate.first_two text) <= 2)%nat
  /\ (exists rest, text = (LogoTemplate.first_two text ++ rest)%string)
  /\ String.length (LogoTemplate.first_two text)
     = Nat.min 2 (String.length text)
  /\ LogoTemplate.monogram width height colors text fontfamily
     = LogoTemplate.monogram width height colors
         (LogoTemplate.first_two text) fontfamily.
Proof.
  split.
  { destruct colors as [|c0 colors]; simpl; auto. }
  split; [rewrite first_two_length; lia |].
  split; [apply first_two_prefix |].
  split; [apply first_two_length |].
  unfold LogoTemplate.monogram. rewrite first_two_idempotent. reflexivity.
Qed.

(** ** LogoGenerator.generate *)

Lemma draw_all_drawn (es : list Element) (s : Surface) :
  s_drawn (draw_all es s) = s_drawn s ++ es.
Proof.
  revert s. induction es as [|e es IH]; intros s; simpl.
  - rewrite app_nil_r. reflexivity.
  - unfold draw_all in IH. rewrite IH. simpl. rewrite <- app_assoc. reflexivity.
Qed.

Lemma draw_all_frame (es : list Element) (s : Surface) :
  s_width (draw_all es s) = s_width s
  /\ s_height (draw_all es s) = s_height s
  /\ s_bg_color (draw_all es s) = s_bg_color s.
Proof.
  revert s. induction es as [|e es IH]; intros s; [simpl; auto |].
  change (draw_all (e :: es) s) with (draw_all es (draw e s)).
  destruct (IH (draw e s)) as (H1 & H2 & H3).
  rewrite H1, H2, H3. auto.
Qed.

Lemma surface_eq (s t : Surface) :
  s_width s = s_width t -> s_height s = s_height t ->
  s_bg_color s = s_bg_color t -> s_drawn s = s_drawn t -> s = t.
Proof. destruct s, t; simpl; intros; subst; reflexivity. Qed.

Lemma draw_all_blank (es : list Element) (s : Surface) :
  draw_all (s_drawn (draw_all es blank)) s = draw_all es s.
Proof. rewrite draw_all_drawn. reflexivity. Qed.

Lemma draw_all_app (es fs : list Element) (s : Surface) :
  draw_all (es ++ fs) s = draw_all fs (draw_all es s).
Proof. unfold draw_all. apply fold_left_app. Qed.

Ltac run_step :=
  cbv [ LogoGenerator._apply_background LogoGenerator._apply_pattern
        LogoGenerator._apply_pre_effects LogoGenerator._apply_template
        LogoGenerator._apply_extra_shapes LogoGenerator._apply_text
        LogoGenerator._apply_post_effects LogoGenerator.paint
        mbind M_bind mret M_ret Store.deref Store.width Store.height
        Store.pure Store.random ].

Ltac split_cases :=
  repeat first
    [ progress cbn [fst snd heap fresh self_width self_height self_config rng
                    Store.set_rng]
    | match goal with
      | |- context [if ?c then _ else _] => destruct c
      | |- context [match ?r with Ok _ => _ | Raise _ => _ end] =>
          lazymatch r with
          | context [fst] => fail
          | _ => destruct r
          end
      | |- context [let (_, _) := ?p in _] =>
          lazymatch p with
          | context [let (_, _) := _ in _] => fail
          | _ => destruct p
          end
      end ].

Ltac step_appends :=
  intros config w surface;
  unfold drawn_by, rng_after, on_top;
  run_step; split_cases; destruct w;
  cbv [fst snd rng Store.set_rng heap fresh self_width self_height self_config];
  rewrite ?draw_all_drawn; change (s_drawn blank) with (@nil Element);
  cbn [app]; rewrite ?draw_all_app; reflexivity.

Section Pipeline.
Context `{MathLib}.

Lemma background_appends : appends LogoGenerator._apply_background.
Proof. step_appends. Qed.

Lemma pattern_appends : appends LogoGenerator._apply_pattern.
Proof. step_appends. Qed.

Lemma pre_effects_appends : appends LogoGenerator._apply_pre_effects.
Proof. step_appends. Qed.

Lemma template_appends : appends LogoGenerator._apply_template.
Proof. step_appends. Qed.

Lemma extra_shapes_appends : appends LogoGenerator._apply_extra_shapes.
Proof. step_appends. Qed.

Lemma text_appends : appends LogoGenerator._apply_text.
Proof. step_appends. Qed.

Lemma post_effects_appends : appends LogoGenerator._apply_post_effects.
Proof. step_appends. Qed.

Ltac step_deterministic :=
  intros config w; unfold rng_after; run_step; split_cases; reflexivity.

Lemma background_deterministic : deterministic LogoGenerator._apply_background.
Proof. step_deterministic. Qed.

Lemma pattern_deterministic : deterministic LogoGenerator._apply_pattern.
Proof. step_deterministic. Qed.

Lemma pre_effects_deterministic : deterministic LogoGenerator._apply_pre_effects.
Proof. step_deterministic. Qed.

Lemma template_deterministic : deterministic LogoGenerator._apply_template.
Proof. step_deterministic. Qed.

Lemma text_deterministic : deterministic LogoGenerator._apply_text.
Proof. step_deterministic. Qed.

Lemma set_rng_same (w : World) : Store.set_rng (rng w) w = w.
Proof. destruct w; reflexivity. Qed.

Lemma deterministic_step (step : Surface -> loc -> M Surface) :
  appends step -> deterministic step ->
  forall config w surface,
    step surface config w = (on_top (drawn_by step config w) surface, w).
Proof.
  intros Happ Hdet config w surface.
  rewrite Happ, Hdet, set_rng_same. reflexivity.
Qed.

Lemma generate_is_seven_steps (config : loc) (w : World) :
  exists st,
    LogoGenerator.generate (Some config) w
    = (on_top (seven_steps config w) (start_surface (heap w config) w),
       Store.set_rng st (entered config w)).
Proof.
  unfold seven_steps, decorated, start_surface.
  unfold LogoGenerator.generate.
  cbv [mbind M_bind mret M_ret Store.set_config Store.deref Store.width
       Store.height result_bind].
  cbn [heap self_width self_height rng self_config fresh].
  change {| heap := heap w; fresh := fresh w; self_width := self_width w;
            self_height := self_height w; self_config := config;
            rng := rng w |} with (entered config w).
  set (w0 := entered config w).
  set (start := new_surface _ _ _).
  rewrite (deterministic_step _ background_appends background_deterministic).
  destruct (drawn_by LogoGenerator._apply_background config w0) as [es1|e];
    cbn [on_top]; [| exists (rng w); reflexivity].
  rewrite (deterministic_step _ pattern_appends pattern_deterministic).
  destruct (drawn_by LogoGenerator._apply_pattern config w0) as [es2|e];
    cbn [on_top]; [| exists (rng w); reflexivity].
  rewrite (deterministic_step _ pre_effects_appends pre_effects_deterministic).
  destruct (drawn_by LogoGenerator._apply_pre_effects config w0) as [es3|e];
    cbn [on_top]; [| exists (rng w); reflexivity].
  rewrite (deterministic_step _ template_appends template_deterministic).
  destruct (drawn_by LogoGenerator._apply_template config w0) as [es4|e];
    cbn [on_top]; [| exists (rng w); reflexivity].
  rewrite extra_shapes_appends.
  set (w5 := Store.set_rng _ w0).
  destruct (drawn_by LogoGenerator._apply_extra_shapes config w0) as [es5|e];
    cbn [on_top]; [| exists (rng w5); reflexivity].
  rewrite (deterministic_step _ text_appends text_deterministic).
  destruct (drawn_by LogoGenerator._apply_text config w5) as [es6|e];
    cbn [on_top]; [| exists (rng w5); reflexivity].
  rewrite post_effects_appends.
  exists (rng_after LogoGenerator._apply_post_effects config w5).
  destruct (drawn_by LogoGenerator._apply_post_effects config w5) as [es7|e];
    cbn [on_top]; [| reflexivity].
  rewrite !draw_all_app. reflexivity.
Qed.

End Pipeline.

(** ** Steps that cannot raise *)

Lemma for_each_ok {A B} (xs : list A) (body : A -> result (list B)) :
  (forall x, In x xs -> is_ok (body x) = true) ->
  is_ok (for_each xs body) = true.
Proof.
  induction xs as [|x xs IH]; intros Hbody; simpl; [reflexivity |].
  pose proof (Hbody x (or_introl eq_refl)) as Hx.
  destruct (body x) as [ys|e]; [| discriminate]. simpl.
  assert (Hrest : is_ok (for_each xs body) = true)
    by (apply IH; intros y Hy; apply Hbody; right; exact Hy).
  destruct (for_each xs body) as [zs|e]; [reflexivity | discriminate].
Qed.

Lemma div_ok (a b : Q) : ~ b == 0 -> PyR.div a b = Ok (a / b).
Proof.
  intros Hb. unfold PyR.div.
  destruct (Qeq_bool b 0) eqn:E; [| reflexivity].
  apply Qeq_bool_iff in E. contradiction.
Qed.

Lemma range_ok (start stop step : Z) :
  step <> 0%Z -> exists l, PyR.range start stop step = Ok l.
Proof.
  intros Hne. destruct (range_defined start stop step Hne) as [l Hl].
  exists l. unfold PyR.range. rewrite Hl. reflexivity.
Qed.

Lemma bind_ok {A B} (r : result A) (k : A -> result B) :
  is_ok r = true -> (forall a, is_ok (k a) = true) -> is_ok (r ≫= k) = true.
Proof. destruct r; simpl; [auto | discriminate]. Qed.

Lemma is_ok_Ok {A} (r : result A) : is_ok r = true -> exists a, r = Ok a.
Proof. destruct r; [eauto | discriminate]. Qed.

Section Drawing.
Context `{MathLib}.

Lemma gradient_background_ok (width height : Z) (c1 c2 : Color)
    (direction : string) :
  is_ok (EffectsEngine.draw_gradient_background width height c1 c2
           direction 50) = true.
Proof.
  apply for_each_ok. intros i _. unfold EffectsEngine.gradient_band.
  rewrite !div_ok by discriminate. cbn [mbind result_bind].
  destruct (String.eqb direction "vertical"),
           (String.eqb direction "horizontal"),
           (String.eqb direction "diagonal"); reflexivity.
Qed.

Lemma radial_gradient_ok (center : Point) (max_radius : Q) (c1 c2 : Color) :
  is_ok (EffectsEngine.draw_radial_gradient center max_radius c1 c2 40) = true.
Proof.
  unfold EffectsEngine.draw_radial_gradient.
  destruct (range_ok 40 0 (-1)) as [l ->]; [discriminate |].
  cbn [mbind result_bind]. apply for_each_ok. intros i _.
  rewrite div_ok by discriminate. reflexivity.
Qed.

Lemma glow_ok (center : Point) (radius : Q) (color : Color) (intensity : Q) :
  is_ok (EffectsEngine.draw_glow center radius color intensity 15) = true.
Proof.
  unfold EffectsEngine.draw_glow.
  destruct (range_ok 15 0 (-1)) as [l ->]; [discriminate |].
  cbn [mbind result_bind]. apply for_each_ok. intros i _.
  rewrite div_ok by discriminate. reflexivity.
Qed.

Lemma lens_flare_ok (center : Point) (size : Q) (color : Color) :
  is_ok (EffectsEngine.draw_lens_flare center size color) = true.
Proof. reflexivity. Qed.

Lemma dots_ok (width height : Z) (color : Color) (spacing : Z) (radius : Q) :
  spacing <> 0%Z ->
  is_ok (PatternGenerator.draw_dots width height color spacing radius) = true.
Proof.
  intros Hs. unfold PatternGenerator.draw_dots.
  destruct (range_ok 0 (width + spacing) spacing Hs) as [xs ->].
  destruct (range_ok 0 (height + spacing) spacing Hs) as [ys ->].
  cbn [mbind result_bind]. apply for_each_ok. intros x _. reflexivity.
Qed.

Lemma lines_ok (width height : Z) (color : Color) (spacing : Z)
    (stroke_width angle : Q) :
  spacing <> 0%Z ->
  is_ok (PatternGenerator.draw_lines width height color spacing stroke_width
           angle) = true.
Proof.
  intros Hs. unfold PatternGenerator.draw_lines.
  destruct (range_ok (- PatternGenerator.lines_length width height)
              (PatternGenerator.lines_length width height) spacing Hs)
    as [l ->].
  reflexivity.
Qed.

Lemma grid_ok (width height : Z) (color : Color) (spacing : Z)
    (stroke_width : Q) :
  spacing <> 0%Z ->
  is_ok (PatternGenerator.draw_grid width height color spacing stroke_width)
  = true.
Proof.
  intros Hs. unfold PatternGenerator.draw_grid.
  destruct (range_ok 0 (width + spacing) spacing Hs) as [xs ->].
  destruct (range_ok 0 (height + spacing) spacing Hs) as [ys ->].
  reflexivity.
Qed.

Lemma concentric_ok (cx cy max_radius : Q) (color : Color) (stroke_width : Q) :
  is_ok (PatternGenerator.draw_concentric_circles cx cy max_radius color 10
           stroke_width) = true.
Proof.
  unfold PatternGenerator.draw_concentric_circles.
  destruct (range_ok 1 (10 + 1) 1) as [l ->]; [discriminate |].
  cbn [mbind result_bind]. apply for_each_ok. intros i _.
  rewrite div_ok by discriminate. reflexivity.
Qed.

Lemma hexagon_ok (width height : Z) (color : Color) (stroke_width : Q) :
  ~ m_sqrt 3 == 0 ->
  is_ok (PatternGenerator.draw_hexagon_pattern width height color 25
           stroke_width) = true.
Proof.
  intros Hsqrt. unfold PatternGenerator.draw_hexagon_pattern.
  rewrite (div_ok (fl height) (25 * m_sqrt 3)).
  2:{ intros E. apply Hsqrt. apply (Qmult_integral 25) in E.
      destruct E as [E|E]; [discriminate | exact E]. }
  cbn [mbind result_bind].
  match goal with |- context [PyR.range ?a ?b 1] =>
    destruct (range_ok a b 1) as [rows ->]; [discriminate |]
  end.
  cbn [mbind result_bind]. apply for_each_ok. intros row _.
  rewrite div_ok by discriminate. cbn [mbind result_bind].
  match goal with |- context [PyR.range ?a ?b 1] =>
    destruct (range_ok a b 1) as [cols ->]; [discriminate |]
  end.
  cbn [mbind result_bind]. apply for_each_ok. intros col _. reflexivity.
Qed.

Lemma wave_ok (width height : Z) (color : Color)
    (amplitude frequency stroke_width : Q) :
  is_ok (PatternGenerator.draw_wave_pattern width height color amplitude
           frequency stroke_width) = true.
Proof.
  unfold PatternGenerator.draw_wave_pattern.
  destruct (range_ok 0 (height + 40) 20) as [l ->]; [discriminate |].
  cbn [mbind result_bind]. apply for_each_ok. intros y _.
  destruct (range_ok 0 (width + 5) 5) as [xs ->]; [discriminate |].
  cbn [mbind result_bind].
  match goal with |- context [if ?c then _ else _] => destruct c end;
    reflexivity.
Qed.

End Drawing.

Section TemplatesOk.
Context `{MathLib}.

Lemma item_ok {A} (l : list A) (i : nat) :
  (i < length l)%nat -> is_ok (PyR.item l i) = true.
Proof.
  intros Hi. unfold PyR.item.
  destruct (lookup_lt_is_Some_2 l i Hi) as [x ->]. reflexivity.
Qed.

Lemma geometric_abstract_ok (width height : Z) (c0 : Color)
    (colors : list Color) (text fontfamily : string) :
  is_ok (LogoTemplate.geometric_abstract width height (c0 :: colors) text
           fontfamily) = true.
Proof.
  unfold LogoTemplate.geometric_abstract.
  match goal with |- context [for_each ?xs ?body] =>
    assert (Hcircles : is_ok (for_each xs body) = true)
  end.
  { apply for_each_ok. intros i _. cbn [length Nat.eqb].
    apply bind_ok; [| reflexivity].
    apply item_ok.
    assert (Hpos : (0 < Z.of_nat (length (c0 :: colors)))%Z)
      by (cbn [length]; lia).
    pose proof (Z.mod_pos_bound i _ Hpos) as Hb.
    set (m := (i mod _)%Z) in *. cbn [length] in *. unfold Color in *. lia. }
  apply is_ok_Ok in Hcircles. destruct Hcircles as [circles ->].
  cbn [mbind result_bind].
  destruct (String.eqb text ""); reflexivity.
Qed.

Lemma template_func_cases (name : string) :
  template_func name = LogoTemplate.minimal_circle
  \/ template_func name = LogoTemplate.shield_badge
  \/ template_func name = LogoTemplate.geometric_abstract
  \/ template_func name = LogoTemplate.monogram
  \/ template_func name = LogoTemplate.tech_hexagon
  \/ template_func name = LogoTemplate.circular_badge.
Proof.
  unfold template_func.
  destruct (LogoTemplate.templates !! name) as [f|] eqn:E; [| left; reflexivity].
  apply elem_of_list_to_map_2 in E. simpl.
  repeat (apply elem_of_cons in E; destruct E as [E|E];
          [injection E as _ ->; tauto |]).
  apply elem_of_nil in E. contradiction.
Qed.

Lemma template_ok (name : string) (width height : Z) (c0 : Color)
    (colors : list Color) (text fontfamily : string) :
  is_ok (template_func name width height (c0 :: colors) text fontfamily)
  = true.
Proof.
  destruct (template_func_cases name) as [E|[E|[E|[E|[E|E]]]]]; rewrite E.
  - reflexivity.
  - reflexivity.
  - apply geometric_abstract_ok.
  - reflexivity.
  - reflexivity.
  - reflexivity.
Qed.

End TemplatesOk.

(** ** Drawing at random *)

Lemma uniform_run (a b : Q) (st : Random.State) :
  Random.uniform a b st
  = (Ok (a + (b - a) * Random.unit_float (st O)), Random.advance st).
Proof. reflexivity. Qed.

Lemma choice_run {A} (x : A) (xs : list A) (st : Random.State) :
  exists y, Random.choice (x :: xs) st = (Ok y, Random.advance st)
            /\ In y (x :: xs).
Proof.
  unfold Random.choice, Random.randbelow, Random.bind, Random.next,
    Random.ret, Random.lift.
  set (n := Z.of_nat (length (x :: xs))).
  assert (Hn : (0 < n)%Z) by (unfold n; cbn [length]; lia).
  pose proof (Z.mod_pos_bound (Z.of_N (st O)) n Hn) as Hb.
  set (i := (Z.of_N (st O) mod n)%Z) in *.
  assert (Hi : (Z.to_nat i < length (x :: xs))%nat) by (unfold n in Hb; lia).
  unfold PyR.item.
  destruct (lookup_lt_is_Some_2 (x :: xs) (Z.to_nat i) Hi) as [y Hy].
  rewrite Hy. exists y. split; [reflexivity |].
  apply list_elem_of_In. eapply list_elem_of_lookup_2. exact Hy.
Qed.

Lemma randint_run (a b : Z) (st : Random.State) :
  (a <= b)%Z ->
  exists k, Random.randint a b st = (Ok k, Random.advance st)
            /\ (a <= k <= b)%Z.
Proof.
  intros Hab. unfold Random.randint.
  destruct (Z.ltb_spec b a) as [Hlt|_]; [lia |].
  eexists. split; [reflexivity |].
  pose proof (Z.mod_pos_bound (Z.of_N (st O)) (b - a + 1)). lia.
Qed.

Lemma repeat_draw_ok {B} (body : Random.R (list B)) :
  (forall st, is_ok (fst (body st)) = true) ->
  forall n st, is_ok (fst (Random.repeat_draw n body st)) = true.
Proof.
  intros Hbody. induction n as [|n IH]; intros st; simpl; [reflexivity |].
  unfold Random.bind. specialize (Hbody st).
  destruct (body st) as [[ys|e] st1]; [| discriminate].
  specialize (IH st1).
  destruct (Random.repeat_draw n body st1) as [[zs|e] st2];
    [reflexivity | discriminate].
Qed.

Ltac run_random :=
  cbv [mbind R_bind mret R_ret]; unfold Random.bind at 1;
  first [ rewrite uniform_run
        | match goal with
          | |- context [Random.choice (?x :: ?xs) ?st] =>
              let y := fresh "y" in
              let Hy := fresh "Hy" in
              destruct (choice_run x xs st) as (y & Hy & _); rewrite Hy
          end ];
  cbv beta iota.

Section RandomDrawing.
Context `{MathLib}.

Lemma extra_shape_ok (width height : Z) (c0 : Color) (colors : list Color)
    (st : Random.State) :
  is_ok (fst (LogoGenerator.extra_shape width height (c0 :: colors) st))
  = true.
Proof.
  unfold LogoGenerator.extra_shape.
  do 6 run_random.
  destruct (String.eqb y0 "circle"); [reflexivity |].
  destruct (String.eqb y0 "square"); [reflexivity |].
  destruct (String.eqb y0 "diamond"); reflexivity.
Qed.

Lemma particle_ok (center : Point) (max_radius : Q) (c0 : Color)
    (colors : list Color) (st : Random.State) :
  is_ok (fst (EffectsEngine.particle center max_radius (c0 :: colors) st))
  = true.
Proof.
  unfold EffectsEngine.particle.
  do 5 run_random. reflexivity.
Qed.

End RandomDrawing.

(** ** Configurations on which [generate] completes *)

Lemma colors_nonempty (fallback : list Color) (cfg : Config) :
  fallback <> [] -> cfg_colors cfg <> Some [] ->
  exists c0 cs, default fallback (cfg_colors cfg) = c0 :: cs.
Proof.
  intros Hf Hc. destruct (cfg_colors cfg) as [[|c0 cs]|]; simpl.
  - contradiction.
  - eauto.
  - destruct fallback as [|c0 cs]; [contradiction | eauto].
Qed.

Ltac pick_colors Hc :=
  match goal with
  | |- context [default ?d (cfg_colors ?cfg)] =>
      let c0 := fresh "c0" in
      let cs := fresh "cs" in
      let E := fresh "E" in
      destruct (colors_nonempty d cfg ltac:(discriminate) Hc) as (c0 & cs & E);
      unfold Color in *; rewrite !E
  end.

Ltac result_is_ok :=
  match goal with
  | |- context [match ?r with Ok _ => _ | Raise _ => _ end] =>
      lazymatch r with
      | context [fst] => fail
      | _ =>
          let E := fresh "E" in
          let a := fresh "a" in
          assert (E : is_ok r = true);
          [ | apply is_ok_Ok in E; destruct E as [a E]; rewrite E; reflexivity ]
      end
  end.

Section StepsOk.
Context `{MathLib}.

Lemma background_ok (config : loc) (w : World) :
  usable (heap w config) ->
  is_ok (drawn_by LogoGenerator._apply_background config w) = true.
Proof.
  intros [Hc _]. unfold drawn_by. run_step. pick_colors Hc.
  destruct (LogoGenerator.has "gradient_bg" _ && _) eqn:E1;
    [| destruct (LogoGenerator.has "radial_gradient" _ && _) eqn:E2];
    [| | reflexivity].
  - apply andb_prop in E1 as [_ Hlen]. apply Nat.leb_le in Hlen.
    result_is_ok. cbn [PyR.first mbind result_bind].
    apply bind_ok; [apply item_ok; lia |].
    intros cl. apply gradient_background_ok.
  - apply andb_prop in E2 as [_ Hlen]. apply Nat.leb_le in Hlen.
    result_is_ok. cbn [PyR.first mbind result_bind].
    apply bind_ok; [apply item_ok; lia |].
    intros cl. apply radial_gradient_ok.
Qed.

Lemma pattern_ok (config : loc) (w : World) :
  usable (heap w config) ->
  is_ok (drawn_by LogoGenerator._apply_pattern config w) = true.
Proof.
  intros [Hc Hhex]. unfold drawn_by. run_step. pick_colors Hc.
  cbn [PyR.first].
  destruct (String.eqb _ "dots");
    [result_is_ok; apply dots_ok; discriminate |].
  destruct (String.eqb _ "lines");
    [result_is_ok; apply lines_ok; discriminate |].
  destruct (String.eqb _ "grid");
    [result_is_ok; apply grid_ok; discriminate |].
  destruct (String.eqb _ "concentric");
    [result_is_ok; apply concentric_ok |].
  destruct (String.eqb _ "hexagon") eqn:Ehex;
    [result_is_ok; apply hexagon_ok, Hhex, String.eqb_eq, Ehex |].
  destruct (String.eqb _ "wave"); [result_is_ok; apply wave_ok |].
  reflexivity.
Qed.

Lemma pre_effects_ok (config : loc) (w : World) :
  is_ok (drawn_by LogoGenerator._apply_pre_effects config w) = true.
Proof.
  unfold drawn_by. run_step.
  destruct (LogoGenerator.has "glow" _); [| reflexivity].
  result_is_ok. apply glow_ok.
Qed.

Lemma template_step_ok (config : loc) (w : World) :
  usable (heap w config) ->
  is_ok (drawn_by LogoGenerator._apply_template config w) = true.
Proof.
  intros [Hc _]. unfold drawn_by. run_step. pick_colors Hc.
  result_is_ok. apply template_ok.
Qed.

Lemma extra_shapes_ok (config : loc) (w : World) :
  usable (heap w config) ->
  is_ok (drawn_by LogoGenerator._apply_extra_shapes config w) = true.
Proof.
  intros [Hc _]. unfold drawn_by. run_step.
  destruct (negb _); [reflexivity |]. pick_colors Hc.
  cbv [mbind R_bind]. unfold Random.bind at 1.
  destruct (randint_run 3 8 (rng w)) as (k & -> & _); [lia |].
  cbv beta iota.
  pose proof (repeat_draw_ok
                (LogoGenerator.extra_shape (self_width w) (self_height w)
                   (c0 :: cs))
                (extra_shape_ok _ _ _ _) (Z.to_nat k)
                (Random.advance (rng w))) as Hok.
  destruct (Random.repeat_draw _ _ _) as [[es|e] st]; [reflexivity | discriminate].
Qed.

Lemma text_ok (config : loc) (w : World) :
  is_ok (drawn_by LogoGenerator._apply_text config w) = true.
Proof.
  unfold drawn_by. run_step.
  destruct (String.eqb _ ""); [reflexivity |].
  destruct (String.eqb _ "shadow"); [reflexivity |].
  destruct (String.eqb _ "outline"); reflexivity.
Qed.

Lemma post_effects_ok (config : loc) (w : World) :
  usable (heap w config) ->
  is_ok (drawn_by LogoGenerator._apply_post_effects config w) = true.
Proof.
  intros [Hc _]. unfold drawn_by. run_step. pick_colors Hc.
  destruct (LogoGenerator.has "particles" _).
  - unfold EffectsEngine.draw_particle_burst. cbn [default].
    pose proof (repeat_draw_ok
                  (EffectsEngine.particle
                     (fl (self_width w) / 2, fl (self_height w) / 2)
                     (fl (Z.min (self_width w) (self_height w)) * (45 # 100))
                     (c0 :: cs))
                  (particle_ok _ _ _ _) (Z.to_nat 40) (rng w)) as Hok.
    destruct (Random.repeat_draw _ _ _) as [[es|e] st]; [| discriminate].
    cbn [fst snd].
    destruct (LogoGenerator.has "lens_flare" _); reflexivity.
  - destruct (LogoGenerator.has "lens_flare" _); reflexivity.
Qed.

End StepsOk.

(** ** What [generate] reads from a configuration *)

Ltac use_view :=
  intros config [hp1 fr1 wd1 ht1 sc1 rg1] [hp2 fr2 wd2 ht2 sc2 rg2];
  unfold same_view, alike; cbn [heap self_width self_height rng];
  intros
    ((Hbg & Hcol & Htpl & Hpat & Heff & Htxt & Hsub & Hfont & Hte & Hex & Hdir)
     & Hw & Hh & Hr);
  subst wd2 ht2 rg2;
  unfold drawn_by, rng_after; run_step;
  cbn [heap self_width self_height rng];
  unfold same_pattern, same_effects, tested_patterns, tested_effects in *;
  repeat match goal with
         | Hf : Forall _ (_ :: _) |- _ =>
             let E := fresh "E" in
             apply Forall_cons_1 in Hf; destruct Hf as [E Hf]; try rewrite E
         end;
  rewrite ?Hcol, ?Htxt, ?Hsub, ?Hfont, ?Hte, ?Hex, ?Hdir;
  try (fold (template_func (default "minimal_circle" (cfg_template (hp1 config))));
       rewrite Htpl; unfold template_func);
  split; split_cases; reflexivity.

Section Views.
Context `{MathLib}.

Lemma background_reads_view : reads_view LogoGenerator._apply_background.
Proof. use_view. Qed.

Lemma pattern_reads_view : reads_view LogoGenerator._apply_pattern.
Proof. use_view. Qed.

Lemma pre_effects_reads_view : reads_view LogoGenerator._apply_pre_effects.
Proof. use_view. Qed.

Lemma template_reads_view : reads_view LogoGenerator._apply_template.
Proof. use_view. Qed.

Lemma extra_shapes_reads_view : reads_view LogoGenerator._apply_extra_shapes.
Proof. use_view. Qed.

Lemma text_reads_view : reads_view LogoGenerator._apply_text.
Proof. use_view. Qed.

Lemma post_effects_reads_view : reads_view LogoGenerator._apply_post_effects.
Proof. use_view. Qed.

End Views.

(** ** The conditions that switch the steps on *)

Section SwitchedOff.
Context `{MathLib}.

Lemma background_off (config : loc) (w : World) :
  background_on (heap w config) = false ->
  no_op LogoGenerator._apply_background config w.
Proof.
  unfold background_on. intros Hoff surface.
  apply orb_false_elim in Hoff as [H1 H2].
  run_step. unfold Color in *. rewrite H1, H2. reflexivity.
Qed.

Lemma pattern_off (config : loc) (w : World) :
  pattern_on (heap w config) = false ->
  cfg_colors (heap w config) <> Some [] ->
  no_op LogoGenerator._apply_pattern config w.
Proof.
  unfold pattern_on, tested_patterns. cbn [existsb].
  intros Hoff Hc surface.
  repeat (apply orb_false_elim in Hoff; destruct Hoff as [? Hoff]).
  run_step. pick_colors Hc. cbn [PyR.first].
  repeat match goal with E : String.eqb _ _ = false |- _ => rewrite E; clear E end.
  reflexivity.
Qed.

Lemma pre_effects_off (config : loc) (w : World) :
  glow_on (heap w config) = false ->
  no_op LogoGenerator._apply_pre_effects config w.
Proof.
  unfold glow_on. intros Hoff surface. run_step. rewrite Hoff. reflexivity.
Qed.

Lemma extra_shapes_off (config : loc) (w : World) :
  extra_shapes_on (heap w config) = false ->
  no_op LogoGenerator._apply_extra_shapes config w.
Proof.
  unfold extra_shapes_on. intros Hoff surface. run_step. rewrite Hoff.
  reflexivity.
Qed.

Lemma text_off (config : loc) (w : World) :
  subtitle_on (heap w config) = false ->
  no_op LogoGenerator._apply_text config w.
Proof.
  unfold subtitle_on. intros Hoff surface. run_step.
  apply negb_false_iff in Hoff. rewrite Hoff. reflexivity.
Qed.

Lemma post_effects_off (config : loc) (w : World) :
  post_effects_on (heap w config) = false ->
  no_op LogoGenerator._apply_post_effects config w.
Proof.
  unfold post_effects_on. intros Hoff surface.
  apply orb_false_elim in Hoff as [H1 H2].
  run_step. rewrite H1, H2. reflexivity.
Qed.

(** A step that is a no-op draws nothing. *)
Lemma no_op_draws_nothing (step : Surface -> loc -> M Surface)
    (config : loc) (w : World) :
  no_op step config w ->
  drawn_by step config w = Ok [] /\ rng_after step config w = rng w.
Proof.
  intros Hno. unfold drawn_by, rng_after. rewrite Hno. split; reflexivity.
Qed.

Lemma generate_completes (config : loc) (w : World) :
  usable (heap w config) ->
  is_ok (seven_steps config w) = true.
Proof.
  intros Hu. unfold seven_steps.
  apply bind_ok; [exact (background_ok _ (entered config w) Hu) | intros es1].
  apply bind_ok; [exact (pattern_ok _ (entered config w) Hu) | intros es2].
  apply bind_ok; [exact (pre_effects_ok _ _) | intros es3].
  apply bind_ok; [exact (template_step_ok _ (entered config w) Hu) | intros es4].
  apply bind_ok; [exact (extra_shapes_ok _ (entered config w) Hu) | intros es5].
  apply bind_ok; [exact (text_ok _ _) | intros es6].
  apply bind_ok; [exact (post_effects_ok _ (decorated config w) Hu) | intros es7].
  reflexivity.
Qed.

End SwitchedOff.

(** ** Calls that see the same view draw the same *)

Section SameView.
Context `{MathLib}.

Lemma same_view_entered (config : loc) (w1 w2 : World) :
  same_view config w1 w2 ->
  same_view config (entered config w1) (entered config w2).
Proof. intros Hv. exact Hv. Qed.

Lemma same_view_set_rng (config : loc) (w1 w2 : World) (s : Random.State) :
  same_view config w1 w2 ->
  same_view config (Store.set_rng s w1) (Store.set_rng s w2).
Proof.
  intros (Ha & Hw & Hh & _).
  split; [exact Ha | split; [exact Hw | split; [exact Hh | reflexivity]]].
Qed.

Lemma seven_steps_same_view (config : loc) (w1 w2 : World) :
  same_view config w1 w2 -> seven_steps config w1 = seven_steps config w2.
Proof.
  intros Hv. unfold seven_steps, decorated.
  pose proof (same_view_entered config w1 w2 Hv) as Hv0.
  destruct (background_reads_view config _ _ Hv0) as [-> _].
  destruct (pattern_reads_view config _ _ Hv0) as [-> _].
  destruct (pre_effects_reads_view config _ _ Hv0) as [-> _].
  destruct (template_reads_view config _ _ Hv0) as [-> _].
  destruct (extra_shapes_reads_view config _ _ Hv0) as [-> ->].
  pose proof (same_view_set_rng config _ _
                (rng_after LogoGenerator._apply_extra_shapes config
                   (entered config w2)) Hv0) as Hv5.
  destruct (text_reads_view config _ _ Hv5) as [-> _].
  destruct (post_effects_reads_view config _ _ Hv5) as [-> _].
  reflexivity.
Qed.

Lemma generate_same_view (config : loc) (w1 w2 : World) :
  same_view config w1 w2 ->
  fst (LogoGenerator.generate (Some config) w1)
  = fst (LogoGenerator.generate (Some config) w2).
Proof.
  intros Hv.
  destruct (generate_is_seven_steps config w1) as [st1 ->].
  destruct (generate_is_seven_steps config w2) as [st2 ->].
  cbn [fst]. rewrite (seven_steps_same_view config w1 w2 Hv).
  destruct Hv as ((Hbg & _) & Hw & Hh & _).
  unfold start_surface. rewrite Hbg, Hw, Hh. reflexivity.
Qed.

Lemma alike_refl (c : Config) : alike c c.
Proof.
  unfold alike, same_pattern, same_effects.
  repeat split; try reflexivity; apply Forall_forall; reflexivity.
Qed.

Lemma has_skip (n x : string) (es fs : list string) :
  n <> x ->
  LogoGenerator.has n (es ++ x :: fs) = LogoGenerator.has n (es ++ fs).
Proof.
  intros Hne. unfold LogoGenerator.has. apply bool_decide_ext.
  rewrite !elem_of_app, elem_of_cons. intuition congruence.
Qed.

End SameView.

(** ** The pipeline of [generate] *)

Lemma drawn_on_new_surface (es : list Element) (width height : Z) (bg : Color) :
  draw_all es (new_surface width height bg)
  = {| s_width := width; s_height := height; s_bg_color := bg; s_drawn := es |}.
Proof.
  destruct (draw_all_frame es (new_surface width height bg)) as (H1 & H2 & H3).
  apply surface_eq; simpl; try assumption.
  rewrite draw_all_drawn. reflexivity.
Qed.

(** ** The steps of [generate] against the seven stages *)

Lemma drawn_paint (r : result (list Element)) (w : World) :
  match fst (LogoGenerator.paint blank r w) with
  | Ok s => Ok (s_drawn s)
  | Raise e => Raise e
  end = r.
Proof.
  destruct r as [es|e]; cbv [LogoGenerator.paint mbind M_bind mret M_ret
                             Store.pure fst]; [| reflexivity].
  rewrite draw_all_drawn. reflexivity.
Qed.

Ltac open_step :=
  unfold drawn_by;
  cbv [ LogoGenerator._apply_background LogoGenerator._apply_pattern
        LogoGenerator._apply_pre_effects LogoGenerator._apply_template
        LogoGenerator._apply_extra_shapes LogoGenerator._apply_text
        LogoGenerator._apply_post_effects
        mbind M_bind mret M_ret Store.deref Store.width Store.height
        Store.pure Store.random ];
  unfold Color in *.

Section StagesDrawn.
Context `{MathLib}.

Lemma background_draws (config : loc) (w : World) :
  drawn_by LogoGenerator._apply_background config w
  = background_stage (heap w config) (self_width w) (self_height w).
Proof.
  unfold background_stage, background_on. open_step.
  destruct (LogoGenerator.has "gradient_bg" _) eqn:E1;
    destruct (2 <=? _)%nat eqn:E2;
    destruct (LogoGenerator.has "radial_gradient" _) eqn:E3;
    cbn [andb orb negb fst]; try reflexivity; apply drawn_paint.
Qed.

Lemma pattern_draws (config : loc) (w : World) :
  drawn_by LogoGenerator._apply_pattern config w
  = pattern_stage (heap w config) (self_width w) (self_height w).
Proof.
  unfold pattern_stage. open_step. unfold Py.slice_to.
  match goal with
  | |- context [PyR.first ?l] => destruct (PyR.first l) as [c0|e]
  end; [| reflexivity].
  cbn [mbind result_bind].
  repeat match goal with
         | |- context [if String.eqb ?a ?b then _ else _] =>
             destruct (String.eqb a b); [apply drawn_paint |]
         end.
  reflexivity.
Qed.

Lemma pre_effects_draws (config : loc) (w : World) :
  drawn_by LogoGenerator._apply_pre_effects config w
  = glow_stage (heap w config) (self_width w) (self_height w).
Proof.
  unfold glow_stage, glow_on. open_step.
  destruct (LogoGenerator.has "glow" _); [| reflexivity].
  rewrite drawn_paint.
  destruct (cfg_colors (heap w config)) as [[|c0 cs]|]; reflexivity.
Qed.

Lemma template_draws (config : loc) (w : World) :
  drawn_by LogoGenerator._apply_template config w
  = template_stage (heap w config) (self_width w) (self_height w).
Proof. unfold template_stage, template_func. open_step. apply drawn_paint. Qed.

Lemma extra_shapes_draws (config : loc) (w : World) :
  drawn_by LogoGenerator._apply_extra_shapes config w
  = fst (decoration_stage (heap w config) (self_width w) (self_height w)
           (rng w))
  /\ rng_after LogoGenerator._apply_extra_shapes config w
     = snd (decoration_stage (heap w config) (self_width w) (self_height w)
              (rng w)).
Proof.
  unfold decoration_stage, extra_shapes_on, rng_after. open_step.
  destruct (default false _); cbn [negb fst snd]; [| split; reflexivity].
  match goal with
  | |- context [R_bind ?A ?B ?f ?m ?s] =>
      destruct (R_bind A B f m s) as [[es|e] st]
  end; cbn [fst snd rng Store.set_rng]; rewrite ?draw_all_drawn;
    split; reflexivity.
Qed.

Lemma text_draws (config : loc) (w : World) :
  drawn_by LogoGenerator._apply_text config w
  = Ok (subtitle_stage (heap w config) (self_width w) (self_height w)).
Proof.
  unfold subtitle_stage, subtitle_on. open_step. unfold Py.last_item.
  destruct (String.eqb (default "" _) ""); cbn [negb fst]; [reflexivity |].
  destruct (String.eqb _ "shadow"); [apply drawn_paint |].
  destruct (String.eqb _ "outline"); apply drawn_paint.
Qed.

Lemma post_effects_draws (config : loc) (w : World) :
  drawn_by LogoGenerator._apply_post_effects config w
  = fst (post_effects_stage (heap w config) (self_width w) (self_height w)
           (rng w)).
Proof.
  unfold post_effects_stage. open_step.
  cbv [mbind R_bind mret R_ret Random.bind Random.ret Random.lift
       LogoGenerator.paint M_bind M_ret Store.pure].
  destruct (LogoGenerator.has "particles" _);
    destruct (LogoGenerator.has "lens_flare" _);
    repeat first
      [ progress cbn [fst snd rng Store.set_rng]
      | rewrite uniform_run
      | match goal with
        | |- context [EffectsEngine.draw_particle_burst ?a ?b ?c ?d ?s] =>
            destruct (EffectsEngine.draw_particle_burst a b c d s)
              as [[ps|e] st]
        | |- context [EffectsEngine.draw_lens_flare ?a ?b ?c] =>
            destruct (EffectsEngine.draw_lens_flare a b c) as [fs|e]
        end ];
    rewrite ?draw_all_drawn, ?app_nil_r; try reflexivity.
Qed.

End StagesDrawn.

Section PipelineDrawn.
Context `{MathLib}.

Lemma seven_steps_pipeline (config : loc) (w : World) :
  seven_steps config w
  = pipeline (heap w config) (self_width w) (self_height w) (rng w).
Proof.
  unfold seven_steps, pipeline, decorated.
  rewrite background_draws, pattern_draws, pre_effects_draws, template_draws.
  destruct (extra_shapes_draws config (entered config w)) as [-> ->].
  rewrite text_draws, post_effects_draws.
  reflexivity.
Qed.

Lemma generate_paints_pipeline (config : loc) (w : World) :
  fst (LogoGenerator.generate (Some config) w)
  = match pipeline (heap w config) (self_width w) (self_height w) (rng w) with
    | Ok es => Ok (canvas (heap w config) (self_width w) (self_height w) es)
    | Raise e => Raise e
    end.
Proof.
  destruct (generate_is_seven_steps config w) as [st ->]. cbn [fst].
  rewrite seven_steps_pipeline.
  destruct (pipeline _ _ _ _) as [es|e]; [| reflexivity].
  unfold on_top, start_surface, canvas.
  rewrite drawn_on_new_surface. reflexivity.
Qed.

Lemma pipeline_completes (cfg : Config) (width height : Z)
    (st : Random.State) :
  usable cfg -> is_ok (pipeline cfg width height st) = true.
Proof.
  intros Hu.
  pose (w := {| heap := fun _ => cfg; fresh := O; self_width := width;
                self_height := height; self_config := O; rng := st |}).
  pose proof (generate_completes O w Hu) as Hok.
  rewrite seven_steps_pipeline in Hok. exact Hok.
Qed.

(** A render that returns has run the seven stages, none of which
    raised. *)
Lemma pipeline_stages (cfg : Config) (width height : Z) (st : Random.State)
    (es : list Element) :
  pipeline cfg width height st = Ok es ->
  exists es1 es2 es3 es4 es5 es7,
    background_stage cfg width height = Ok es1
    /\ pattern_stage cfg width height = Ok es2
    /\ glow_stage cfg width height = Ok es3
    /\ template_stage cfg width height = Ok es4
    /\ fst (decoration_stage cfg width height st) = Ok es5
    /\ fst (post_effects_stage cfg width height
              (snd (decoration_stage cfg width height st))) = Ok es7
    /\ es = es1 ++ es2 ++ es3 ++ es4 ++ es5
            ++ subtitle_stage cfg width height ++ es7.
Proof.
  unfold pipeline.
  destruct (background_stage _ _ _) as [es1|e]; [| discriminate].
  destruct (pattern_stage _ _ _) as [es2|e]; [| discriminate].
  destruct (glow_stage _ _ _) as [es3|e]; [| discriminate].
  destruct (template_stage _ _ _) as [es4|e]; [| discriminate].
  cbn [mbind result_bind].
  destruct (fst (decoration_stage _ _ _ _)) as [es5|e]; [| discriminate].
  cbn [mbind result_bind].
  destruct (fst (post_effects_stage _ _ _ _)) as [es7|e]; [| discriminate].
  cbn [mbind result_bind]. intros E. injection E as <-.
  exists es1, es2, es3, es4, es5, es7. repeat split; reflexivity.
Qed.

(** Every template draws something when it returns. *)
Lemma template_draws_something (name : string) (width height : Z)
    (colors : list Color) (text fontfamily : string) (es : list Element) :
  template_func name width height colors text fontfamily = Ok es ->
  es <> [].
Proof.
  destruct (template_func_cases name) as [E|[E|[E|[E|[E|E]]]]]; rewrite E;
    clear E.
  - unfold LogoTemplate.minimal_circle.
    destruct colors as [|c0 cs]; [discriminate |].
    cbn [PyR.first mbind result_bind]. intros E. injection E as <-.
    discriminate.
  - unfold LogoTemplate.shield_badge.
    destruct colors as [|c0 cs]; [discriminate |].
    cbn [PyR.first mbind result_bind]. intros E. injection E as <-.
    discriminate.
  - unfold LogoTemplate.geometric_abstract.
    replace (Py.range0 3) with [0; 1; 2]%Z by reflexivity.
    cbn [for_each].
    destruct (length colors =? 0)%nat; [discriminate |].
    repeat match goal with
           | |- context [PyR.item ?l ?i] =>
               destruct (PyR.item l i); [| discriminate]
           end.
    cbn [mbind result_bind app].
    destruct (String.eqb text "").
    + intros E. injection E as <-. discriminate.
    + destruct (PyR.first colors); [| discriminate].
      cbn [mbind result_bind app]. intros E. injection E as <-.
      discriminate.
  - unfold LogoTemplate.monogram.
    destruct colors as [|c0 cs]; [discriminate |].
    cbn [PyR.first mbind result_bind]. intros E. injection E as <-.
    discriminate.
  - unfold LogoTemplate.tech_hexagon.
    destruct colors as [|c0 cs]; [discriminate |].
    cbn [PyR.first mbind result_bind]. intros E. injection E as <-.
    discriminate.
  - unfold LogoTemplate.circular_badge.
    destruct colors as [|c0 cs]; [discriminate |].
    cbn [PyR.first mbind result_bind]. intros E. injection E as <-.
    discriminate.
Qed.

End PipelineDrawn.

(** C1, as the specification states it, fails on an empty colour list:
    the pattern is "none", so the condition of the pattern stage is false,
    and yet the step is not a no-op.  It raises [IndexError] on the first
    colour, and so does the call. *)
Lemma pattern_step_raises_on_no_colors :
  cfg_colors colourless_config = Some []
  /\ pattern_on colourless_config = false
  /\ heap (entered 0%nat colourless_world) 0%nat = colourless_config
  /\ fst (@LogoGenerator._apply_pattern rational_math blank 0%nat
            (entered 0%nat colourless_world))
     = Raise IndexError
  /\ fst (@LogoGenerator.generate rational_math (Some 0%nat) colourless_world)
     = Raise IndexError.
Proof. repeat split; reflexivity. Qed.

(** C1, amended: a call [generate(config)] creates the surface and then
    runs exactly seven stages in the order background, pattern, pre-effects
    (glow), template, extra shapes, subtitle text, post-effects: what it
    returns is the new canvas with the calls of the seven stages one after
    the other, and the first stage that raises ends the call.  Each step
    issues exactly the calls of its stage and only adds them after those
    already on the surface, so a later stage paints over the earlier ones.
    A step whose condition is false returns the surface and the store
    untouched; for the pattern step this holds when the colour list is not
    empty, as the step looks up the first colour before it tests the
    pattern name. *)
Theorem generate_runs_seven_steps_in_order `{MathLib}
    (config : loc) (w : World) :
  let cfg := heap w config in
  let width := self_width w in
  let height := self_height w in
  let w0 := entered config w in
  let w5 := decorated config w in
  fst (LogoGenerator.generate (Some config) w)
  = match pipeline cfg width height (rng w) with
    | Ok es => Ok (canvas cfg width height es)
    | Raise e => Raise e
    end
  /\ (drawn_by LogoGenerator._apply_background config w0
      = background_stage cfg width height
      /\ drawn_by LogoGenerator._apply_pattern config w0
         = pattern_stage cfg width height
      /\ drawn_by LogoGenerator._apply_pre_effects config w0
         = glow_stage cfg width height
      /\ drawn_by LogoGenerator._apply_template config w0
         = template_stage cfg width height
      /\ drawn_by LogoGenerator._apply_extra_shapes config w0
         = fst (decoration_stage cfg width height (rng w))
      /\ rng w5 = snd (decoration_stage cfg width height (rng w))
      /\ drawn_by LogoGenerator._apply_text config w5
         = Ok (subtitle_stage cfg width height)
      /\ drawn_by LogoGenerator._apply_post_effects config w5
         = fst (post_effects_stage cfg width height (rng w5)))
  /\ (appends LogoGenerator._apply_background
      /\ appends LogoGenerator._apply_pattern
      /\ appends LogoGenerator._apply_pre_effects
      /\ appends LogoGenerator._apply_template
      /\ appends LogoGenerator._apply_extra_shapes
      /\ appends LogoGenerator._apply_text
      /\ appends LogoGenerator._apply_post_effects)
  /\ (background_on cfg = false ->
      no_op LogoGenerator._apply_background config w0)
  /\ (pattern_on cfg = false -> cfg_colors cfg <> Some [] ->
      no_op LogoGenerator._apply_pattern config w0)
  /\ (glow_on cfg = false -> no_op LogoGenerator._apply_pre_effects config w0)
  /\ (extra_shapes_on cfg = false ->
      no_op LogoGenerator._apply_extra_shapes config w0)
  /\ (subtitle_on cfg = false -> no_op LogoGenerator._apply_text config w5)
  /\ (post_effects_on cfg = false ->
      no_op LogoGenerator._apply_post_effects config w5)
  /\ (forall s,
        fst (LogoGenerator.generate (Some config) w) = Ok s ->
        exists es1 es2 es3 es4 es5 es7,
          background_stage cfg width height = Ok es1
          /\ pattern_stage cfg width height = Ok es2
          /\ glow_stage cfg width height = Ok es3
          /\ template_stage cfg width height = Ok es4
          /\ fst (decoration_stage cfg width height (rng w)) = Ok es5
          /\ fst (post_effects_stage cfg width height (rng w5)) = Ok es7
          /\ s = canvas cfg width height
                   (es1 ++ es2 ++ es3 ++ es4 ++ es5
                    ++ subtitle_stage cfg width height ++ es7))
  /\ (usable cfg ->
      is_ok (fst (LogoGenerator.generate (Some config) w)) = true).
Proof.
  intros cfg width height w0 w5.
  pose proof (generate_paints_pipeline config w) as Hgen.
  fold cfg width height in Hgen.
  destruct (extra_shapes_draws config w0) as [Hdeco Hrng].
  assert (Hw5 : rng w5 = snd (decoration_stage cfg width height (rng w)))
    by exact Hrng.
  split; [exact Hgen |].
  split.
  { split; [exact (background_draws config w0) |].
    split; [exact (pattern_draws config w0) |].
    split; [exact (pre_effects_draws config w0) |].
    split; [exact (template_draws config w0) |].
    split; [exact Hdeco |].
    split; [exact Hw5 |].
    split; [exact (text_draws config w5) |].
    exact (post_effects_draws config w5). }
  split.
  { repeat split;
      [ apply background_appends | apply pattern_appends
      | apply pre_effects_appends | apply template_appends
      | apply extra_shapes_appends | apply text_appends
      | apply post_effects_appends ]. }
  split; [apply (background_off config w0) |].
  split; [apply (pattern_off config w0) |].
  split; [apply (pre_effects_off config w0) |].
  split; [apply (extra_shapes_off config w0) |].
  split; [apply (text_off config w5) |].
  split; [apply (post_effects_off config w5) |].
  split.
  - intros s Hs. rewrite Hgen in Hs.
    destruct (pipeline cfg width height (rng w)) as [es|e] eqn:Hp;
      [| discriminate].
    injection Hs as <-.
    destruct (pipeline_stages _ _ _ _ _ Hp)
      as (es1 & es2 & es3 & es4 & es5 & es7 & H1 & H2 & H3 & H4 & H5 & H7 & ->).
    exists es1, es2, es3, es4, es5, es7.
    rewrite Hw5. repeat (split; [assumption |]). reflexivity.
  - intros Hu. rewrite Hgen.
    pose proof (pipeline_completes cfg width height (rng w) Hu) as Hok.
    destruct (pipeline cfg width height (rng w)); [reflexivity | discriminate].
Qed.

Lemma generate_runs_seven_steps_in_order_witness :
  @usable rational_math sample_config
  /\ pattern_on sample_config = false
  /\ no_op (@LogoGenerator._apply_pattern rational_math) 0%nat
       (entered 0%nat sample_world)
  /\ is_ok (fst (@LogoGenerator.generate rational_math (Some 0%nat)
                   sample_world)) = true.
Proof.
  assert (Hu : @usable rational_math sample_config).
  { split; [discriminate |]. intros E. discriminate E. }
  split; [exact Hu |].
  split; [reflexivity |].
  destruct (@generate_runs_seven_steps_in_order rational_math 0%nat sample_world)
    as (_ & _ & _ & _ & Hpat & _ & _ & _ & _ & _ & Hok).
  split; [apply Hpat; [reflexivity | discriminate] |].
  exact (Hok Hu).
Defined.

(** C5, as the specification states it, fails on an empty colour list:
    the call raises [IndexError] and returns no canvas.  The dict of the
    configuration is unchanged all the same. *)
Lemma generate_raises_on_no_colors :
  cfg_colors colourless_config = Some []
  /\ fst (@LogoGenerator.generate rational_math (Some 0%nat) colourless_world)
     = Raise IndexError
  /\ heap (snd (@LogoGenerator.generate rational_math (Some 0%nat)
                  colourless_world)) 0%nat
     = colourless_config.
Proof. repeat split; reflexivity. Qed.

(** C5, amended: [generate(config)] writes nothing into the store but its
    own [self.config] reference: after the call, whether it returned or
    raised, every dict of the store and so the dict of [config], with all
    its keys, its scalar values and its colour list, is what it was, and
    the generator's size is unchanged.  The surface a call returns is fully
    painted: it has the generator's size and the background colour of the
    configuration, and it holds the calls of all seven stages in their
    order, among them the calls of the template, which are never none.
    The call returns when the colour list is not empty (and, with the
    pattern "hexagon", the square root of 3 is not zero). *)
Theorem generate_leaves_config_unchanged `{MathLib}
    (config : loc) (w : World) :
  let w' := snd (LogoGenerator.generate (Some config) w) in
  let cfg := heap w config in
  let width := self_width w in
  let height := self_height w in
  heap w' = heap w
  /\ heap w' config = heap w config
  /\ self_config w' = config
  /\ self_width w' = self_width w
  /\ self_height w' = self_height w
  /\ fresh w' = fresh w
  /\ (forall s,
        fst (LogoGenerator.generate (Some config) w) = Ok s ->
        s_width s = width /\ s_height s = height
        /\ s_bg_color s = default [1 # 10; 1 # 10; 15 # 100] (cfg_bg_color cfg)
        /\ pipeline cfg width height (rng w) = Ok (s_drawn s)
        /\ exists es1 es2 es3 es4 es5 es7,
             background_stage cfg width height = Ok es1
             /\ pattern_stage cfg width height = Ok es2
             /\ glow_stage cfg width height = Ok es3
             /\ template_stage cfg width height = Ok es4
             /\ es4 <> []
             /\ fst (decoration_stage cfg width height (rng w)) = Ok es5
             /\ fst (post_effects_stage cfg width height
                       (snd (decoration_stage cfg width height (rng w))))
                = Ok es7
             /\ s_drawn s = es1 ++ es2 ++ es3 ++ es4 ++ es5
                            ++ subtitle_stage cfg width height ++ es7)
  /\ (usable cfg ->
      exists es,
        pipeline cfg width height (rng w) = Ok es
        /\ es <> []
        /\ fst (LogoGenerator.generate (Some config) w)
           = Ok {| s_width := self_width w;
                   s_height := self_height w;
                   s_bg_color := default [1 # 10; 1 # 10; 15 # 100]
                                   (cfg_bg_color (heap w config));
                   s_drawn := es |}).
Proof.
  intros w' cfg width height. subst w'.
  pose proof (generate_paints_pipeline config w) as Hpaint.
  fold cfg width height in Hpaint.
  assert (Hfull : forall es,
             pipeline cfg width height (rng w) = Ok es ->
             exists es1 es2 es3 es4 es5 es7,
               background_stage cfg width height = Ok es1
               /\ pattern_stage cfg width height = Ok es2
               /\ glow_stage cfg width height = Ok es3
               /\ template_stage cfg width height = Ok es4
               /\ es4 <> []
               /\ fst (decoration_stage cfg width height (rng w)) = Ok es5
               /\ fst (post_effects_stage cfg width height
                         (snd (decoration_stage cfg width height (rng w))))
                  = Ok es7
               /\ es = es1 ++ es2 ++ es3 ++ es4 ++ es5
                       ++ subtitle_stage cfg width height ++ es7).
  { intros es Hp.
    destruct (pipeline_stages _ _ _ _ _ Hp)
      as (es1 & es2 & es3 & es4 & es5 & es7 & H1 & H2 & H3 & H4 & H5 & H7 & E).
    exists es1, es2, es3, es4, es5, es7.
    repeat (split; [assumption |]).
    split; [exact (template_draws_something _ _ _ _ _ _ _ H4) |].
    repeat (split; [assumption |]). exact E. }
  destruct (generate_is_seven_steps config w) as [st Hgen].
  rewrite Hgen in Hpaint |- *. cbn [fst snd] in Hpaint |- *.
  repeat (split; [reflexivity |]).
  split.
  - intros s Hs. rewrite Hpaint in Hs.
    destruct (pipeline cfg width height (rng w)) as [es|e] eqn:Hp;
      [| discriminate].
    injection Hs as <-. cbn [canvas s_width s_height s_bg_color s_drawn].
    repeat (split; [reflexivity |]). apply Hfull. reflexivity.
  - intros Hu.
    pose proof (pipeline_completes cfg width height (rng w) Hu) as Hok.
    apply is_ok_Ok in Hok. destruct Hok as [es Hes].
    exists es. split; [exact Hes |].
    split.
    + destruct (Hfull es Hes)
        as (es1 & es2 & es3 & es4 & es5 & es7 & _ & _ & _ & _ & Hne & _ & _ & ->).
      intros E. apply Hne.
      repeat (apply app_eq_nil in E; destruct E as [? E]).
      assumption.
    + rewrite Hpaint, Hes. reflexivity.
Qed.

Lemma generate_leaves_config_unchanged_witness :
  heap (snd (@LogoGenerator.generate rational_math (Some 0%nat) sample_world))
       0%nat
  = sample_config
  /\ exists s,
       fst (@LogoGenerator.generate rational_math (Some 0%nat) sample_world)
       = Ok s
       /\ s_drawn s <> [].
Proof.
  destruct (@generate_leaves_config_unchanged rational_math 0%nat sample_world)
    as (_ & Hcfg & _ & _ & _ & _ & _ & Hok).
  split; [exact Hcfg |].
  assert (Hu : @usable rational_math (heap sample_world 0%nat)).
  { split; [discriminate |]. intros E. discriminate E. }
  destruct (Hok Hu) as (es & _ & Hne & Hes).
  eexists. split; [exact Hes | exact Hne].
Defined.

(** ** Determinism *)

Ltac step_ignores_rng :=
  intros config [hp fr wd ht sc rg] s; unfold drawn_by; run_step;
  cbn [heap fresh self_width self_height self_config rng Store.set_rng];
  split_cases; reflexivity.

Section Determinism.
Context `{MathLib}.

Lemma background_ignores_rng : ignores_rng LogoGenerator._apply_background.
Proof. step_ignores_rng. Qed.

Lemma pattern_ignores_rng : ignores_rng LogoGenerator._apply_pattern.
Proof. step_ignores_rng. Qed.

Lemma pre_effects_ignores_rng : ignores_rng LogoGenerator._apply_pre_effects.
Proof. step_ignores_rng. Qed.

Lemma template_ignores_rng : ignores_rng LogoGenerator._apply_template.
Proof. step_ignores_rng. Qed.

Lemma text_ignores_rng : ignores_rng LogoGenerator._apply_text.
Proof. step_ignores_rng. Qed.

Lemma seven_steps_without_random (config : loc) (w : World)
    (s : Random.State) :
  extra_shapes_on (heap w config) = false ->
  post_effects_on (heap w config) = false ->
  seven_steps config (Store.seed s w) = seven_steps config w.
Proof.
  intros Hextra Hpost. unfold seven_steps, decorated.
  change (entered config (Store.seed s w))
    with (Store.set_rng s (entered config w)).
  set (w0 := entered config w).
  rewrite background_ignores_rng, pattern_ignores_rng,
    pre_effects_ignores_rng, template_ignores_rng.
  destruct (no_op_draws_nothing _ config (Store.set_rng s w0)
              (extra_shapes_off config (Store.set_rng s w0) Hextra))
    as [-> ->].
  destruct (no_op_draws_nothing _ config w0
              (extra_shapes_off config w0 Hextra)) as [-> ->].
  change (Store.set_rng (rng (Store.set_rng s w0)) (Store.set_rng s w0))
    with (Store.set_rng s w0).
  rewrite set_rng_same.
  rewrite text_ignores_rng.
  destruct (no_op_draws_nothing _ config (Store.set_rng s w0)
              (post_effects_off config (Store.set_rng s w0) Hpost))
    as [-> _].
  destruct (no_op_draws_nothing _ config w0
              (post_effects_off config w0 Hpost)) as [-> _].
  reflexivity.
Qed.

End Determinism.

(** C2: two calls of [generate] on the same configuration, by a generator
    of the same size, each made right after seeding the [random] module
    with the same seed, return the same surface (background, size and every
    drawing call), whatever else differs between the two moments: the other
    dicts of the store, the previous [self.config], the numbers drawn before
    the seeding.  This holds for every configuration, with pattern "none"
    and no effects in particular; and when neither the extra shapes nor a
    post-effect is on, the surface does not depend on the seed at all. *)
Theorem generate_is_deterministic `{MathLib}
    (config : loc) (seed : Random.State) (w1 w2 : World) :
  heap w1 config = heap w2 config ->
  self_width w1 = self_width w2 ->
  self_height w1 = self_height w2 ->
  fst (LogoGenerator.generate (Some config) (Store.seed seed w1))
  = fst (LogoGenerator.generate (Some config) (Store.seed seed w2))
  /\ (extra_shapes_on (heap w1 config) = false ->
      post_effects_on (heap w1 config) = false ->
      forall seed',
        fst (LogoGenerator.generate (Some config) (Store.seed seed' w1))
        = fst (LogoGenerator.generate (Some config) (Store.seed seed w2))).
Proof.
  intros Hcfg Hw Hh.
  assert (Hview : forall s, same_view config (Store.seed s w1) (Store.seed s w2)).
  { intros s. split; [| split; [exact Hw | split; [exact Hh | reflexivity]]].
    change (alike (heap w1 config) (heap w2 config)).
    rewrite Hcfg. apply alike_refl. }
  split; [apply generate_same_view, Hview |].
  intros Hextra Hpost seed'.
  rewrite <- (generate_same_view config _ _ (Hview seed)).
  destruct (generate_is_seven_steps config (Store.seed seed' w1)) as [st1 ->].
  destruct (generate_is_seven_steps config (Store.seed seed w1)) as [st2 ->].
  cbn [fst]. rewrite !seven_steps_without_random by assumption. reflexivity.
Qed.

Lemma generate_is_deterministic_witness :
  fst (@LogoGenerator.generate rational_math (Some 0%nat)
         (Store.seed seed_42 rich_world))
  = fst (@LogoGenerator.generate rational_math (Some 0%nat)
           (Store.seed seed_42 later_world)).
Proof.
  exact (proj1 (@generate_is_deterministic rational_math 0%nat seed_42
                  rich_world later_world eq_refl eq_refl eq_refl)).
Defined.

(** The demo configuration draws the two circles and the text of
    "minimal_circle" and then the subtitle; the rich one draws 574 elements,
    "LO" for the monogram among them. *)
Example sample_renders :
  @summary rational_math 0%nat sample_world = Some (4%nat, ["PAT"; "None"])
  /\ @summary rational_math 0%nat rich_world
     = Some (574%nat, ["LO"; "Studio"; "Studio"]).
Proof. split; vm_compute; reflexivity. Qed.

(** Without seeding in between, a second call goes on from the generator
    state the first one left and draws something else: here one element
    more. *)
Example second_call_differs_without_seed :
  @summary rational_math 0%nat
    (snd (@LogoGenerator.generate rational_math (Some 0%nat) rich_world))
  = Some (575%nat, ["LO"; "Studio"; "Studio"]).
Proof. vm_compute. reflexivity. Qed.

(** ** Unknown names *)

Lemma holding_here (config : loc) (c : Config) (w : World) :
  heap (holding config c w) config = c.
Proof. unfold holding. cbn [heap]. rewrite decide_True; reflexivity. Qed.

Lemma unknown_differs (name : string) (names : list string) (n : string) :
  name ∉ names -> n ∈ names -> String.eqb name n = false.
Proof. intros Hnot Hin. apply String.eqb_neq. intros ->. contradiction. Qed.

Ltac listed := apply list_elem_of_In; simpl; tauto.

Section UnknownNames.
Context `{MathLib}.

Lemma render_alike (c d : Config) (config : loc) (w : World) :
  alike c d -> render c config w = render d config w.
Proof.
  intros Halike. unfold render. apply generate_same_view.
  split; [| repeat split].
  rewrite !holding_here. exact Halike.
Qed.

Lemma unknown_preset (name : string) :
  name ∉ LogoGenerator.AVAILABLE_PRESETS ->
  ColorPalette.PRESET_PALETTES !! name = None.
Proof.
  intros Hnot. apply not_elem_of_list_to_map_1. exact Hnot.
Qed.

Lemma unknown_template (name : string) :
  name ∉ LogoGenerator.AVAILABLE_TEMPLATES ->
  template_func name = LogoTemplate.minimal_circle.
Proof.
  intros Hnot. unfold template_func.
  assert (E : LogoTemplate.templates !! name = None)
    by (apply not_elem_of_list_to_map_1; exact Hnot).
  rewrite E. reflexivity.
Qed.

Lemma unknown_pattern (name : string) :
  name ∉ LogoGenerator.AVAILABLE_PATTERNS -> same_pattern name "none".
Proof.
  intros Hnot. unfold same_pattern, tested_patterns.
  repeat (constructor;
          [rewrite (unknown_differs name _ _ Hnot) by listed; reflexivity |]).
  constructor.
Qed.

Lemma unknown_effect (name : string) (es fs : list string) :
  name ∉ LogoGenerator.AVAILABLE_EFFECTS ->
  same_effects (es ++ name :: fs) (es ++ fs).
Proof.
  intros Hnot. unfold same_effects, tested_effects.
  repeat (constructor;
          [apply has_skip; intros E; apply Hnot; rewrite <- E; listed |]).
  constructor.
Qed.

End UnknownNames.

Lemma render_completes `{MathLib} (c : Config) (config : loc) (w : World) :
  usable c -> is_ok (render c config w) = true.
Proof.
  intros Hu. unfold render.
  destruct (generate_is_seven_steps config (holding config c w)) as [st ->].
  cbn [fst].
  assert (Hu' : usable (heap (holding config c w) config))
    by (rewrite holding_here; exact Hu).
  pose proof (generate_completes config _ Hu') as Hok.
  destruct (seven_steps config (holding config c w)); [reflexivity | discriminate].
Qed.

Lemma render_paints_pipeline `{MathLib} (c : Config) (config : loc)
    (w : World) :
  render c config w
  = match pipeline c (self_width w) (self_height w) (rng w) with
    | Ok calls => Ok (canvas c (self_width w) (self_height w) calls)
    | Raise e => Raise e
    end.
Proof.
  unfold render. rewrite generate_paints_pipeline, holding_here. reflexivity.
Qed.

(** C8, as the specification states it, fails on an empty colour list:
    the render with an unknown template name raises [IndexError] and does
    not complete (as the render with "minimal_circle" does not). *)
Lemma unknown_template_raises_on_no_colors :
  forallb (fun n => negb (String.eqb "hologram" n))
    LogoGenerator.AVAILABLE_TEMPLATES = true
  /\ cfg_colors (with_template "hologram" colourless_config) = Some []
  /\ @render rational_math (with_template "hologram" colourless_config)
       0%nat sample_world
     = Raise IndexError
  /\ @render rational_math (with_template "minimal_circle" colourless_config)
       0%nat sample_world
     = Raise IndexError.
Proof. repeat split; reflexivity. Qed.

(** C8, amended: a name that is none of the known ones never makes a
    call fail by itself.  An unknown preset name gives the "corporate"
    palette.  With an unknown template name the template step issues
    exactly the calls of [LogoTemplate.minimal_circle], and the render is
    the render with "minimal_circle"; with an unknown pattern name the
    pattern step draws nothing once it has looked up the first colour, and
    the render is the render with pattern "none"; an unknown name in the
    effects list is ignored.  Each of these renders is the canvas with the
    seven stages of the configuration with the default name, and it
    completes when the colour list is not empty (and, with the pattern
    "hexagon", the square root of 3 is not zero). *)
Theorem unknown_names_fall_back `{MathLib}
    (name : string) (cfg : Config) (config : loc) (w : World)
    (es fs : list string) :
  let width := self_width w in
  let height := self_height w in
  (name ∉ LogoGenerator.AVAILABLE_PRESETS ->
   ColorPalette.get_preset name = ColorPalette.get_preset "corporate"
   /\ ColorPalette.get_preset name
      = [ [1 # 10; 2 # 10; 5 # 10]; [2 # 10; 4 # 10; 7 # 10];
          [8 # 10; 8 # 10; 85 # 100]; [95 # 100; 95 # 100; 95 # 100] ])
  /\ (name ∉ LogoGenerator.AVAILABLE_TEMPLATES ->
      drawn_by LogoGenerator._apply_template config
        (holding config (with_template name cfg) w)
      = LogoTemplate.minimal_circle width height
          (default [[2 # 10; 4 # 10; 8 # 10]; [1; 1; 1]; [1; 1; 1]]
             (cfg_colors cfg))
          (default "LOGO" (cfg_text cfg)) (default "Arial" (cfg_fontfamily cfg))
      /\ render (with_template name cfg) config w
         = render (with_template "minimal_circle" cfg) config w
      /\ render (with_template name cfg) config w
         = match pipeline (with_template "minimal_circle" cfg) width height
                   (rng w) with
           | Ok calls => Ok (canvas cfg width height calls)
           | Raise e => Raise e
           end
      /\ (usable cfg ->
          is_ok (render (with_template name cfg) config w) = true))
  /\ (name ∉ LogoGenerator.AVAILABLE_PATTERNS ->
      drawn_by LogoGenerator._apply_pattern config
        (holding config (with_pattern name cfg) w)
      = (c0 ← PyR.first (default [[5 # 10; 5 # 10; 5 # 10]] (cfg_colors cfg));
         Ok [])
      /\ render (with_pattern name cfg) config w
         = render (with_pattern "none" cfg) config w
      /\ render (with_pattern name cfg) config w
         = match pipeline (with_pattern "none" cfg) width height (rng w) with
           | Ok calls => Ok (canvas cfg width height calls)
           | Raise e => Raise e
           end
      /\ (cfg_colors cfg <> Some [] ->
          is_ok (render (with_pattern name cfg) config w) = true))
  /\ (name ∉ LogoGenerator.AVAILABLE_EFFECTS ->
      render (with_effects (es ++ name :: fs) cfg) config w
      = render (with_effects (es ++ fs) cfg) config w
      /\ render (with_effects (es ++ name :: fs) cfg) config w
         = match pipeline (with_effects (es ++ fs) cfg) width height
                   (rng w) with
           | Ok calls => Ok (canvas cfg width height calls)
           | Raise e => Raise e
           end
      /\ (usable cfg ->
          is_ok (render (with_effects (es ++ name :: fs) cfg) config w)
          = true))
  /\ (name ∉ LogoGenerator.AVAILABLE_TEMPLATES ->
      name ∉ LogoGenerator.AVAILABLE_PATTERNS ->
      name ∉ LogoGenerator.AVAILABLE_EFFECTS ->
      cfg_colors cfg <> Some [] ->
      is_ok (render (with_template name
                       (with_pattern name
                          (with_effects (es ++ name :: fs) cfg)))
               config w) = true).
Proof.
  intros width height.
  assert (Htemplate : name ∉ LogoGenerator.AVAILABLE_TEMPLATES ->
            render (with_template name cfg) config w
            = render (with_template "minimal_circle" cfg) config w).
  { intros Hnot. apply render_alike. unfold alike.
    cbn [with_template cfg_bg_color cfg_colors cfg_template cfg_pattern
         cfg_effects cfg_text cfg_subtitle cfg_fontfamily cfg_text_effect
         cfg_extra_shapes cfg_gradient_direction default].
    rewrite (unknown_template name Hnot).
    repeat (split; [reflexivity |]).
    split; [apply Forall_forall; reflexivity |].
    split; [apply Forall_forall; reflexivity |].
    repeat split; reflexivity. }
  assert (Hpattern : name ∉ LogoGenerator.AVAILABLE_PATTERNS ->
            render (with_pattern name cfg) config w
            = render (with_pattern "none" cfg) config w).
  { intros Hnot. apply render_alike. unfold alike.
    cbn [with_pattern cfg_bg_color cfg_colors cfg_template cfg_pattern
         cfg_effects cfg_text cfg_subtitle cfg_fontfamily cfg_text_effect
         cfg_extra_shapes cfg_gradient_direction default].
    repeat (split; [reflexivity |]).
    split; [apply unknown_pattern; exact Hnot |].
    split; [apply Forall_forall; reflexivity |].
    repeat split; reflexivity. }
  assert (Heffect : name ∉ LogoGenerator.AVAILABLE_EFFECTS ->
            render (with_effects (es ++ name :: fs) cfg) config w
            = render (with_effects (es ++ fs) cfg) config w).
  { intros Hnot. apply render_alike. unfold alike.
    cbn [with_effects cfg_bg_color cfg_colors cfg_template cfg_pattern
         cfg_effects cfg_text cfg_subtitle cfg_fontfamily cfg_text_effect
         cfg_extra_shapes cfg_gradient_direction default].
    repeat (split; [reflexivity |]).
    split; [apply Forall_forall; reflexivity |].
    split; [apply unknown_effect; exact Hnot |].
    repeat split; reflexivity. }
  split.
  { intros Hnot. unfold ColorPalette.get_preset.
    rewrite (unknown_preset name Hnot). split; reflexivity. }
  split.
  { intros Hnot.
    split.
    { rewrite template_draws, holding_here. unfold template_stage.
      cbn [with_template cfg_template cfg_colors cfg_text cfg_fontfamily
           default holding self_width self_height].
      rewrite (unknown_template name Hnot). reflexivity. }
    split; [exact (Htemplate Hnot) |].
    split; [rewrite (Htemplate Hnot), render_paints_pipeline; reflexivity |].
    intros Hu. apply render_completes. exact Hu. }
  split.
  { intros Hnot.
    split.
    { rewrite pattern_draws, holding_here. unfold pattern_stage.
      cbn [with_pattern cfg_pattern cfg_colors default].
      destruct (PyR.first _) as [c0|e]; [| reflexivity].
      cbn [mbind result_bind].
      rewrite !(unknown_differs name _ _ Hnot) by listed. reflexivity. }
    split; [exact (Hpattern Hnot) |].
    split; [rewrite (Hpattern Hnot), render_paints_pipeline; reflexivity |].
    intros Hc. apply render_completes. split; [exact Hc |].
    cbn [with_pattern cfg_pattern default].
    intros E. exfalso. apply Hnot. simpl in E. rewrite E. listed. }
  split.
  { intros Hnot.
    split; [exact (Heffect Hnot) |].
    split; [rewrite (Heffect Hnot), render_paints_pipeline; reflexivity |].
    intros Hu. apply render_completes. exact Hu. }
  intros _ Hpat _ Hc. apply render_completes. split; [exact Hc |].
  cbn [with_template with_pattern with_effects cfg_pattern default].
  intros E. exfalso. apply Hpat. simpl in E. rewrite E. listed.
Qed.

Lemma unknown_names_fall_back_witness :
  ColorPalette.get_preset "hologram" = ColorPalette.get_preset "corporate"
  /\ drawn_by (@LogoGenerator._apply_template rational_math) 0%nat
       (holding 0%nat (with_template "hologram" rich_config) rich_world)
     = LogoTemplate.minimal_circle 500 500
         [ [1 # 10; 2 # 10; 5 # 10]; [2 # 10; 4 # 10; 7 # 10];
           [8 # 10; 8 # 10; 85 # 100] ] "LOGO" "Arial"
  /\ @render rational_math (with_template "hologram" rich_config) 0%nat
       rich_world
     = @render rational_math (with_template "minimal_circle" rich_config)
         0%nat rich_world
  /\ is_ok (@render rational_math (with_template "hologram" rich_config)
              0%nat rich_world) = true
  /\ is_ok (@render rational_math (with_pattern "hologram" rich_config)
              0%nat rich_world) = true
  /\ is_ok (@render rational_math
              (with_template "hologram"
                 (with_pattern "hologram"
                    (with_effects (["glow"] ++ "hologram" :: ["particles"])
                       rich_config))) 0%nat rich_world) = true.
Proof.
  assert (Hnot : forall names : list string,
             (forallb (fun n => negb (String.eqb "hologram" n)) names = true) ->
             "hologram" ∉ names).
  { intros names Hall Hin. apply list_elem_of_In in Hin.
    rewrite forallb_forall in Hall. specialize (Hall _ Hin).
    rewrite String.eqb_refl in Hall. discriminate. }
  assert (Hu : @usable rational_math rich_config).
  { split; [discriminate |]. intros E. discriminate E. }
  destruct (@unknown_names_fall_back rational_math "hologram" rich_config
              0%nat rich_world ["glow"] ["particles"])
    as (Hpreset & Htemplate & Hpattern & _ & Hok).
  split; [apply Hpreset, Hnot; reflexivity |].
  destruct (Htemplate (Hnot LogoGenerator.AVAILABLE_TEMPLATES eq_refl)) as (Hdrawn & Hsame & _ & Hdone).
  split; [exact Hdrawn |].
  split; [exact Hsame |].
  split; [exact (Hdone Hu) |].
  destruct (Hpattern (Hnot LogoGenerator.AVAILABLE_PATTERNS eq_refl)) as (_ & _ & _ & Hpat).
  split; [apply Hpat; discriminate |].
  apply Hok; try (apply Hnot; reflexivity). discriminate.
Defined.


(** * Properties of the remaining functions *)

(** ** Ranges in closed form *)

Lemma range_up_seq (fuel : nat) (start : Z) :
  Py.range_up fuel start (start + Z.of_nat fuel) 1
  = map (fun k => (start + Z.of_nat k)%Z) (seq 0 fuel).
Proof.
  revert start. induction fuel as [|n IH]; intros start; [reflexivity |].
  cbn [Py.range_up].
  destruct (Z.ltb_spec start (start + Z.of_nat (S n))) as [_|Hge]; [| lia].
  cbn [seq map]. f_equal; [f_equal; lia |].
  replace (start + Z.of_nat (S n))%Z with (start + 1 + Z.of_nat n)%Z by lia.
  rewrite IH, <- seq_shift, map_map.
  apply map_ext. intros k. lia.
Qed.

Lemma range0_seq (n : Z) :
  Py.range0 n = map Z.of_nat (seq 0 (Z.to_nat n)).
Proof.
  unfold Py.range0.
  destruct (Z.le_gt_cases n 0) as [Hle|Hgt].
  - replace (Z.to_nat n) with 0%nat by lia. reflexivity.
  - pose proof (range_up_seq (Z.to_nat n) 0) as E.
    replace (0 + Z.of_nat (Z.to_nat n))%Z with n in E by lia.
    rewrite E. apply map_ext. intros k. lia.
Qed.

Lemma range_down_seq (fuel : nat) (start : Z) :
  Py.range_down fuel start (start - Z.of_nat fuel) (-1)
  = map (fun k => (start - Z.of_nat k)%Z) (seq 0 fuel).
Proof.
  revert start. induction fuel as [|n IH]; intros start; [reflexivity |].
  cbn [Py.range_down].
  destruct (Z.ltb_spec (start - Z.of_nat (S n)) start) as [_|Hge]; [| lia].
  cbn [seq map]. f_equal; [f_equal; lia |].
  replace (start - Z.of_nat (S n))%Z with (start + -1 - Z.of_nat n)%Z by lia.
  rewrite IH, <- seq_shift, map_map.
  apply map_ext. intros k. lia.
Qed.

(** [range(n, 0, -1)] counts down from [n] to 1. *)
Lemma countdown_seq (n : Z) :
  PyR.range n 0 (-1)
  = Ok (map (fun k => (n - Z.of_nat k)%Z) (seq 0 (Z.to_nat n))).
Proof.
  unfold PyR.range, Py.range. cbn [Z.eqb Z.ltb Z.compare].
  f_equal.
  destruct (Z.le_gt_cases n 0) as [Hle|Hgt].
  - replace (Z.to_nat (n - 0)) with 0%nat by lia.
    replace (Z.to_nat n) with 0%nat by lia. reflexivity.
  - pose proof (range_down_seq (Z.to_nat n) n) as E.
    replace (n - Z.of_nat (Z.to_nat n))%Z with 0%Z in E by lia.
    replace (Z.to_nat (n - 0)) with (Z.to_nat n) by lia. exact E.
Qed.


(** A loop whose body yields one item per iteration and cannot raise. *)
Lemma for_each_map {A B} (xs : list A) (f : A -> B) (body : A -> result (list B)) :
  (forall x, In x xs -> body x = Ok [f x]) ->
  for_each xs body = Ok (map f xs).
Proof.
  induction xs as [|x xs IH]; intros Hbody; [reflexivity |].
  cbn [for_each map]. rewrite (Hbody x (or_introl eq_refl)). simpl.
  rewrite IH by (intros y Hy; apply Hbody; right; exact Hy). reflexivity.
Qed.

(** ** ColorPalette: channel ranges *)

(** The three intermediate values of [hsv_to_rgb] lie between
    [v * (1 - s)] and [v]. *)
Lemma hsv_intermediates (f s v : Q) :
  0 <= f -> f <= 1 -> 0 <= s -> 0 <= v ->
  v * (1 - s) <= v * (1 - f * s) /\ v * (1 - f * s) <= v
  /\ v * (1 - s) <= v * (1 - (1 - f) * s) /\ v * (1 - (1 - f) * s) <= v
  /\ v * (1 - s) <= v.
Proof.
  intros Hf0 Hf1 Hs Hv.
  assert (H1 : 0 <= f * s) by (apply Qmult_le_0_compat; assumption).
  assert (H2 : 0 <= (1 - f) * s) by (apply Qmult_le_0_compat; [lra | assumption]).
  assert (H3 : 0 <= v * (f * s)) by (apply Qmult_le_0_compat; assumption).
  assert (H4 : 0 <= v * ((1 - f) * s)) by (apply Qmult_le_0_compat; assumption).
  assert (H5 : 0 <= v * s) by (apply Qmult_le_0_compat; assumption).
  assert (E1 : v * (1 - f * s) == v - v * (f * s)) by ring.
  assert (E2 : v * (1 - (1 - f) * s) == v - v * ((1 - f) * s)) by ring.
  assert (E3 : v * (1 - s) == v - v * s) by ring.
  assert (E4 : v * s == v * (f * s) + v * ((1 - f) * s)) by ring.
  rewrite E1, E2, E3. repeat split; lra.
Qed.

Lemma fraction_of_turn (h : Q) :
  0 <= h ->
  0 <= h * 6 - inject_Z (Py.int (h * 6))
  /\ h * 6 - inject_Z (Py.int (h * 6)) <= 1.
Proof.
  intros Hh. rewrite int_is_floor by lra.
  pose proof (Qfloor_le (h * 6)). pose proof (Qlt_floor (h * 6)) as H2.
  rewrite inject_Z_plus in H2. change (inject_Z 1) with 1 in H2.
  set (k := inject_Z (Qfloor (h * 6))) in *. split; lra.
Qed.

(** The channels of [hsv_to_rgb] for arguments in range. *)
Lemma hsv_channels (h s v : Q) :
  0 <= h -> 0 <= s <= 1 -> 0 <= v <= 1 ->
  length (ColorPalette.hsv_to_rgb h s v) = 3%nat
  /\ Forall (fun c => v * (1 - s) <= c <= v /\ 0 <= c <= 1)
       (ColorPalette.hsv_to_rgb h s v)
  /\ In v (ColorPalette.hsv_to_rgb h s v)
  /\ In (v * (1 - s)) (ColorPalette.hsv_to_rgb h s v).
Proof.
  intros Hh [Hs0 Hs1] [Hv0 Hv1].
  destruct (fraction_of_turn h Hh) as [Hf0 Hf1].
  destruct (hsv_intermediates _ s v Hf0 Hf1 Hs0 Hv0) as (Q1 & Q2 & T1 & T2 & P1).
  assert (P0 : 0 <= v * (1 - s)) by (apply Qmult_le_0_compat; lra).
  unfold ColorPalette.hsv_to_rgb.
  set (f := h * 6 - inject_Z (Py.int (h * 6))) in *.
  set (p := v * (1 - s)) in *.
  set (q := v * (1 - f * s)) in *.
  set (t := v * (1 - (1 - f) * s)) in *.
  repeat match goal with
         | |- context [if ?c then _ else _] => destruct c
         end;
    (split; [reflexivity |]);
    (split; [repeat constructor; lra |]);
    split; simpl; tauto.
Qed.

(** X1: for a hue that is not negative, a saturation in [0, 1] and a value
    in [0, 1], [hsv_to_rgb] returns three channels, all between
    [v * (1 - s)] and [v] and so within [0, 1]; the value [v] itself is one
    of the channels (the largest) and [v * (1 - s)] is another (the
    smallest). *)
Theorem hsv_to_rgb_value_is_the_largest_channel (h s v : Q) :
  0 <= h -> 0 <= s <= 1 -> 0 <= v <= 1 ->
  length (ColorPalette.hsv_to_rgb h s v) = 3%nat
  /\ Forall (fun c => v * (1 - s) <= c <= v /\ 0 <= c <= 1)
       (ColorPalette.hsv_to_rgb h s v)
  /\ In v (ColorPalette.hsv_to_rgb h s v)
  /\ In (v * (1 - s)) (ColorPalette.hsv_to_rgb h s v).
Proof. exact (hsv_channels h s v). Qed.

Lemma hsv_to_rgb_value_is_the_largest_channel_witness :
  length (ColorPalette.hsv_to_rgb (7 # 10) (1 # 2) (8 # 10)) = 3%nat
  /\ Forall (fun c => (8 # 10) * (1 - (1 # 2)) <= c <= 8 # 10 /\ 0 <= c <= 1)
       (ColorPalette.hsv_to_rgb (7 # 10) (1 # 2) (8 # 10))
  /\ In (8 # 10) (ColorPalette.hsv_to_rgb (7 # 10) (1 # 2) (8 # 10))
  /\ In ((8 # 10) * (1 - (1 # 2)))
       (ColorPalette.hsv_to_rgb (7 # 10) (1 # 2) (8 # 10)).
Proof.
  apply (hsv_to_rgb_value_is_the_largest_channel (7 # 10) (1 # 2) (8 # 10));
    [| split | split]; vm_compute; discriminate.
Defined.

Lemma brightness_clamp (x : Q) :
  0 <= Py.min 1 (Py.max 0 x) <= 1
  /\ (0 <= x <= 1 -> Py.min 1 (Py.max 0 x) == x).
Proof.
  unfold Py.min, Py.max.
  destruct (Qle_bool x 0) eqn:E0.
  - apply Qle_bool_iff in E0. simpl. split; [lra | intros; lra].
  - assert (H0 : ~ x <= 0) by (rewrite <- Qle_bool_iff; congruence).
    apply Qnot_le_lt in H0.
    destruct (Qle_bool 1 x) eqn:E1.
    + apply Qle_bool_iff in E1. split; [lra | intros; lra].
    + assert (H1 : ~ 1 <= x) by (rewrite <- Qle_bool_iff; congruence).
      apply Qnot_le_lt in H1. split; [lra | intros; lra].
Qed.

(** X2: [adjust_brightness] keeps the number of channels and returns every
    channel within [0, 1], whatever the colour and the factor (a factor of
    2 never pushes a channel above 1, a negative factor never below 0);
    with factor 1 a colour whose channels are within [0, 1] comes back
    unchanged. *)
Theorem adjust_brightness_stays_in_range (color : Color) (factor : Q) :
  length (ColorPalette.adjust_brightness color factor) = length color
  /\ Forall (fun c => 0 <= c <= 1)
       (ColorPalette.adjust_brightness color factor)
  /\ (Forall (fun c => 0 <= c <= 1) color ->
      color_eq (ColorPalette.adjust_brightness color 1) color).
Proof.
  unfold ColorPalette.adjust_brightness. split; [apply length_map |].
  split.
  - apply Forall_map, Forall_forall. intros c _. apply brightness_clamp.
  - intros Hin. unfold color_eq.
    induction Hin as [|c cs Hc _ IH]; [constructor |].
    cbn [map]. constructor; [| exact IH].
    destruct (brightness_clamp (c * 1)) as [_ Hid].
    rewrite Hid by lra. ring.
Qed.

(** X3: on a colour with at least three channels [adjust_opacity] returns
    four channels: the first three of the colour and then [alpha]; an alpha
    channel the colour already had is replaced, so that applying it twice
    is applying it with the last alpha. *)
Theorem adjust_opacity_sets_the_fourth_channel (color : Color) (alpha beta : Q) :
  (3 <= length color)%nat ->
  length (ColorPalette.adjust_opacity color alpha) = 4%nat
  /\ take 3 (ColorPalette.adjust_opacity color alpha) = take 3 color
  /\ ColorPalette.adjust_opacity color alpha !! 3%nat = Some alpha
  /\ ColorPalette.adjust_opacity (ColorPalette.adjust_opacity color alpha) beta
     = ColorPalette.adjust_opacity color beta.
Proof.
  intros Hlen. unfold ColorPalette.adjust_opacity, Py.slice_to.
  destruct color as [|r [|g [|b rest]]]; simpl in Hlen; try lia.
  repeat split; reflexivity.
Qed.

Lemma adjust_opacity_sets_the_fourth_channel_witness :
  length (ColorPalette.adjust_opacity [1; 0; 1 # 2; 1] (3 # 10)) = 4%nat
  /\ take 3 (ColorPalette.adjust_opacity [1; 0; 1 # 2; 1] (3 # 10))
     = take 3 [1; 0; 1 # 2; 1]
  /\ ColorPalette.adjust_opacity [1; 0; 1 # 2; 1] (3 # 10) !! 3%nat
     = Some (3 # 10)
  /\ ColorPalette.adjust_opacity
       (ColorPalette.adjust_opacity [1; 0; 1 # 2; 1] (3 # 10)) (7 # 10)
     = ColorPalette.adjust_opacity [1; 0; 1 # 2; 1] (7 # 10).
Proof.
  apply (adjust_opacity_sets_the_fourth_channel [1; 0; 1 # 2; 1] (3 # 10)
           (7 # 10)).
  simpl. lia.
Defined.

(** ** ColorPalette.generate_gradient_colors *)





(** ** ColorPalette.generate_harmonious: the palette *)

Lemma hsv_in_gamut (h s v : Q) :
  0 <= h -> 0 <= s <= 1 -> 0 <= v <= 1 ->
  in_gamut (ColorPalette.hsv_to_rgb h s v).
Proof.
  intros Hh Hs Hv.
  destruct (hsv_channels h s v Hh Hs Hv) as (Hlen & Hall & _).
  split; [exact Hlen |].
  eapply Forall_impl; [exact Hall |]. intros c [_ Hc]. exact Hc.
Qed.

Lemma colors_of_hues_run (hues : list Q) (sat val : Q) (st : Random.State) :
  Forall (fun h => 0 <= h) hues ->
  exists cs,
    ColorPalette.colors_of_hues hues sat val st
    = (Ok cs, advanced (2 * length hues) st)
    /\ length cs = length hues
    /\ Forall in_gamut cs.
Proof.
  intros Hh. revert st.
  induction Hh as [|h hues Hh0 _ IH]; intros st.
  - exists []. repeat split. constructor.
  - cbn [ColorPalette.colors_of_hues].
    cbv [mbind R_bind mret R_ret]. unfold Random.bind at 1.
    rewrite uniform_run. unfold Random.bind at 1. rewrite uniform_run.
    unfold Random.bind at 1.
    destruct (IH (Random.advance (Random.advance st))) as (cs & E & Hlen & Hall).
    rewrite E. eexists. split.
    { unfold Random.ret. f_equal.
      replace (2 * length (h :: hues))%nat with (S (S (2 * length hues)))
        by (simpl; lia).
      reflexivity. }
    split; [simpl; lia |].
    constructor; [| exact Hall].
    apply hsv_in_gamut; [exact Hh0 | apply clamp01_bounds ..].
Qed.

Lemma unit_float_range (n : N) :
  0 <= Random.unit_float n /\ Random.unit_float n < 1.
Proof.
  unfold Random.unit_float.
  pose proof (N.mod_upper_bound n (2 ^ 53)%N ltac:(discriminate)) as Hlt.
  set (m := (n mod 2 ^ 53)%N) in *.
  split.
  - unfold Qle. simpl. lia.
  - unfold Qlt. simpl.
    assert (Z.of_N m < Z.of_N (2 ^ 53)%N)%Z by lia.
    change (Z.of_N (2 ^ 53)%N) with (Zpos (2 ^ 53)) in H. lia.
Qed.

Lemma harmony_hues_nonnegative (rule : string) (h : Q) :
  0 <= h -> Forall (fun x => 0 <= x) (ColorPalette.harmony_hues rule h).
Proof.
  intros Hh. unfold ColorPalette.harmony_hues, ColorPalette.harmony_func.
  constructor; [exact Hh |].
  destruct (ColorPalette.HARMONY_RULES !! rule) as [f|] eqn:E.
  - unfold ColorPalette.HARMONY_RULES in E.
    apply elem_of_list_to_map_2 in E.
    apply list_elem_of_In in E. simpl in E.
    repeat (destruct E as [E|E]; [injection E as _ <-; cbn [default];
      repeat constructor; try apply mod1_range; exact Hh |]).
    contradiction.
  - cbn [default]. repeat constructor; apply mod1_range.
Qed.

Lemma harmony_func_unknown (rule : string) :
  rule ∉ LogoGenerator.AVAILABLE_HARMONY ->
  ColorPalette.harmony_func rule = ColorPalette.triadic_rule.
Proof.
  intros Hnot. unfold ColorPalette.harmony_func.
  assert (E : ColorPalette.HARMONY_RULES !! rule = None).
  { apply not_elem_of_list_to_map_1. intros Hin. apply Hnot.
    exact Hin. }
  rewrite E. reflexivity.
Qed.

Lemma harmony_func_cases (rule : string) :
  ((rule ∈ two_hue_rules)
   /\ forall h, length (ColorPalette.harmony_func rule h) = 1%nat)
  \/ (rule = "tetradic"
      /\ forall h, length (ColorPalette.harmony_func rule h) = 3%nat)
  \/ ((rule ∉ two_hue_rules) /\ rule <> "tetradic"
      /\ forall h, length (ColorPalette.harmony_func rule h) = 2%nat).
Proof.
  unfold ColorPalette.harmony_func.
  destruct (ColorPalette.HARMONY_RULES !! rule) as [f|] eqn:E.
  - unfold ColorPalette.HARMONY_RULES in E.
    apply elem_of_list_to_map_2 in E.
    apply list_elem_of_In in E. simpl in E.
    destruct E as [E|[E|[E|[E|[E|[E|[]]]]]]]; injection E as <- <-;
      cbn [default].
    + left. split; [unfold two_hue_rules; listed | reflexivity].
    + right; right. split; [| split; [discriminate | reflexivity]].
      unfold two_hue_rules. intros Hin. apply list_elem_of_In in Hin.
      simpl in Hin. destruct Hin as [?|[?|[]]]; discriminate.
    + right; right. split; [| split; [discriminate | reflexivity]].
      unfold two_hue_rules. intros Hin. apply list_elem_of_In in Hin.
      simpl in Hin. destruct Hin as [?|[?|[]]]; discriminate.
    + right; right. split; [| split; [discriminate | reflexivity]].
      unfold two_hue_rules. intros Hin. apply list_elem_of_In in Hin.
      simpl in Hin. destruct Hin as [?|[?|[]]]; discriminate.
    + right; left. split; reflexivity.
    + left. split; [unfold two_hue_rules; listed | reflexivity].
  - cbn [default].
    assert (Hnot : forall n, n ∈ LogoGenerator.AVAILABLE_HARMONY -> rule <> n).
    { intros n Hn ->. apply (not_elem_of_list_to_map_2 _ _ E).
      exact Hn. }
    right; right. split; [| split; [| reflexivity]].
    + unfold two_hue_rules. intros Hin. apply list_elem_of_In in Hin.
      simpl in Hin.
      destruct Hin as [<-|[<-|[]]];
        [apply (Hnot "complementary") | apply (Hnot "monochromatic")];
        try reflexivity; unfold LogoGenerator.AVAILABLE_HARMONY; listed.
    + apply Hnot. unfold LogoGenerator.AVAILABLE_HARMONY. listed.
Qed.

(** The palette of [generate_harmonious]. *)
Lemma harmonious_palette
    (base_hue : option Q) (rule : string) (sat val : Q) (st : Random.State) :
  match base_hue with Some h => 0 <= h | None => True end ->
  exists cs st',
    ColorPalette.generate_harmonious base_hue rule sat val st = (Ok cs, st')
    /\ Forall in_gamut cs
    /\ (rule ∈ two_hue_rules -> length cs = 2%nat)
    /\ (rule = "tetradic" -> length cs = 4%nat)
    /\ (rule ∉ two_hue_rules -> rule <> "tetradic" -> length cs = 3%nat)
    /\ (rule ∉ LogoGenerator.AVAILABLE_HARMONY ->
        ColorPalette.generate_harmonious base_hue rule sat val st
        = ColorPalette.generate_harmonious base_hue "triadic" sat val st).
Proof.
  intros Hbase.
  assert (Hrun : exists h st1,
             0 <= h
             /\ forall r,
                 ColorPalette.generate_harmonious base_hue r sat val st
                 = ColorPalette.colors_of_hues (ColorPalette.harmony_hues r h)
                     sat val st1).
  { destruct base_hue as [h|].
    - exists h, st. split; [exact Hbase | reflexivity].
    - exists (Random.unit_float (st O)), (Random.advance st).
      split; [apply unit_float_range | reflexivity]. }
  destruct Hrun as (h & st1 & Hh & Hrun).
  destruct (colors_of_hues_run (ColorPalette.harmony_hues rule h) sat val st1
              (harmony_hues_nonnegative rule h Hh))
    as (cs & E & Hlen & Hall).
  exists cs, (advanced (2 * length (ColorPalette.harmony_hues rule h)) st1).
  split; [rewrite Hrun; exact E |].
  split; [exact Hall |].
  assert (Hsize : length cs = S (length (ColorPalette.harmony_func rule h))).
  { rewrite Hlen. reflexivity. }
  destruct (harmony_func_cases rule) as [[H2 Hn]|[[H4 Hn]|(N2 & N4 & Hn)]];
    rewrite Hn in Hsize.
  - split; [intros _; exact Hsize |].
    split; [intros ->; apply list_elem_of_In in H2; simpl in H2;
            destruct H2 as [?|[?|[]]]; discriminate |].
    split; [intros Hnot; contradiction |].
    intros Hnot. rewrite !Hrun. unfold ColorPalette.harmony_hues.
    rewrite (harmony_func_unknown rule Hnot). reflexivity.
  - split; [intros H2; subst rule; apply list_elem_of_In in H2; simpl in H2;
            destruct H2 as [?|[?|[]]]; discriminate |].
    split; [intros _; exact Hsize |].
    split; [intros _ Hnot; contradiction |].
    intros Hnot. rewrite !Hrun. unfold ColorPalette.harmony_hues.
    rewrite (harmony_func_unknown rule Hnot). reflexivity.
  - split; [intros H2; contradiction |].
    split; [intros H4; contradiction |].
    split; [intros _ _; exact Hsize |].
    intros Hnot. rewrite !Hrun. unfold ColorPalette.harmony_hues.
    rewrite (harmony_func_unknown rule Hnot). reflexivity.
Qed.

(** X5: when the base hue is not negative (or is left to be drawn at
    random), [generate_harmonious] returns a palette and every colour in it
    has three channels within [0, 1].  The palette has two colours for the
    rules "complementary" and "monochromatic", four for "tetradic" and three
    for every other rule name; a rule name that is not in [HARMONY_RULES]
    gives what "triadic" gives. *)
Theorem harmonious_palette_is_in_gamut
    (base_hue : option Q) (rule : string) (sat val : Q) (st : Random.State) :
  match base_hue with Some h => 0 <= h | None => True end ->
  exists cs st',
    ColorPalette.generate_harmonious base_hue rule sat val st = (Ok cs, st')
    /\ Forall in_gamut cs
    /\ (rule ∈ two_hue_rules -> length cs = 2%nat)
    /\ (rule = "tetradic" -> length cs = 4%nat)
    /\ (rule ∉ two_hue_rules -> rule <> "tetradic" -> length cs = 3%nat)
    /\ (rule ∉ LogoGenerator.AVAILABLE_HARMONY ->
        ColorPalette.generate_harmonious base_hue rule sat val st
        = ColorPalette.generate_harmonious base_hue "triadic" sat val st).
Proof. exact (harmonious_palette base_hue rule sat val st). Qed.

Lemma harmonious_palette_is_in_gamut_witness :
  exists cs st',
    ColorPalette.generate_harmonious (Some (2 # 10)) "tetradic" (7 # 10)
      (85 # 100) seed_42 = (Ok cs, st')
    /\ Forall in_gamut cs
    /\ length cs = 4%nat.
Proof.
  destruct (harmonious_palette_is_in_gamut (Some (2 # 10)) "tetradic"
              (7 # 10) (85 # 100) seed_42)
    as (cs & st' & E & Hall & _ & H4 & _).
  { vm_compute. discriminate. }
  exists cs, st'. split; [exact E |]. split; [exact Hall |].
  apply H4. reflexivity.
Defined.

(** ** PatternGenerator *)

Lemma range_up_In (fuel : nat) (start stop step x : Z) :
  (0 < step)%Z ->
  In x (Py.range_up fuel start stop step) ->
  exists k, (0 <= k)%Z /\ x = (start + k * step)%Z /\ (x < stop)%Z.
Proof.
  intros Hstep. revert start.
  induction fuel as [|n IH]; intros start; simpl; [contradiction |].
  destruct (Z.ltb_spec start stop) as [Hs|Hs]; [| contradiction].
  intros [<-|Hin].
  - exists 0%Z. lia.
  - destruct (IH _ Hin) as (k & Hk & -> & Hlt).
    exists (k + 1)%Z. lia.
Qed.

(** The values of [range(0, stop, step)] for a positive step. *)
Lemma range_from_0 (stop step : Z) :
  (0 < step)%Z ->
  exists l, PyR.range 0 stop step = Ok l
            /\ forall x, In x l <->
                 exists k, (0 <= k)%Z /\ x = (k * step)%Z /\ (x < stop)%Z.
Proof.
  intros Hstep. unfold PyR.range, Py.range.
  destruct (Z.eqb_spec step 0) as [?|_]; [lia |].
  destruct (Z.ltb_spec 0 step) as [_|?]; [| lia].
  eexists. split; [reflexivity |]. intros x. split.
  - intros Hin. destruct (range_up_In _ _ _ _ _ Hstep Hin) as (k & Hk & -> & Hlt).
    exists k. lia.
  - intros (k & Hk & -> & Hlt).
    replace (k * step)%Z with (0 + k * step)%Z by lia.
    apply range_up_complete; lia.
Qed.

(** A loop whose body cannot raise yields the calls of its iterations one
    after the other. *)
Lemma for_each_flat {A B} (xs : list A) (g : A -> list B)
    (body : A -> result (list B)) :
  (forall x, In x xs -> body x = Ok (g x)) ->
  for_each xs body = Ok (flat_map g xs).
Proof.
  induction xs as [|x xs IH]; intros Hbody; [reflexivity |].
  cbn [for_each flat_map]. rewrite (Hbody x (or_introl eq_refl)). simpl.
  rewrite IH by (intros y Hy; apply Hbody; right; exact Hy). reflexivity.
Qed.

(** X6: with a positive spacing [draw_dots] draws a dot exactly at the
    points [(i * spacing, j * spacing)] with [i, j >= 0],
    [i * spacing < width + spacing] and [j * spacing < height + spacing]:
    the lattice covers the canvas and overshoots it by less than one
    spacing; every dot has the given radius and fill colour. *)
Theorem dots_lie_on_the_spacing_lattice
    (width height : Z) (color : Color) (spacing : Z) (radius : Q) :
  (0 < spacing)%Z ->
  exists es,
    PatternGenerator.draw_dots width height color spacing radius = Ok es
    /\ forall e, In e es <->
         exists i j,
           (0 <= i)%Z /\ (0 <= j)%Z
           /\ (i * spacing < width + spacing)%Z
           /\ (j * spacing < height + spacing)%Z
           /\ e = filled (Circle radius (fl (i * spacing), fl (j * spacing)))
                    color.
Proof.
  intros Hs. unfold PatternGenerator.draw_dots.
  destruct (range_from_0 (width + spacing) spacing Hs) as (xs & Ex & Hxs).
  destruct (range_from_0 (height + spacing) spacing Hs) as (ys & Ey & Hys).
  rewrite Ex, Ey. cbn [mbind result_bind].
  rewrite (for_each_flat xs
             (fun x => map (fun y => filled (Circle radius (fl x, fl y)) color)
                         ys)) by reflexivity.
  eexists. split; [reflexivity |].
  intros e. rewrite in_flat_map. split.
  - intros (x & Hx & He). apply in_map_iff in He. destruct He as (y & <- & Hy).
    apply Hxs in Hx. apply Hys in Hy.
    destruct Hx as (i & Hi & -> & Hxlt), Hy as (j & Hj & -> & Hylt).
    exists i, j. repeat split; assumption.
  - intros (i & j & Hi & Hj & Hxlt & Hylt & ->).
    exists (i * spacing)%Z. split; [apply Hxs; exists i; auto |].
    apply in_map_iff. exists (j * spacing)%Z.
    split; [reflexivity | apply Hys; exists j; auto].
Qed.

Lemma dots_lie_on_the_spacing_lattice_witness :
  exists es,
    PatternGenerator.draw_dots 50 50 [1; 1; 1] 25 2 = Ok es
    /\ forall e, In e es <->
         exists i j,
           (0 <= i)%Z /\ (0 <= j)%Z
           /\ (i * 25 < 50 + 25)%Z /\ (j * 25 < 50 + 25)%Z
           /\ e = filled (Circle 2 (fl (i * 25), fl (j * 25))) [1; 1; 1].
Proof.
  apply (dots_lie_on_the_spacing_lattice 50 50 [1; 1; 1] 25 2). lia.
Defined.

(** X7: a spacing of zero makes [draw_dots], [draw_lines] and [draw_grid]
    raise [ValueError] (the step of their [range]), whatever the other
    arguments; nothing is drawn. *)
Theorem zero_spacing_raises_value_error `{MathLib}
    (width height : Z) (color : Color) (radius stroke_width angle : Q) :
  PatternGenerator.draw_dots width height color 0 radius = Raise ValueError
  /\ PatternGenerator.draw_lines width height color 0 stroke_width angle
     = Raise ValueError
  /\ PatternGenerator.draw_grid width height color 0 stroke_width
     = Raise ValueError.
Proof. repeat split. Qed.


Lemma nonzero_of_positive (z : Z) : (0 < z)%Z -> ~ fl z == 0.
Proof.
  intros Hz E. rewrite (Zlt_Qlt 0 z) in Hz. change (inject_Z 0) with 0 in Hz.
  lra.
Qed.

Lemma div_by_zero (a b : Q) : b == 0 -> PyR.div a b = Raise ZeroDivisionError.
Proof.
  intros Hb. unfold PyR.div. apply Qeq_bool_iff in Hb. rewrite Hb.
  reflexivity.
Qed.

(** X9: [draw_hexagon_pattern] raises [ZeroDivisionError] when
    [size * sqrt(3)] is zero (a size of 0) and raises nothing otherwise;
    every element it draws is then an unfilled outline of six corners that
    returns to its first point, stroked in the given colour. *)
Theorem hexagon_pattern_needs_a_nonzero_size `{MathLib}
    (width height : Z) (color : Color) (size sw : Q) :
  (size * m_sqrt 3 == 0 ->
   PatternGenerator.draw_hexagon_pattern width height color size sw
   = Raise ZeroDivisionError)
  /\ (~ size * m_sqrt 3 == 0 ->
      exists es,
        PatternGenerator.draw_hexagon_pattern width height color size sw
        = Ok es
        /\ Forall (fun e => closed_outline 6 e
                            /\ fill e = None /\ stroke e = Some color
                            /\ stroke_width e = Some sw) es).
Proof.
  unfold PatternGenerator.draw_hexagon_pattern. split.
  - intros E. rewrite (div_by_zero (fl height) (size * m_sqrt 3)) by exact E.
    reflexivity.
  - intros Hne. rewrite (div_ok (fl height) (size * m_sqrt 3)) by exact Hne.
    cbn [mbind result_bind].
    match goal with |- context [PyR.range ?a ?b 1] =>
      destruct (range_ok a b 1) as [rows ->]; [discriminate |]
    end.
    cbn [mbind result_bind].
    assert (Hsize : ~ size * (15 # 10) == 0).
    { intros E. apply Hne. apply Qmult_integral in E.
      destruct E as [E|E]; [rewrite E; ring | discriminate]. }
    rewrite (div_ok (fl width) (size * (15 # 10))) by exact Hsize.
    cbn [mbind result_bind].
    match goal with |- context [PyR.range ?a ?b 1] =>
      destruct (range_ok a b 1) as [cols ->]; [discriminate |]
    end.
    cbn [mbind result_bind].
    match goal with
    | |- context [for_each rows (fun row => for_each cols (@?body row))] =>
        pose (cell := fun row col =>
                match body row col with
                | Ok [e] => e
                | _ => filled (Circle 0 (0, 0)) []
                end)
    end.
    rewrite (for_each_flat rows (fun row => map (cell row) cols)).
    2:{ intros row _. apply for_each_map. intros col _. reflexivity. }
    eexists. split; [reflexivity |].
    apply Forall_forall. intros e He.
    apply list_elem_of_In, in_flat_map in He. destruct He as (row & _ & He).
    apply in_map_iff in He. destruct He as (col & <- & _).
    unfold cell, closed_outline. cbn. repeat split.
Qed.

Lemma closed_polyline_run (p0 : Point) (rest : list Point) (xy : Point)
    (fill stroke : option Color) (sw : Q) :
  ShapeFactory.closed_polyline (p0 :: rest) xy fill stroke sw
  = Ok {| shape := Polyline ((p0 :: rest) ++ [p0]) xy true;
          fill := fill; stroke := stroke; stroke_width := Some sw |}.
Proof. reflexivity. Qed.

Lemma circle_point `{MathLib} (r a : Q) :
  on_unit_circle ->
  dist_sq (r * m_cos a, r * m_sin a) (0, 0) == r * r.
Proof.
  intros Hc. unfold dist_sq. cbn [fst snd].
  transitivity (r * r * (m_cos a * m_cos a + m_sin a * m_sin a)); [ring |].
  pose proof (Hc a) as E. rewrite E. ring.
Qed.

(** X10: for at least one side [create_polygon] returns a closed outline of
    [sides] corners that returns to its first point, and (the [math] module
    satisfying [cos^2 + sin^2 = 1]) every corner lies at distance [radius]
    from the centre of the shape; for zero or a negative number of sides it
    raises [IndexError]. *)
Theorem polygon_corners_lie_on_the_circle `{MathLib}
    (sides : Z) (radius : Q) (xy : Point) (fill stroke : option Color)
    (sw rotation : Q) :
  on_unit_circle ->
  ((sides <= 0)%Z ->
   ShapeFactory.create_polygon sides radius xy fill stroke sw rotation
   = Raise IndexError)
  /\ ((1 <= sides)%Z ->
      exists points,
        ShapeFactory.create_polygon sides radius xy fill stroke sw rotation
        = Ok {| shape := Polyline points xy true; fill := fill;
                stroke := stroke; stroke_width := Some sw |}
        /\ length points = S (Z.to_nat sides)
        /\ head points = last points
        /\ Forall (fun p => dist_sq p (0, 0) == radius * radius) points).
Proof.
  intros Hc. unfold ShapeFactory.create_polygon. rewrite range0_seq. split.
  - intros Hs. replace (Z.to_nat sides) with 0%nat by lia. reflexivity.
  - intros Hs.
    set (corner := fun i : Z =>
           (radius * m_cos (2 * m_pi * fl i / fl sides + rotation),
            radius * m_sin (2 * m_pi * fl i / fl sides + rotation))).
    rewrite (for_each_map _ corner).
    2:{ intros i _. rewrite div_ok by (apply nonzero_of_positive; lia).
        reflexivity. }
    cbn [mbind result_bind]. rewrite map_map.
    destruct (Z.to_nat sides) as [|n] eqn:En; [lia |].
    cbn [seq map]. rewrite closed_polyline_run.
    eexists. split; [reflexivity |].
    split; [rewrite length_app, length_cons, length_map, length_seq; simpl; lia |].
    split; [rewrite last_snoc; reflexivity |].
    apply Forall_app. split; [| repeat constructor; apply circle_point, Hc].
    constructor; [apply circle_point, Hc |].
    apply Forall_map, Forall_forall. intros k _. apply circle_point, Hc.
Qed.

Lemma rational_math_on_unit_circle : @on_unit_circle rational_math.
Proof.
  intros a. cbn [m_cos m_sin rational_math].
  assert (0 <= a * a) by (destruct (Qlt_le_dec a 0); nra).
  field. lra.
Qed.

Lemma polygon_corners_lie_on_the_circle_witness :
  exists points,
    @ShapeFactory.create_polygon rational_math 6 40 (250, 250)
      (Some [1; 0; 0]) None 0 0
    = Ok {| shape := Polyline points (250, 250) true;
            fill := Some [1; 0; 0]; stroke := None;
            stroke_width := Some 0 |}
    /\ length points = 7%nat
    /\ head points = last points
    /\ Forall (fun p => dist_sq p (0, 0) == 40 * 40) points.
Proof.
  apply (@polygon_corners_lie_on_the_circle rational_math 6 40 (250, 250)
           (Some [1; 0; 0]) None 0 0 rational_math_on_unit_circle).
  lia.
Defined.

Lemma even_index (k : nat) : (Z.of_nat k mod 2 =? 0)%Z = Nat.even k.
Proof.
  destruct (Nat.even k) eqn:E.
  - apply Nat.even_spec in E. destruct E as [m ->].
    apply Z.eqb_eq. rewrite Nat2Z.inj_mul, Z.mul_comm. apply Z_mod_mult.
  - apply Z.eqb_neq. intros Hz.
    assert (Ho : Nat.odd k = true) by (rewrite <- Nat.negb_even, E; reflexivity).
    apply Nat.odd_spec in Ho. destruct Ho as [m ->].
    rewrite Nat2Z.inj_add, Nat2Z.inj_mul in Hz.
    rewrite Z.add_comm, Z.mul_comm, Z_mod_plus_full in Hz. discriminate.
Qed.

(** X11: for at least one point [create_star] returns a closed outline of
    [2 * points_count] corners that returns to its first point; the corners
    alternate between the outer radius (even positions, the first corner
    included) and the inner radius (odd positions), measured from the
    centre of the shape.  For zero or a negative number of points it raises
    [IndexError]. *)
Theorem star_corners_alternate_between_the_two_radii `{MathLib}
    (points_count : Z) (outer_radius inner_radius : Q) (xy : Point)
    (fill stroke : option Color) (sw rotation : Q) :
  on_unit_circle ->
  ((points_count <= 0)%Z ->
   ShapeFactory.create_star points_count outer_radius inner_radius xy fill
     stroke sw rotation = Raise IndexError)
  /\ ((1 <= points_count)%Z ->
      exists points,
        ShapeFactory.create_star points_count outer_radius inner_radius xy
          fill stroke sw rotation
        = Ok {| shape := Polyline points xy true; fill := fill;
                stroke := stroke; stroke_width := Some sw |}
        /\ length points = S (2 * Z.to_nat points_count)
        /\ head points = last points
        /\ forall k p,
             (k < 2 * Z.to_nat points_count)%nat ->
             points !! k = Some p ->
             dist_sq p (0, 0)
             == if Nat.even k then outer_radius * outer_radius
                else inner_radius * inner_radius).
Proof.
  intros Hc. unfold ShapeFactory.create_star. rewrite range0_seq. split.
  - intros Hs. replace (Z.to_nat (points_count * 2)) with 0%nat by lia.
    reflexivity.
  - intros Hs.
    set (corner := fun i : Z =>
           let angle := m_pi * fl i / fl points_count + rotation - m_pi / 2 in
           let r := if (i mod 2 =? 0)%Z then outer_radius else inner_radius in
           (r * m_cos angle, r * m_sin angle)).
    rewrite (for_each_map _ corner).
    2:{ intros i _. rewrite div_ok by (apply nonzero_of_positive; lia).
        reflexivity. }
    cbn [mbind result_bind]. rewrite map_map.
    replace (Z.to_nat (points_count * 2)) with (2 * Z.to_nat points_count)%nat
      by lia.
    set (m := (2 * Z.to_nat points_count)%nat).
    assert (Hm : (0 < m)%nat) by (unfold m; lia).
    destruct m as [|n] eqn:En; [lia |].
    cbn [seq map]. rewrite closed_polyline_run.
    eexists. split; [reflexivity |].
    split; [rewrite length_app, length_cons, length_map, length_seq; simpl; lia |].
    split; [rewrite last_snoc; reflexivity |].
    intros k p Hk Hp.
    rewrite lookup_app_l in Hp
      by (rewrite length_cons, length_map, length_seq; lia).
    change (corner (Z.of_nat 0) :: map (fun x => corner (Z.of_nat x)) (seq 1 n))
      with (map (fun x => corner (Z.of_nat x)) (seq 0 (S n))) in Hp.
    rewrite list_lookup_fmap, lookup_seq_lt in Hp by lia.
    injection Hp as <-. unfold corner. cbv zeta.
    rewrite even_index. cbn [Nat.add].
    rewrite circle_point by exact Hc.
    destruct (Nat.even k); reflexivity.
Qed.

Lemma star_corners_alternate_between_the_two_radii_witness :
  exists points,
    @ShapeFactory.create_star rational_math 5 30 15 (250, 250)
      (Some [1; 1; 0]) None 0 0
    = Ok {| shape := Polyline points (250, 250) true;
            fill := Some [1; 1; 0]; stroke := None;
            stroke_width := Some 0 |}
    /\ length points = 11%nat
    /\ head points = last points
    /\ forall k p,
         (k < 10)%nat ->
         points !! k = Some p ->
         dist_sq p (0, 0) == if Nat.even k then 30 * 30 else 15 * 15.
Proof.
  apply (@star_corners_alternate_between_the_two_radii rational_math 5 30 15
           (250, 250) (Some [1; 1; 0]) None 0 0 rational_math_on_unit_circle).
  lia.
Defined.

(** X12: [create_spiral] returns [None] when [int(turns * 100)] is at most 1
    (fewer than two points); otherwise it returns an open polyline of
    [int(turns * 100)] points that starts at the centre and whose points lie
    at the distances [max_radius * t] from it for fractions [0 <= t < 1]:
    the spiral never reaches [max_radius]. *)
Theorem spiral_starts_at_the_centre_and_stays_inside `{MathLib}
    (center : Point) (max_radius turns : Q) (xy : Point) (stroke : Color)
    (sw : Q) :
  on_unit_circle ->
  ((Py.int (turns * 100) <= 1)%Z ->
   ShapeFactory.create_spiral center max_radius turns xy stroke sw = Ok None)
  /\ ((2 <= Py.int (turns * 100))%Z ->
      exists points,
        ShapeFactory.create_spiral center max_radius turns xy stroke sw
        = Ok (Some (stroked (Polyline points xy false) stroke sw))
        /\ length points = Z.to_nat (Py.int (turns * 100))
        /\ (exists p0, head points = Some p0 /\ dist_sq p0 center == 0)
        /\ Forall (fun p =>
                     exists t, 0 <= t /\ t < 1
                               /\ dist_sq p center
                                  == (max_radius * t) * (max_radius * t))
             points).
Proof.
  intros Hc. unfold ShapeFactory.create_spiral.
  set (steps := Py.int (turns * 100)). cbv zeta. rewrite range0_seq.
  set (point := fun i : Z =>
         let t := fl i / fl steps in
         (fst center + max_radius * t * m_cos (turns * 2 * m_pi * t),
          snd center + max_radius * t * m_sin (turns * 2 * m_pi * t))).
  assert (Hpoints : for_each (map Z.of_nat (seq 0 (Z.to_nat steps)))
            (fun i => t ← PyR.div (fl i) (fl steps);
               Ok [(fst center + max_radius * t * m_cos (turns * 2 * m_pi * t),
                    snd center + max_radius * t * m_sin (turns * 2 * m_pi * t))])
          = Ok (map point (map Z.of_nat (seq 0 (Z.to_nat steps))))).
  { apply for_each_map. intros i Hi. apply in_map_iff in Hi.
    destruct Hi as (k & <- & Hk). apply in_seq in Hk.
    rewrite div_ok by (apply nonzero_of_positive; lia). reflexivity. }
  rewrite Hpoints. cbn [mbind result_bind].
  rewrite !length_map, length_seq.
  assert (Hdist : forall i, dist_sq (point i) center
                            == (max_radius * (fl i / fl steps))
                               * (max_radius * (fl i / fl steps))).
  { intros i. unfold point, dist_sq. cbv zeta. cbn [fst snd].
    set (t := fl i / fl steps). set (a := turns * 2 * m_pi * t).
    transitivity ((max_radius * t) * (max_radius * t)
                  * (m_cos a * m_cos a + m_sin a * m_sin a)); [ring |].
    pose proof (Hc a) as E. rewrite E. ring. }
  split.
  - intros Hs. destruct (Z.ltb_spec 1 (Z.of_nat (Z.to_nat steps))) as [?|_];
      [lia | reflexivity].
  - intros Hs. destruct (Z.ltb_spec 1 (Z.of_nat (Z.to_nat steps))) as [_|?];
      [| lia].
    eexists. split; [reflexivity |].
    split; [rewrite !length_map, length_seq; reflexivity |].
    split.
    + destruct (Z.to_nat steps) as [|n] eqn:En; [lia |].
      eexists. split; [reflexivity |].
      rewrite Hdist. change (fl (Z.of_nat 0)) with 0. field.
      apply nonzero_of_positive. lia.
    + rewrite map_map. apply Forall_map, Forall_forall. intros k Hk.
      apply list_elem_of_In, in_seq in Hk.
      exists (fl (Z.of_nat k) / fl steps).
      assert (Hpos : 0 < fl steps).
      { change 0 with (inject_Z 0). rewrite <- Zlt_Qlt. lia. }
      split; [| split; [| apply Hdist]].
      * apply Qle_shift_div_l; [exact Hpos |]. rewrite Qmult_0_l.
        change 0 with (inject_Z 0). rewrite <- Zle_Qle. lia.
      * apply Qlt_shift_div_r; [exact Hpos |]. rewrite Qmult_1_l.
        rewrite <- Zlt_Qlt. lia.
Qed.

Lemma spiral_starts_at_the_centre_and_stays_inside_witness :
  exists points,
    @ShapeFactory.create_spiral rational_math (0, 0) 50 (3 # 100) (250, 250)
      [0; 0; 0] 2
    = Ok (Some (stroked (Polyline points (250, 250) false) [0; 0; 0] 2))
    /\ length points = 3%nat
    /\ (exists p0, head points = Some p0 /\ dist_sq p0 (0, 0) == 0)
    /\ Forall (fun p =>
                 exists t, 0 <= t /\ t < 1
                           /\ dist_sq p (0, 0) == (50 * t) * (50 * t))
         points.
Proof.
  apply (@spiral_starts_at_the_centre_and_stays_inside rational_math (0, 0) 50
           (3 # 100) (250, 250) [0; 0; 0] 2 rational_math_on_unit_circle).
  vm_compute. discriminate.
Defined.

(** X13: [create_arrow] draws the arrow pointing right for every direction
    other than "up" (unknown directions included); both arrows are closed
    outlines of seven corners, and the arrow pointing up is the arrow
    pointing right turned by a quarter turn, corner by corner. *)
Theorem arrow_points_right_unless_told_up
    (size : Q) (xy : Point) (direction : string) (fill stroke : option Color)
    (sw : Q) :
  direction <> "up" ->
  ShapeFactory.create_arrow size xy direction fill stroke sw
  = ShapeFactory.create_arrow size xy "right" fill stroke sw
  /\ exists right up,
       ShapeFactory.create_arrow size xy "right" fill stroke sw = Ok right
       /\ ShapeFactory.create_arrow size xy "up" fill stroke sw = Ok up
       /\ closed_outline 7 right /\ closed_outline 7 up
       /\ Forall2 quarter_turn (points_of right) (points_of up).
Proof.
  intros Hdir. split.
  - unfold ShapeFactory.create_arrow.
    destruct (String.eqb_spec direction "right") as [->|_]; [reflexivity |].
    destruct (String.eqb_spec direction "up") as [->|_];
      [contradiction | reflexivity].
  - eexists. eexists. split; [reflexivity |]. split; [reflexivity |].
    split; [split; reflexivity |]. split; [split; reflexivity |].
    cbn [points_of shape].
    change (String.eqb "right" "right") with true.
    change (String.eqb "up" "right") with false.
    change (String.eqb "up" "up") with true.
    cbn [app].
    repeat (apply List.Forall2_cons;
            [unfold quarter_turn; cbn [fst snd]; split; ring |]).
    apply List.Forall2_nil.
Qed.

Lemma arrow_points_right_unless_told_up_witness :
  ShapeFactory.create_arrow 20 (100, 100) "left" (Some [1; 0; 0]) None 0
  = ShapeFactory.create_arrow 20 (100, 100) "right" (Some [1; 0; 0]) None 0.
Proof.
  apply (arrow_points_right_unless_told_up 20 (100, 100) "left"
           (Some [1; 0; 0]) None 0).
  discriminate.
Defined.

(** ** TextRenderer *)

(** [range(1, n + 1)] as the loop of [render_text_with_outline] runs it. *)
Lemma mults_seq (n : Z) :
  Py.range_up (Z.to_nat n) 1 (n + 1) 1
  = map (fun k => (1 + Z.of_nat k)%Z) (seq 0 (Z.to_nat n)).
Proof.
  destruct (Z.le_gt_cases n 0) as [Hle|Hgt].
  - replace (Z.to_nat n) with 0%nat by lia. reflexivity.
  - pose proof (range_up_seq (Z.to_nat n) 1) as E.
    replace (1 + Z.of_nat (Z.to_nat n))%Z with (n + 1)%Z in E by lia.
    exact E.
Qed.

(** X14: [render_text_with_outline] draws [8 * outline_width] copies of the
    text in the outline colour and then the text itself in the fill colour,
    so the text proper is the last call and lies on top of its outline.
    Every copy is displaced from the text position by whole pixels, at
    least 1 and at most [outline_width] in either direction; with an
    outline width of zero or less only the text itself is drawn. *)
Theorem outline_copies_lie_beneath_the_text
    (txt : string) (xy : Point) (fontsize : Q) (fontfamily : string)
    (fill_color outline_color : Color) (outline_width : Z) (angle : Q) :
  exists copies,
    TextRenderer.render_text_with_outline txt xy fontsize fontfamily
      fill_color outline_color outline_width angle
    = copies ++ [TextRenderer.text_elem txt fontfamily fontsize xy fill_color
                   angle "normal"]
    /\ length copies = (8 * Z.to_nat outline_width)%nat
    /\ Forall (fun e =>
                 exists dx dy,
                   (Z.abs dx <= outline_width)%Z
                   /\ (Z.abs dy <= outline_width)%Z
                   /\ (1 <= Z.max (Z.abs dx) (Z.abs dy))%Z
                   /\ e = TextRenderer.text_elem txt fontfamily fontsize
                            (fst xy + fl dx, snd xy + fl dy) outline_color
                            angle "normal")
         copies.
Proof.
  unfold TextRenderer.render_text_with_outline. rewrite mults_seq.
  eexists. split; [reflexivity |]. split.
  - unfold TextRenderer.outline_offsets. cbn [flat_map].
    rewrite !length_app, !length_map, length_seq. simpl. lia.
  - apply Forall_forall. intros e He.
    apply list_elem_of_In, in_flat_map in He. destruct He as (d & Hd & He).
    apply in_map_iff in He. destruct He as (mult & <- & Hm).
    apply in_map_iff in Hm. destruct Hm as (k & <- & Hk).
    apply in_seq in Hk.
    exists (fst d * (1 + Z.of_nat k))%Z, (snd d * (1 + Z.of_nat k))%Z.
    unfold TextRenderer.outline_offsets in Hd. simpl in Hd.
    repeat (destruct Hd as [<-|Hd]; [cbn [fst snd]; repeat split; lia |]).
    contradiction.
Qed.

(** The characters [render_curved_text] still has to draw, from the
    angle [current] on. *)
Lemma curved_chars_run `{MathLib} (chars : list ascii) (center_xy : Point)
    (radius current fontsize : Q) (fontfamily : string) (fill_color : Color) :
  ~ radius == 0 ->
  exists es,
    TextRenderer.curved_chars chars center_xy radius current fontsize
      fontfamily fill_color = Ok es
    /\ length es = length chars
    /\ forall k e,
         es !! k = Some e ->
         exists c a,
           chars !! k = Some c
           /\ a == current + fl (Z.of_nat k) * (fontsize * (6 # 10) / radius)
           /\ e = TextRenderer.text_elem (String c EmptyString) fontfamily
                    fontsize
                    (fst center_xy + radius * m_cos a,
                     snd center_xy + radius * m_sin a)
                    fill_color (a + m_pi / 2) "normal".
Proof.
  intros Hr. revert current.
  induction chars as [|c chars IH]; intros current.
  - exists []. split; [reflexivity |]. split; [reflexivity |].
    intros k e Hk. rewrite lookup_nil in Hk. discriminate.
  - cbn [TextRenderer.curved_chars]. rewrite div_ok by exact Hr.
    cbn [mbind result_bind].
    destruct (IH (current + fontsize * (6 # 10) / radius))
      as (es & E & Hlen & Hes).
    rewrite E. eexists. split; [reflexivity |].
    split; [simpl; rewrite Hlen; reflexivity |].
    intros [|k] e Hk.
    + injection Hk as <-. exists c, current.
      split; [reflexivity |]. split; [| reflexivity].
      change (fl (Z.of_nat 0)) with 0. ring.
    + destruct (Hes k e Hk) as (c' & a & Hc & Ha & He).
      exists c', a. split; [exact Hc |]. split; [| exact He].
      rewrite Ha, Nat2Z.inj_succ. unfold Z.succ. rewrite inject_Z_plus.
      change (inject_Z 1) with 1. field. exact Hr.
Qed.

(** X15: [render_curved_text] raises [ZeroDivisionError] for a radius of
    zero, also on the empty string.  Otherwise it draws the characters of
    the text one by one, in order, the [k]-th on the circle of the given
    radius at the angle [start_angle - total / 2 + k * step], where
    [step = fontsize * 0.6 / radius] and [total = len(text) * step], and
    turned by that angle plus a quarter turn. *)
Theorem curved_text_places_one_character_per_step `{MathLib}
    (text : string) (center_xy : Point) (radius start_angle fontsize : Q)
    (fontfamily : string) (fill_color : Color) :
  (radius == 0 ->
   TextRenderer.render_curved_text text center_xy radius start_angle fontsize
     fontfamily fill_color = Raise ZeroDivisionError)
  /\ (~ radius == 0 ->
      exists es,
        TextRenderer.render_curved_text text center_xy radius start_angle
          fontsize fontfamily fill_color = Ok es
        /\ length es = String.length text
        /\ forall k e,
             es !! k = Some e ->
             exists c a,
               list_ascii_of_string text !! k = Some c
               /\ a == start_angle
                       - fl (Z.of_nat (String.length text))
                         * (fontsize * (6 # 10) / radius) / 2
                       + fl (Z.of_nat k) * (fontsize * (6 # 10) / radius)
               /\ e = TextRenderer.text_elem (String c EmptyString)
                        fontfamily fontsize
                        (fst center_xy + radius * m_cos a,
                         snd center_xy + radius * m_sin a)
                        fill_color (a + m_pi / 2) "normal").
Proof.
  unfold TextRenderer.render_curved_text. split.
  - intros Hr. rewrite div_by_zero by exact Hr. reflexivity.
  - intros Hr. rewrite div_ok by exact Hr. cbn [mbind result_bind].
    match goal with
    | |- context [TextRenderer.curved_chars ?cs ?c ?r ?cur ?fs ?ff ?fc] =>
        destruct (curved_chars_run cs c r cur fs ff fc Hr)
          as (es & E & Hlen & Hes)
    end.
    exists es. split; [exact E |].
    split; [rewrite Hlen; apply length_list_ascii |].
    intros k e Hk. destruct (Hes k e Hk) as (c & a & Hc & Ha & He).
    exists c, a. split; [exact Hc |]. split; [| exact He].
    rewrite Ha. field. exact Hr.
Qed.

(** ** EffectsEngine *)

Lemma fraction_of_steps (steps : Z) (k : nat) :
  (k < Z.to_nat steps)%nat ->
  0 < fl (steps - Z.of_nat k) / fl steps
  /\ fl (steps - Z.of_nat k) / fl steps <= 1.
Proof.
  intros Hk.
  assert (Hpos : 0 < fl steps).
  { change 0 with (inject_Z 0). rewrite <- Zlt_Qlt. lia. }
  split.
  - apply Qlt_shift_div_l; [exact Hpos |]. rewrite Qmult_0_l.
    change 0 with (inject_Z 0). rewrite <- Zlt_Qlt. lia.
  - apply Qle_shift_div_r; [exact Hpos |]. rewrite Qmult_1_l.
    rewrite <- Zle_Qle. lia.
Qed.

(** The loops that count down from [steps] to 1 and divide by [steps]. *)
Lemma countdown_loop {B} (steps : Z) (f : Q -> B) :
  (idxs ← PyR.range steps 0 (-1);
   for_each idxs (fun i => t ← PyR.div (fl i) (fl steps); Ok [f t]))
  = Ok (map (fun k => f (fl (steps - Z.of_nat k) / fl steps))
          (seq 0 (Z.to_nat steps))).
Proof.
  rewrite countdown_seq. cbn [mbind result_bind].
  rewrite (for_each_map _ (fun i => f (fl i / fl steps))).
  2:{ intros i Hi. apply in_map_iff in Hi. destruct Hi as (k & <- & Hk).
      apply in_seq in Hk.
      rewrite div_ok by (apply nonzero_of_positive; lia). reflexivity. }
  rewrite map_map. reflexivity.
Qed.

Lemma lerp_at_0_cut (c1 c2 : Color) (t : Q) :
  t == 0 ->
  color_eq (zip_with (fun a b => a + (b - a) * t) c1 c2)
    (take (length c2) c1).
Proof.
  intros Ht. revert c2. unfold color_eq.
  induction c1 as [|a c1 IH]; intros [|b c2]; simpl; constructor.
  - rewrite Ht. ring.
  - apply IH.
Qed.

(** X16: [draw_radial_gradient] (and [draw_gradient_circle], which has the
    same body) never raises and draws [steps] filled discs around the same
    centre, largest first: for [t = (steps - k) / steps], so [0 < t <= 1],
    the [k]-th has radius [max_radius * t] and the colour
    [c1 + (c2 - c1) * (1 - t)] over the channels [c1], [c2] that both
    colours have.  The first disc has the full radius and is in [color1]
    cut to the channels [color2] also has, so in [color1] itself when
    [color2] has at least as many channels; later discs lie on top of it.
    With [steps <= 0] nothing is drawn. *)
Theorem radial_gradient_draws_the_largest_disc_first
    (center : Point) (max_radius : Q) (color1 color2 : Color) (steps : Z) :
  EffectsEngine.draw_gradient_circle center max_radius color1 color2 steps
  = EffectsEngine.draw_radial_gradient center max_radius color1 color2 steps
  /\ exists es,
       EffectsEngine.draw_radial_gradient center max_radius color1 color2
         steps = Ok es
       /\ length es = Z.to_nat steps
       /\ (forall k e,
             es !! k = Some e ->
             let t := fl (steps - Z.of_nat k) / fl steps in
             0 < t /\ t <= 1
             /\ e = filled (Circle (max_radius * t) center)
                      (zip_with (fun c1 c2 => c1 + (c2 - c1) * (1 - t))
                         color1 color2))
       /\ ((1 <= steps)%Z ->
           exists r color,
             head es = Some (filled (Circle r center) color)
             /\ r == max_radius
             /\ color_eq color (take (length color2) color1)
             /\ ((length color1 <= length color2)%nat ->
                 color_eq color color1)).
Proof.
  split; [reflexivity |].
  unfold EffectsEngine.draw_radial_gradient.
  rewrite (countdown_loop steps
             (fun t => filled (Circle (max_radius * t) center)
                         (EffectsEngine.lerp color1 color2 (1 - t)))).
  eexists. split; [reflexivity |].
  split; [rewrite length_map, length_seq; reflexivity |].
  split.
  - intros k e Hk. rewrite list_lookup_fmap in Hk.
    destruct (seq 0 (Z.to_nat steps) !! k) as [j|] eqn:Ej; [| discriminate].
    apply lookup_seq in Ej. destruct Ej as [-> Hj]. injection Hk as <-.
    destruct (fraction_of_steps steps k Hj) as [H0 H1].
    cbv zeta. split; [exact H0 |]. split; [exact H1 | reflexivity].
  - intros Hs. destruct (Z.to_nat steps) as [|n] eqn:En; [lia |].
    cbn [seq map head]. eexists. eexists. split; [reflexivity |].
    assert (E : fl (steps - Z.of_nat 0) / fl steps == 1).
    { replace (steps - Z.of_nat 0)%Z with steps by lia.
      apply Qmult_inv_r, nonzero_of_positive. lia. }
    split; [rewrite E; ring |].
    assert (Hcut : color_eq
                     (EffectsEngine.lerp color1 color2
                        (1 - fl (steps - Z.of_nat 0) / fl steps))
                     (take (length color2) color1))
      by (apply lerp_at_0_cut; rewrite E; ring).
    split; [exact Hcut |].
    intros Hlen. rewrite take_ge in Hcut by exact Hlen. exact Hcut.
Qed.

Lemma radial_gradient_draws_the_largest_disc_first_witness :
  exists es,
    EffectsEngine.draw_radial_gradient (250, 250) 400 [1; 0; 0] [0; 0; 1] 40
    = Ok es
    /\ length es = 40%nat
    /\ exists r color,
         head es = Some (filled (Circle r (250, 250)) color)
         /\ r == 400 /\ color_eq color [1; 0; 0].
Proof.
  destruct (radial_gradient_draws_the_largest_disc_first (250, 250) 400
              [1; 0; 0] [0; 0; 1] 40)
    as (_ & es & E & Hlen & _ & Hfirst).
  exists es. split; [exact E |]. split; [exact Hlen |].
  destruct Hfirst as (r & color & Hhead & Hr & _ & Hcolor); [lia |].
  exists r, color. split; [exact Hhead |]. split; [exact Hr |].
  apply Hcolor. simpl. lia.
Defined.

(** The directions [draw_gradient_background] tells apart. *)
Lemma gradient_band_fallback (width height : Z) (c1 c2 : Color)
    (direction : string) (steps i : Z) :
  direction ∉ ["horizontal"; "diagonal"] ->
  EffectsEngine.gradient_band width height c1 c2 direction steps i
  = EffectsEngine.gradient_band width height c1 c2 "vertical" steps i.
Proof.
  intros Hnot. unfold EffectsEngine.gradient_band.
  destruct (PyR.div (fl i) (fl steps)) as [t|e]; [| reflexivity].
  cbn [mbind result_bind].
  destruct (String.eqb_spec direction "vertical") as [->|_]; [reflexivity |].
  destruct (String.eqb_spec direction "horizontal") as [->|_];
    [exfalso; apply Hnot; listed |].
  destruct (String.eqb_spec direction "diagonal") as [->|_];
    [exfalso; apply Hnot; listed |].
  reflexivity.
Qed.

Lemma for_each_ext {A B} (xs : list A) (f g : A -> result (list B)) :
  (forall x, f x = g x) -> for_each xs f = for_each xs g.
Proof.
  intros Hfg. induction xs as [|x xs IH]; [reflexivity |].
  cbn [for_each]. rewrite Hfg, IH. reflexivity.
Qed.

(** X17: [draw_gradient_background] never raises and draws [steps] filled
    rectangles (none for [steps <= 0]).  For [t = k / steps] the [k]-th is
    filled with [c1 + (c2 - c1) * t] over the channels [c1], [c2] that both
    colours have; it is a column of width [width / steps + 1] at
    [x = width * t] for "horizontal", a row of height [height / steps + 1]
    at [y = height * t] for every other direction, of width [width * 2]
    for "diagonal" and [width + 2] otherwise.  The first band is in
    [color1] cut to the channels [color2] also has, so in [color1] itself
    when [color2] has at least as many channels.  Every direction other
    than "horizontal" and "diagonal", unknown names included, gives what
    "vertical" gives. *)
Theorem gradient_background_falls_back_to_vertical
    (width height : Z) (color1 color2 : Color) (direction : string)
    (steps : Z) :
  (exists es,
     EffectsEngine.draw_gradient_background width height color1 color2
       direction steps = Ok es
     /\ length es = Z.to_nat steps
     /\ (forall k e,
           es !! k = Some e ->
           let t := fl (Z.of_nat k) / fl steps in
           let color := zip_with (fun c1 c2 => c1 + (c2 - c1) * t)
                          color1 color2 in
           let w := fl width / fl steps + 1 in
           let h := fl height / fl steps + 1 in
           e = if String.eqb direction "horizontal" then
                 filled (Rectangle w (fl height + 2)
                           (fl width * t + w / 2, fl height / 2)) color
               else if String.eqb direction "diagonal" then
                 filled (Rectangle (fl width * 2) h
                           (fl width / 2, fl height * t + h / 2)) color
               else
                 filled (Rectangle (fl width + 2) h
                           (fl width / 2, fl height * t + h / 2)) color)
     /\ ((1 <= steps)%Z ->
         exists band color,
           head es = Some band
           /\ fill band = Some color
           /\ color_eq color (take (length color2) color1)
           /\ ((length color1 <= length color2)%nat ->
               color_eq color color1)))
  /\ (direction ∉ ["horizontal"; "diagonal"] ->
      EffectsEngine.draw_gradient_background width height color1 color2
        direction steps
      = EffectsEngine.draw_gradient_background width height color1 color2
          "vertical" steps).
Proof.
  split.
  - unfold EffectsEngine.draw_gradient_background. rewrite range0_seq.
    pose (band := fun i : Z =>
            let t := fl i / fl steps in
            let color := zip_with (fun c1 c2 => c1 + (c2 - c1) * t)
                           color1 color2 in
            let w := fl width / fl steps + 1 in
            let h := fl height / fl steps + 1 in
            if String.eqb direction "horizontal" then
              filled (Rectangle w (fl height + 2)
                        (fl width * t + w / 2, fl height / 2)) color
            else if String.eqb direction "diagonal" then
              filled (Rectangle (fl width * 2) h
                        (fl width / 2, fl height * t + h / 2)) color
            else
              filled (Rectangle (fl width + 2) h
                        (fl width / 2, fl height * t + h / 2)) color).
    rewrite (for_each_map _ band).
    2:{ intros i Hi. apply in_map_iff in Hi. destruct Hi as (k & <- & Hk).
        apply in_seq in Hk. unfold band, EffectsEngine.gradient_band.
        rewrite !div_ok by (apply nonzero_of_positive; lia).
        cbn [mbind result_bind]. unfold EffectsEngine.lerp.
        destruct (String.eqb_spec direction "vertical") as [->|_];
          [reflexivity |].
        destruct (String.eqb direction "horizontal"); [reflexivity |].
        destruct (String.eqb direction "diagonal"); reflexivity. }
    eexists. split; [reflexivity |].
    split; [rewrite !length_map, length_seq; reflexivity |].
    split.
    + intros k e Hk. rewrite !list_lookup_fmap in Hk.
      destruct (seq 0 (Z.to_nat steps) !! k) as [j|] eqn:Ej; [| discriminate].
      apply lookup_seq in Ej. destruct Ej as [-> Hj]. injection Hk as <-.
      reflexivity.
    + intros Hs. destruct (Z.to_nat steps) as [|n] eqn:En; [lia |].
      cbn [seq map head].
      assert (E : fl (Z.of_nat 0) / fl steps == 0).
      { change (fl (Z.of_nat 0)) with 0. field. apply nonzero_of_positive.
        lia. }
      pose proof (lerp_at_0_cut color1 color2 _ E) as Hcut.
      exists (band (Z.of_nat 0)),
        (zip_with (fun c1 c2 => c1 + (c2 - c1) * (fl (Z.of_nat 0) / fl steps))
           color1 color2).
      split; [reflexivity |].
      split.
      { unfold band. cbv zeta.
        destruct (String.eqb direction "horizontal"); [reflexivity |].
        destruct (String.eqb direction "diagonal"); reflexivity. }
      split; [exact Hcut |].
      intros Hlen. rewrite take_ge in Hcut by exact Hlen. exact Hcut.
  - intros Hnot. unfold EffectsEngine.draw_gradient_background.
    apply for_each_ext. intros i. apply gradient_band_fallback, Hnot.
Qed.

Lemma gradient_background_falls_back_to_vertical_witness :
  exists es,
    EffectsEngine.draw_gradient_background 500 500 [1; 0; 0] [0; 0; 1]
      "sideways" 50 = Ok es
    /\ length es = 50%nat
    /\ EffectsEngine.draw_gradient_background 500 500 [1; 0; 0] [0; 0; 1]
         "sideways" 50
       = EffectsEngine.draw_gradient_background 500 500 [1; 0; 0] [0; 0; 1]
           "vertical" 50.
Proof.
  destruct (gradient_background_falls_back_to_vertical 500 500 [1; 0; 0]
              [0; 0; 1] "sideways" 50)
    as ((es & E & Hlen & _) & Hfall).
  exists es. split; [exact E |]. split; [exact Hlen |].
  apply Hfall. intros Hin. apply list_elem_of_In in Hin. simpl in Hin.
  destruct Hin as [?|[?|[]]]; discriminate.
Defined.

(** X18: [draw_glow] never raises and draws [steps] discs around the centre.
    For [t = (steps - k) / steps] the [k]-th disc has radius
    [radius + intensity * (1 - t) * 3] and the first three channels of the
    colour followed by the alpha [t * 0.3], which lies in (0, 0.3]: the
    first disc has exactly the given radius and the alpha 0.3, and no disc
    is more opaque. *)
Theorem glow_is_never_more_opaque_than_three_tenths
    (center : Point) (radius : Q) (color : Color) (intensity : Q) (steps : Z) :
  exists es,
    EffectsEngine.draw_glow center radius color intensity steps = Ok es
    /\ length es = Z.to_nat steps
    /\ (forall k e,
          es !! k = Some e ->
          let t := fl (steps - Z.of_nat k) / fl steps in
          let alpha := t * (3 # 10) in
          0 < alpha /\ alpha <= 3 # 10
          /\ e = filled (Circle (radius + intensity * (1 - t) * 3) center)
                   (take 3 color ++ [alpha]))
    /\ ((1 <= steps)%Z ->
        exists r alpha,
          head es = Some (filled (Circle r center) (take 3 color ++ [alpha]))
          /\ r == radius /\ alpha == 3 # 10).
Proof.
  pose proof (countdown_loop steps
             (fun t => filled (Circle (radius + intensity * (1 - t) * 3) center)
                         (if (3 <=? Z.of_nat (length color))%Z
                          then Py.slice_to 3 color ++ [t * (3 # 10)]
                          else color ++ [t * (3 # 10)]))) as E.
  change (EffectsEngine.draw_glow center radius color intensity steps
          = Ok (map (fun k =>
                       (fun t => filled
                          (Circle (radius + intensity * (1 - t) * 3) center)
                          (if (3 <=? Z.of_nat (length color))%Z
                           then Py.slice_to 3 color ++ [t * (3 # 10)]
                           else color ++ [t * (3 # 10)]))
                       (fl (steps - Z.of_nat k) / fl steps))
                  (seq 0 (Z.to_nat steps)))) in E.
  rewrite E. clear E.
  assert (Hcut : forall alpha : Q,
             (if (3 <=? Z.of_nat (length color))%Z
              then Py.slice_to 3 color ++ [alpha]
              else color ++ [alpha]) = take 3 color ++ [alpha]).
  { intros alpha. unfold Py.slice_to.
    destruct (Z.leb_spec 3 (Z.of_nat (length color))) as [Hge|Hlt];
      [reflexivity |].
    rewrite take_ge by (unfold Color in *; lia). reflexivity. }
  eexists. split; [reflexivity |].
  split; [rewrite length_map, length_seq; reflexivity |].
  split.
  - intros k e Hk. rewrite list_lookup_fmap in Hk.
    destruct (seq 0 (Z.to_nat steps) !! k) as [j|] eqn:Ej; [| discriminate].
    apply lookup_seq in Ej. destruct Ej as [-> Hj]. injection Hk as <-.
    destruct (fraction_of_steps steps k Hj) as [H0 H1].
    cbv zeta. split; [lra |]. split; [lra |].
    cbn [Nat.add]. rewrite Hcut. reflexivity.
  - intros Hs. destruct (Z.to_nat steps) as [|n] eqn:En; [lia |].
    cbn [seq map head]. rewrite Hcut.
    eexists. eexists. split; [reflexivity |].
    assert (E : fl (steps - Z.of_nat 0) / fl steps == 1).
    { replace (steps - Z.of_nat 0)%Z with steps by lia.
      apply Qmult_inv_r, nonzero_of_positive. lia. }
    split; rewrite E; ring.
Qed.

Lemma advanced_add (a b : nat) (st : Random.State) :
  advanced (a + b) st = advanced b (advanced a st).
Proof.
  revert st. induction a as [|a IH]; intros st; [reflexivity |].
  cbn [Nat.add advanced]. apply IH.
Qed.

(** A loop of [count] iterations whose body draws [m] random numbers and
    yields one drawing call. *)
Lemma repeat_draw_run {B} (body : Random.R (list B)) (P : B -> Prop)
    (m : nat) :
  (forall st, exists e, body st = (Ok [e], advanced m st) /\ P e) ->
  forall n st,
    exists es,
      Random.repeat_draw n body st = (Ok es, advanced (n * m) st)
      /\ length es = n /\ Forall P es.
Proof.
  intros Hbody. induction n as [|n IH]; intros st.
  - exists []. repeat split. constructor.
  - cbn [Random.repeat_draw]. unfold Random.bind at 1.
    destruct (Hbody st) as (e & E & He). rewrite E.
    unfold Random.bind at 1.
    destruct (IH (advanced m st)) as (es & Es & Hlen & Hes). rewrite Es.
    exists (e :: es). split.
    + unfold Random.ret. cbn [Nat.mul]. rewrite advanced_add. reflexivity.
    + split; [simpl; lia |]. constructor; assumption.
Qed.

(** [random.uniform(a, b)] for [a < b] lies in [a, b). *)
Lemma uniform_range (a b : Q) (n : N) :
  a < b ->
  a <= a + (b - a) * Random.unit_float n
  /\ a + (b - a) * Random.unit_float n < b.
Proof.
  intros Hab. destruct (unit_float_range n) as [H0 H1].
  set (u := Random.unit_float n) in *.
  assert (Hp : 0 <= (b - a) * u) by (apply Qmult_le_0_compat; lra).
  assert (Hq : (b - a) * u < (b - a) * 1) by (apply Qmult_lt_l; lra).
  split; lra.
Qed.

Section Particles.
Context `{MathLib}.

Lemma particle_run (center : Point) (max_radius : Q) (c0 : Color)
    (colors : list Color) (st : Random.State) :
  exists e,
    EffectsEngine.particle center max_radius (c0 :: colors) st
    = (Ok [e], advanced 5 st)
    /\ a_particle (c0 :: colors) e.
Proof.
  unfold EffectsEngine.particle.
  cbv [mbind R_bind mret R_ret]. unfold Random.bind at 1. rewrite uniform_run.
  unfold Random.bind at 1. rewrite uniform_run.
  unfold Random.bind at 1. rewrite uniform_run.
  unfold Random.bind at 1.
  destruct (choice_run c0 colors
              (Random.advance (Random.advance (Random.advance st))))
    as (color & Ec & Hin).
  rewrite Ec. unfold Random.bind at 1. rewrite uniform_run.
  eexists. split; [reflexivity |].
  eexists. eexists. exists color. eexists. split; [reflexivity |].
  pose proof (uniform_range 1 4 (Random.advance (Random.advance st) O)
                ltac:(reflexivity)) as [? ?].
  pose proof (uniform_range (3 # 10) 1
                (Random.advance (Random.advance (Random.advance
                   (Random.advance st))) O) ltac:(reflexivity)) as [? ?].
  repeat split; assumption.
Qed.

End Particles.

(** X19: with a colour list that is not empty (or none at all, which stands
    for white) [draw_particle_burst] draws exactly [count] discs and
    consumes five random numbers for each; every disc has a radius in
    [1, 4), a colour of the list cut to three channels and an alpha in
    [0.3, 1).  With an empty colour list and a positive count it raises
    [IndexError]. *)
Theorem particle_burst_draws_count_particles `{MathLib}
    (center : Point) (count : Z) (max_radius : Q)
    (colors : option (list Color)) (st : Random.State) :
  (colors <> Some [] ->
   exists es,
     EffectsEngine.draw_particle_burst center count max_radius colors st
     = (Ok es, advanced (5 * Z.to_nat count) st)
     /\ length es = Z.to_nat count
     /\ Forall (a_particle (default [[1; 1; 1]] colors)) es)
  /\ ((1 <= count)%Z ->
      fst (EffectsEngine.draw_particle_burst center count max_radius
             (Some []) st) = Raise IndexError).
Proof.
  unfold EffectsEngine.draw_particle_burst. split.
  - intros Hc.
    assert (Hne : exists c0 cs, default [[1; 1; 1]] colors = c0 :: cs).
    { destruct colors as [[|c0 cs]|]; [contradiction | eauto ..]. }
    destruct Hne as (c0 & cs & ->).
    destruct (repeat_draw_run
                (EffectsEngine.particle center max_radius (c0 :: cs))
                (a_particle (c0 :: cs)) 5
                (particle_run center max_radius c0 cs) (Z.to_nat count) st)
      as (es & E & Hlen & Hall).
    exists es. rewrite E. rewrite (Nat.mul_comm 5). repeat split; assumption.
  - intros Hcount. destruct (Z.to_nat count) as [|n] eqn:En; [lia |].
    reflexivity.
Qed.

Lemma particle_burst_draws_count_particles_witness :
  exists es,
    @EffectsEngine.draw_particle_burst rational_math (250, 250) 40 225
      (Some [[1; 0; 0]; [0; 1; 0]]) seed_42
    = (Ok es, advanced 200 seed_42)
    /\ length es = 40%nat
    /\ Forall (a_particle [[1; 0; 0]; [0; 1; 0]]) es.
Proof.
  apply (@particle_burst_draws_count_particles rational_math (250, 250) 40
           225 (Some [[1; 0; 0]; [0; 1; 0]]) seed_42).
  discriminate.
Defined.

(** X20: [draw_shadow] never raises by itself and calls the shape callback
    [blur_steps] times (never for [blur_steps <= 0]), with the largest
    spread first: the [k]-th call gets the offset moved by
    [(blur_steps - k) * 0.5] in both directions and the shadow colour with
    one more channel, the alpha [0.1 * k / blur_steps].  The first call is
    fully transparent and no call reaches the alpha 0.1. *)
Theorem shadow_calls_fade_in_below_one_tenth
    (offset : Point) (blur_steps : Z) (shadow_color : Color) :
  exists calls,
    EffectsEngine.draw_shadow (fun o c => Ok [(o, c)]) offset blur_steps
      shadow_color = Ok calls
    /\ length calls = Z.to_nat blur_steps
    /\ (forall k call,
          calls !! k = Some call ->
          exists alpha,
            call = ((fst offset + fl (blur_steps - Z.of_nat k) * (5 # 10),
                     snd offset + fl (blur_steps - Z.of_nat k) * (5 # 10)),
                    shadow_color ++ [alpha])
            /\ alpha == (1 # 10) * fl (Z.of_nat k) / fl blur_steps
            /\ 0 <= alpha /\ alpha < 1 # 10)
    /\ (forall (B : Type) (shape_func : Point -> Color -> result (list B)),
          EffectsEngine.draw_shadow shape_func offset blur_steps shadow_color
          = for_each calls (fun call => shape_func (fst call) (snd call))).
Proof.
  unfold EffectsEngine.draw_shadow. rewrite countdown_seq.
  cbn [mbind result_bind].
  set (call := fun i : Z =>
         ((fst offset + fl i * (5 # 10), snd offset + fl i * (5 # 10)),
          shadow_color ++ [(1 # 10) * fl (blur_steps - i) / fl blur_steps])).
  assert (Hdiv : forall i,
             In i (map (fun k => (blur_steps - Z.of_nat k)%Z)
                     (seq 0 (Z.to_nat blur_steps))) ->
             PyR.div ((1 # 10) * fl (blur_steps - i)) (fl blur_steps)
             = Ok ((1 # 10) * fl (blur_steps - i) / fl blur_steps)).
  { intros i Hi. apply in_map_iff in Hi. destruct Hi as (k & <- & Hk).
    apply in_seq in Hk. apply div_ok, nonzero_of_positive. lia. }
  rewrite (for_each_map _ call).
  2:{ intros i Hi. rewrite (Hdiv i Hi). reflexivity. }
  eexists. split; [reflexivity |].
  split; [rewrite !length_map, length_seq; reflexivity |].
  split.
  - intros k c Hk. rewrite map_map, list_lookup_fmap in Hk.
    destruct (seq 0 (Z.to_nat blur_steps) !! k) as [j|] eqn:Ej;
      [| discriminate].
    apply lookup_seq in Ej. destruct Ej as [-> Hj]. injection Hk as <-.
    cbn [Nat.add]. eexists. split; [reflexivity |].
    assert (Hpos : 0 < fl blur_steps).
    { change 0 with (inject_Z 0). rewrite <- Zlt_Qlt. lia. }
    assert (E : fl (blur_steps - (blur_steps - Z.of_nat k)) == fl (Z.of_nat k)).
    { replace (blur_steps - (blur_steps - Z.of_nat k))%Z with (Z.of_nat k)
        by lia. reflexivity. }
    assert (Hk0 : 0 <= fl (Z.of_nat k)).
    { change 0 with (inject_Z 0). rewrite <- Zle_Qle. lia. }
    assert (Hk1 : fl (Z.of_nat k) < fl blur_steps).
    { rewrite <- Zlt_Qlt. lia. }
    rewrite E.
    assert (Hfrac : 0 <= fl (Z.of_nat k) / fl blur_steps
                    /\ fl (Z.of_nat k) / fl blur_steps < 1).
    { split.
      - apply Qle_shift_div_l; [exact Hpos |]. rewrite Qmult_0_l. exact Hk0.
      - apply Qlt_shift_div_r; [exact Hpos |]. rewrite Qmult_1_l. exact Hk1. }
    assert (Eq : (1 # 10) * fl (Z.of_nat k) / fl blur_steps
                 == (1 # 10) * (fl (Z.of_nat k) / fl blur_steps)).
    { field. lra. }
    split; [reflexivity |]. rewrite Eq. split; lra.
  - intros B shape_func.
    set (idxs := map _ (seq 0 (Z.to_nat blur_steps))) in *.
    clearbody idxs. induction idxs as [|i idxs IH]; [reflexivity |].
    cbn [for_each map]. rewrite (Hdiv i (or_introl eq_refl)).
    cbn [mbind result_bind]. unfold call at 1 2. cbn [fst snd].
    rewrite IH by (intros j Hj; apply Hdiv; right; exact Hj). reflexivity.
Qed.

(** X21: [draw_lens_flare] never raises and always draws seventeen
    elements: five discs around the flare centre, each in the first three
    channels of the colour with an alpha of at most 0.1, and then twelve
    spokes; every spoke starts at the flare centre and (the [math] module
    satisfying [cos^2 + sin^2 = 1]) has the length [1.5 * size]. *)
Theorem lens_flare_draws_five_discs_and_twelve_spokes `{MathLib}
    (center : Point) (size : Q) (color : Color) :
  on_unit_circle ->
  exists discs spokes,
    EffectsEngine.draw_lens_flare center size color = Ok (discs ++ spokes)
    /\ length discs = 5%nat /\ length spokes = 12%nat
    /\ Forall (fun e =>
                 exists r alpha,
                   e = filled (Circle r center) (take 3 color ++ [alpha])
                   /\ 0 < alpha /\ alpha <= 1 # 10) discs
    /\ Forall (fun e =>
                 exists tip,
                   shape e = Polyline [center; tip] (0, 0) false
                   /\ dist_sq tip center
                      == (size * (15 # 10)) * (size * (15 # 10))) spokes.
Proof.
  intros Hc. unfold EffectsEngine.draw_lens_flare.
  change (PyR.range 5 0 (-1)) with (Ok [5; 4; 3; 2; 1]%Z).
  change (PyR.range 0 360 30)
    with (Ok [0; 30; 60; 90; 120; 150; 180; 210; 240; 270; 300; 330]%Z).
  cbn [mbind result_bind].
  eexists. eexists. split; [reflexivity |].
  split; [reflexivity |]. split; [reflexivity |]. split.
  - cbn [map]. unfold EffectsEngine.with_alpha, Py.slice_to.
    repeat (constructor;
            [eexists; eexists; split; [reflexivity |];
             split; [reflexivity | discriminate] |]).
    constructor.
  - apply Forall_map, Forall_forall. intros angle _.
    eexists. split; [reflexivity |].
    unfold dist_sq. cbn [fst snd].
    set (a := radians (fl angle)). set (L := size * (15 # 10)).
    transitivity (L * L * (m_cos a * m_cos a + m_sin a * m_sin a)); [ring |].
    pose proof (Hc a) as E. rewrite E. ring.
Qed.

Lemma lens_flare_draws_five_discs_and_twelve_spokes_witness :
  exists discs spokes,
    @EffectsEngine.draw_lens_flare rational_math (100, 100) 30 [1; 1; 8 # 10]
    = Ok (discs ++ spokes)
    /\ length discs = 5%nat /\ length spokes = 12%nat.
Proof.
  destruct (@lens_flare_draws_five_discs_and_twelve_spokes rational_math
              (100, 100) 30 [1; 1; 8 # 10] rational_math_on_unit_circle)
    as (discs & spokes & E & H5 & H12 & _).
  exists discs, spokes. auto.
Defined.

(** ** LogoTemplate *)

Section TemplateTexts.
Context `{MathLib}.

Lemma template_lookup (name : string) f :
  (name, f) ∈ [ ("minimal_circle", LogoTemplate.minimal_circle);
                ("shield_badge", LogoTemplate.shield_badge);
                ("geometric_abstract", LogoTemplate.geometric_abstract);
                ("monogram", LogoTemplate.monogram);
                ("tech_hexagon", LogoTemplate.tech_hexagon);
                ("circular_badge", LogoTemplate.circular_badge) ] ->
  template_func name = f.
Proof.
  intros Hin. unfold template_func, LogoTemplate.templates.
  erewrite elem_of_list_to_map_1; [reflexivity | | exact Hin].
  cbn [fmap list_fmap fst]. 
  repeat (apply NoDup_cons; split;
          [intros Hd; apply list_elem_of_In in Hd; simpl in Hd;
           repeat (destruct Hd as [Hd|Hd]; [discriminate |]); contradiction |]).
  apply NoDup_nil_2.
Qed.

Lemma texts_of_app (es fs : list Element) :
  texts_of (es ++ fs) = texts_of es ++ texts_of fs.
Proof. unfold texts_of. apply omap_app. Qed.

Lemma no_text_in_loop {A} (xs : list A) (body : A -> result (list Element))
    (es : list Element) :
  (forall x ys, body x = Ok ys -> texts_of ys = []) ->
  for_each xs body = Ok es -> texts_of es = [].
Proof.
  intros Hbody. revert es. induction xs as [|x xs IH]; intros es.
  - intros [= <-]. reflexivity.
  - cbn [for_each]. destruct (body x) as [ys|e] eqn:Ex; [| discriminate].
    cbn [mbind result_bind].
    destruct (for_each xs body) as [zs|e]; [| discriminate].
    intros [= <-]. rewrite texts_of_app, (Hbody x ys Ex), (IH zs eq_refl).
    reflexivity.
Qed.

Lemma geometric_abstract_text (width height : Z) (c0 : Color)
    (colors : list Color) (text fontfamily : string) :
  exists es,
    LogoTemplate.geometric_abstract width height (c0 :: colors) text
      fontfamily = Ok es
    /\ if String.eqb text "" then texts_of es = []
       else exists shapes e,
           es = shapes ++ [e] /\ texts_of shapes = []
           /\ text_of e = Some text.
Proof.
  pose proof (geometric_abstract_ok width height c0 colors "" fontfamily)
    as Hok.
  unfold LogoTemplate.geometric_abstract in *.
  match goal with |- context [for_each ?xs ?body] =>
    destruct (for_each xs body) as [circles|e] eqn:E; [| discriminate];
    assert (Hno : texts_of circles = [])
  end.
  { eapply no_text_in_loop; [| exact E]. intros i ys.
    cbn beta zeta.
    match goal with |- context [mbind _ ?r] => destruct r end;
      [| discriminate].
    intros [= <-]. reflexivity. }
  cbn [mbind result_bind].
  destruct (String.eqb text "").
  - eexists. split; [reflexivity | exact Hno].
  - eexists. split; [reflexivity |].
    eexists. eexists. split; [reflexivity |]. split; [exact Hno | reflexivity].
Qed.

End TemplateTexts.

(** X22: on a colour list that is not empty every template completes and
    draws the configured text as its very last call, on top of its shapes,
    and no other text ([monogram] draws the first two characters of the
    text; [geometric_abstract] draws no text at all when the text is
    empty).  On an empty colour list every template raises: the five that
    index the list [IndexError], [geometric_abstract] (which divides by the
    length of the list) [ZeroDivisionError]. *)
Theorem templates_draw_the_text_on_top `{MathLib}
    (name : string) (width height : Z) (c0 : Color) (colors : list Color)
    (text fontfamily : string) :
  name ∈ LogoGenerator.AVAILABLE_TEMPLATES ->
  (exists es,
     template_func name width height (c0 :: colors) text fontfamily = Ok es
     /\ if String.eqb name "geometric_abstract" && String.eqb text ""
        then texts_of es = []
        else exists shapes e,
            es = shapes ++ [e] /\ texts_of shapes = []
            /\ text_of e = Some (caption name text))
  /\ template_func name width height [] text fontfamily
     = Raise (on_no_colors name).
Proof.
  intros Hin. apply list_elem_of_In in Hin. simpl in Hin.
  destruct Hin as [<-|[<-|[<-|[<-|[<-|[<-|[]]]]]]].
  - rewrite (template_lookup _ LogoTemplate.minimal_circle) by listed.
    split; [| reflexivity].
    eexists. split; [reflexivity |]. cbn [andb String.eqb Ascii.eqb Bool.eqb].
    refine (ex_intro _ [_; _] _). eexists. repeat split.
  - rewrite (template_lookup _ LogoTemplate.shield_badge) by listed.
    split; [| reflexivity].
    eexists. split; [reflexivity |]. cbn [andb String.eqb Ascii.eqb Bool.eqb].
    refine (ex_intro _ [_] _). eexists. repeat split.
  - rewrite (template_lookup _ LogoTemplate.geometric_abstract) by listed.
    split; [| reflexivity].
    destruct (geometric_abstract_text width height c0 colors text fontfamily)
      as (es & E & Hes).
    exists es. split; [exact E |].
    rewrite String.eqb_refl. cbn [andb]. exact Hes.
  - rewrite (template_lookup _ LogoTemplate.monogram) by listed.
    split; [| reflexivity].
    eexists. split; [reflexivity |]. cbn [andb String.eqb Ascii.eqb Bool.eqb].
    refine (ex_intro _ [_; _] _). eexists. repeat split.
  - rewrite (template_lookup _ LogoTemplate.tech_hexagon) by listed.
    split; [| reflexivity].
    eexists. split; [reflexivity |]. cbn [andb String.eqb Ascii.eqb Bool.eqb].
    refine (ex_intro _ [_; _; _; _; _; _; _; _] _). eexists. repeat split.
  - rewrite (template_lookup _ LogoTemplate.circular_badge) by listed.
    split; [| reflexivity].
    eexists. split; [reflexivity |]. cbn [andb String.eqb Ascii.eqb Bool.eqb].
    match goal with
    | |- exists shapes e, ?r ++ ?d ++ [?s; ?t] = _ /\ _ =>
        exists (r ++ d ++ [s]), t
    end.
    split; [rewrite <- !app_assoc; reflexivity |].
    split; reflexivity.
Qed.

Lemma templates_draw_the_text_on_top_witness :
  exists es,
    @template_func rational_math "monogram" 500 500 [[1; 0; 0]] "ACME" "Arial"
    = Ok es
    /\ exists shapes e,
        es = shapes ++ [e] /\ texts_of shapes = []
        /\ text_of e = Some "AC".
Proof.
  destruct (@templates_draw_the_text_on_top rational_math "monogram" 500 500
              [1; 0; 0] [] "ACME" "Arial") as ((es & E & Hes) & _).
  { unfold LogoGenerator.AVAILABLE_TEMPLATES. listed. }
  exists es. split; [exact E | exact Hes].
Defined.

(** ** The [random] module: [sample] *)

Lemma advanced_S (n : nat) (st : Random.State) :
  advanced (S n) st = advanced n (Random.advance st).
Proof. reflexivity. Qed.

(** One draw of the selection loop: the entry it picks and the entries
    that stay live are together the entries that were live. *)
Lemma sample_step {A} (pool : list A) (n j : nat) (x y : A) :
  (j < n)%nat -> (n <= length pool)%nat ->
  pool !! j = Some x -> pool !! (n - 1)%nat = Some y ->
  x :: take (n - 1) (<[j := y]> pool) ≡ₚ take n pool.
Proof.
  intros Hj Hn Hx Hy.
  assert (En : take n pool = take (n - 1) pool ++ [y]).
  { replace n with (S (n - 1)) at 1 by lia. apply take_S_r. exact Hy. }
  rewrite En.
  destruct (decide (j = n - 1)%nat) as [->|Hne].
  - rewrite Hx in Hy. injection Hy as <-.
    rewrite list_insert_id by exact Hx.
    apply Permutation_cons_append.
  - rewrite take_insert_lt by lia.
    set (l := take (n - 1) pool).
    assert (Hl : l !! j = Some x).
    { unfold l. rewrite lookup_take_lt by lia. exact Hx. }
    assert (Hlen : (j < length l)%nat) by (eapply lookup_lt_Some; exact Hl).
    rewrite insert_take_drop by exact Hlen.
    rewrite <- (take_drop_middle l j x Hl) at 3.
    rewrite <- !app_assoc. cbn [app].
    etransitivity; [| apply Permutation_middle].
    apply perm_skip, Permutation_app_head, Permutation_cons_append.
Qed.

Lemma sample_loop_run {A} (k : nat) :
  forall (pool : list A) (n : nat) (st : Random.State),
    (k <= n)%nat -> (n <= length pool)%nat ->
    exists xs,
      Random.sample_loop k pool n st = (Ok xs, advanced k st)
      /\ length xs = k
      /\ (forall x, x ∈ xs -> x ∈ take n pool)
      /\ (NoDup (take n pool) -> NoDup xs).
Proof.
  induction k as [|k IH]; intros pool n st Hk Hn.
  - exists []. split; [reflexivity |]. split; [reflexivity |].
    split; [intros x Hx; apply elem_of_nil in Hx; contradiction |].
    intros _. apply NoDup_nil_2.
  - cbn [Random.sample_loop].
    unfold Random.bind at 1, Random.randbelow, Random.bind at 1, Random.next,
      Random.ret.
    assert (Hpos : (0 < Z.of_nat n)%Z) by lia.
    pose proof (Z.mod_pos_bound (Z.of_N (st O)) (Z.of_nat n) Hpos) as Hb.
    set (j := Z.to_nat (Z.of_N (st O) mod Z.of_nat n)).
    assert (Hj : (j < n)%nat) by (unfold j; lia).
    destruct (lookup_lt_is_Some_2 pool j ltac:(lia)) as [x Hx].
    destruct (lookup_lt_is_Some_2 pool (n - 1) ltac:(lia)) as [y Hy].
    unfold Random.bind at 1, Random.lift, PyR.item. fold j. rewrite Hx.
    unfold Random.bind at 1. rewrite Hy.
    unfold Random.bind at 1.
    destruct (IH (<[j := y]> pool) (n - 1)%nat (Random.advance st))
      as (xs & E & Hlen & Hin & Hnd);
      [lia | rewrite length_insert; lia |].
    rewrite E. exists (x :: xs).
    pose proof (sample_step pool n j x y Hj Hn Hx Hy) as Hperm.
    split; [reflexivity |]. split; [simpl; lia |]. split.
    + intros z Hz. rewrite <- Hperm. apply elem_of_cons in Hz.
      destruct Hz as [->|Hz]; [left | right; apply Hin; exact Hz].
    + intros Hnodup. rewrite <- Hperm in Hnodup.
      apply NoDup_cons in Hnodup. destruct Hnodup as [Hnot Hrest].
      apply NoDup_cons. split; [| apply Hnd; exact Hrest].
      intros Hx'. apply Hnot, Hin, Hx'.
Qed.

(** [random.sample(population, k)] for [0 <= k <= len(population)]
    returns [k] entries of the population and consumes [k] random numbers;
    when the population has no duplicates neither has the sample.  For any
    other [k] it raises [ValueError] and consumes nothing. *)
Lemma sample_run {A}
    (population : list A) (k : Z) (st : Random.State) :
  ((0 <= k <= Z.of_nat (length population))%Z ->
   exists xs,
     Random.sample population k st = (Ok xs, advanced (Z.to_nat k) st)
     /\ length xs = Z.to_nat k
     /\ (forall x, x ∈ xs -> x ∈ population)
     /\ (NoDup population -> NoDup xs))
  /\ ((k < 0 \/ Z.of_nat (length population) < k)%Z ->
      Random.sample population k st = (Raise ValueError, st)).
Proof.
  unfold Random.sample. split.
  - intros Hk.
    destruct (Z.ltb_spec k 0) as [?|_]; [lia |].
    destruct (Z.ltb_spec (Z.of_nat (length population)) k) as [?|_]; [lia |].
    cbn [orb].
    destruct (sample_loop_run (Z.to_nat k) population (length population) st)
      as (xs & E & Hlen & Hin & Hnd); [lia | lia |].
    rewrite firstn_all in Hin, Hnd. exists xs. auto.
  - intros Hk.
    destruct (Z.ltb_spec k 0) as [?|?]; [reflexivity |].
    destruct (Z.ltb_spec (Z.of_nat (length population)) k) as [?|?];
      [reflexivity | lia].
Qed.


(** ** LogoGenerator._random_config *)

Lemma choice_among {A} (x : A) (xs : list A) (st : Random.State) :
  exists y, Random.choice (x :: xs) st = (Ok y, advanced 1 st)
            /\ y ∈ x :: xs.
Proof.
  destruct (choice_run x xs st) as (y & E & Hin).
  exists y. split; [exact E | apply list_elem_of_In; exact Hin].
Qed.

(** What [_random_config] always returns. *)
Lemma random_config_run (st : Random.State) :
  exists cfg st' colors c0 template pattern effects,
    LogoGenerator._random_config st = (Ok cfg, st')
    /\ cfg_colors cfg = Some colors
    /\ (2 <= length colors <= 4)%nat /\ Forall in_gamut colors
    /\ head colors = Some c0
    /\ cfg_bg_color cfg = Some (ColorPalette.adjust_brightness c0 (3 # 10))
    /\ cfg_template cfg = Some template
    /\ template ∈ LogoGenerator.AVAILABLE_TEMPLATES
    /\ cfg_pattern cfg = Some pattern
    /\ pattern ∈ LogoGenerator.AVAILABLE_PATTERNS
    /\ cfg_effects cfg = Some effects
    /\ (length effects <= 3)%nat /\ NoDup effects
    /\ (forall e, e ∈ effects -> e ∈ LogoGenerator.AVAILABLE_EFFECTS)
    /\ cfg_text cfg = Some "LOGO" /\ cfg_subtitle cfg = Some ""
    /\ cfg_fontsize cfg = Some 36%Z.
Proof.
  unfold LogoGenerator._random_config.
  cbv [mbind R_bind mret R_ret]. unfold Random.bind at 1.
  unfold LogoGenerator.AVAILABLE_HARMONY at 1.
  match goal with
  | |- context [Random.choice (?x :: ?xs) ?s] =>
      destruct (choice_among x xs s) as (harmony & -> & Hharmony)
  end.
  unfold Random.bind at 1.
  destruct (harmonious_palette None harmony (7 # 10) (85 # 100)
              (advanced 1 st) I)
    as (colors & st1 & -> & Hgamut & H2 & H4 & H3 & _).
  assert (Hlen : (2 <= length colors <= 4)%nat).
  { destruct (decide (harmony ∈ two_hue_rules)) as [Hin|Hnot];
      [rewrite (H2 Hin); lia |].
    destruct (decide (harmony = "tetradic")) as [Heq|Hne];
      [rewrite (H4 Heq); lia |].
    rewrite (H3 Hnot Hne). lia. }
  destruct colors as [|c0 colors]; [simpl in Hlen; lia |].
  unfold Random.bind at 1. unfold Random.lift at 1. cbn [PyR.first].
  unfold Random.bind at 1. unfold LogoGenerator.AVAILABLE_TEMPLATES at 1.
  match goal with
  | |- context [Random.choice (?x :: ?xs) ?s] =>
      destruct (choice_among x xs s) as (template & -> & Htemplate)
  end.
  unfold Random.bind at 1. unfold LogoGenerator.AVAILABLE_PATTERNS at 1.
  match goal with
  | |- context [Random.choice (?x :: ?xs) ?s] =>
      destruct (choice_among x xs s) as (pattern & -> & Hpattern)
  end.
  unfold Random.bind at 1.
  match goal with
  | |- context [Random.randint 0 3 ?s] =>
      destruct (randint_run 0 3 s ltac:(lia)) as (k & -> & Hk)
  end.
  unfold Random.bind at 1.
  match goal with
  | |- context [Random.sample ?p k ?s] =>
      destruct (sample_run p k s) as [Hsample _];
      destruct Hsample as (effects & -> & Heff & Hin & Hnd); [simpl; lia |]
  end.
  unfold Random.bind at 1.
  match goal with
  | |- context [Random.choice (?x :: ?xs) ?s] =>
      destruct (choice_among x xs s) as (fontfamily & -> & _)
  end.
  unfold Random.bind at 1.
  match goal with
  | |- context [Random.choice (?x :: ?xs) ?s] =>
      destruct (choice_among x xs s) as (text_effect & -> & _)
  end.
  unfold Random.bind at 1.
  match goal with
  | |- context [Random.choice (?x :: ?xs) ?s] =>
      destruct (choice_among x xs s) as (extra_shapes & -> & _)
  end.
  unfold Random.bind at 1.
  match goal with
  | |- context [Random.choice (?x :: ?xs) ?s] =>
      destruct (choice_among x xs s) as (direction & -> & _)
  end.
  unfold Random.ret.
  eexists. eexists. exists (c0 :: colors), c0, template, pattern, effects.
  split; [reflexivity |]. cbn [cfg_colors cfg_bg_color cfg_template
    cfg_pattern cfg_effects cfg_text cfg_subtitle cfg_fontsize head].
  assert (Hnodup : NoDup effects).
  { apply Hnd. unfold LogoGenerator.AVAILABLE_EFFECTS.
    repeat (apply NoDup_cons; split;
            [intros Hd; apply list_elem_of_In in Hd; simpl in Hd;
             repeat (destruct Hd as [Hd|Hd]; [discriminate |]);
             contradiction |]).
    apply NoDup_nil_2. }
  repeat match goal with |- _ /\ _ => split end;
    first [reflexivity | assumption | lia].
Qed.

(** X23: [_random_config] never raises, whatever the state of the random
    generator.  The configuration it returns has between two and four
    colours, each of three channels within [0, 1], the first colour dimmed
    to 0.3 as background, a template and a pattern from the lists of
    available ones, at most three effects, all different and all from the
    list of available effects, the text "LOGO", an empty subtitle and the
    font size 36. *)
Theorem random_config_is_always_well_formed (st : Random.State) :
  exists cfg st' colors c0 template pattern effects,
    LogoGenerator._random_config st = (Ok cfg, st')
    /\ cfg_colors cfg = Some colors
    /\ (2 <= length colors <= 4)%nat /\ Forall in_gamut colors
    /\ head colors = Some c0
    /\ cfg_bg_color cfg = Some (ColorPalette.adjust_brightness c0 (3 # 10))
    /\ cfg_template cfg = Some template
    /\ template ∈ LogoGenerator.AVAILABLE_TEMPLATES
    /\ cfg_pattern cfg = Some pattern
    /\ pattern ∈ LogoGenerator.AVAILABLE_PATTERNS
    /\ cfg_effects cfg = Some effects
    /\ (length effects <= 3)%nat /\ NoDup effects
    /\ (forall e, e ∈ effects -> e ∈ LogoGenerator.AVAILABLE_EFFECTS)
    /\ cfg_text cfg = Some "LOGO" /\ cfg_subtitle cfg = Some ""
    /\ cfg_fontsize cfg = Some 36%Z.
Proof. exact (random_config_run st). Qed.

(** ** LogoGenerator.generate without a configuration *)

Section RandomLogo.
Context `{MathLib}.

Lemma random_config_usable (st : Random.State) :
  ~ m_sqrt 3 == 0 ->
  exists cfg st',
    LogoGenerator._random_config st = (Ok cfg, st')
    /\ usable cfg /\ cfg_text cfg = Some "LOGO".
Proof.
  intros Hsqrt.
  destruct (random_config_run st)
    as (cfg & st' & colors & c0 & t & p & es & E & Hc & Hlen & _ & _ & _ & _
        & _ & _ & _ & _ & _ & _ & _ & Htext & _).
  exists cfg, st'. split; [exact E |]. split; [| exact Htext].
  split; [| intros _; exact Hsqrt].
  rewrite Hc. intros [= ->]. simpl in Hlen. lia.
Qed.

(** [generate()] is [generate(config)] on the dict [_random_config]
    returned. *)
Lemma generate_none (w : World) (cfg : Config) (st' : Random.State) :
  LogoGenerator._random_config (rng w) = (Ok cfg, st') ->
  LogoGenerator.generate None w
  = LogoGenerator.generate (Some (fresh w))
      (snd (Store.alloc cfg (Store.set_rng st' w))).
Proof.
  intros E. unfold LogoGenerator.generate.
  cbv [mbind M_bind mret M_ret Store.random Store.alloc].
  rewrite E. reflexivity.
Qed.

(** A call of [generate] on a usable configuration. *)
Lemma generate_run (config : loc) (w : World) :
  usable (heap w config) ->
  exists es st,
    LogoGenerator.generate (Some config) w
    = (Ok (draw_all es (start_surface (heap w config) w)),
       Store.set_rng st (entered config w)).
Proof.
  intros Hu. destruct (generate_is_seven_steps config w) as [st E].
  pose proof (generate_completes config w Hu) as Hok.
  apply is_ok_Ok in Hok. destruct Hok as [es Hes].
  rewrite Hes in E. exists es, st. exact E.
Qed.

End RandomLogo.

(** X24: called without a configuration, [generate] always returns a
    surface (the square root of 3 not being zero): it stores the random
    configuration in a new dict, leaves every existing dict and the size of
    the generator as they were, makes [self.config] refer to the new dict,
    and returns a surface of the generator's size.  The new dict holds the
    text "LOGO" and is itself a configuration on which [generate]
    completes. *)
Theorem generate_without_config_always_completes `{MathLib} (w : World) :
  ~ m_sqrt 3 == 0 ->
  exists surface w',
    LogoGenerator.generate None w = (Ok surface, w')
    /\ self_config w' = fresh w /\ fresh w' = S (fresh w)
    /\ (forall l, l <> fresh w -> heap w' l = heap w l)
    /\ self_width w' = self_width w /\ self_height w' = self_height w
    /\ s_width surface = self_width w /\ s_height surface = self_height w
    /\ cfg_text (heap w' (fresh w)) = Some "LOGO"
    /\ usable (heap w' (fresh w)).
Proof.
  intros Hsqrt.
  destruct (random_config_usable (rng w) Hsqrt) as (cfg & st' & E & Hu & Ht).
  rewrite (generate_none w cfg st' E).
  set (w1 := snd (Store.alloc cfg (Store.set_rng st' w))).
  assert (Hcfg : heap w1 (fresh w) = cfg).
  { unfold w1. cbn [Store.alloc snd heap Store.set_rng fresh].
    rewrite decide_True; reflexivity. }
  destruct (generate_run (fresh w) w1) as (es & st & Egen);
    [rewrite Hcfg; exact Hu |].
  rewrite Egen. eexists. eexists. split; [reflexivity |].
  cbn [Store.set_rng entered Store.set_config snd self_config fresh heap
       self_width self_height].
  split; [reflexivity |]. split; [reflexivity |].
  split.
  { intros l Hl. unfold w1.
    cbn [Store.alloc snd heap Store.set_rng fresh].
    rewrite decide_False by exact Hl. reflexivity. }
  destruct (draw_all_frame es (start_surface (heap w1 (fresh w)) w1))
    as (Hw & Hh & _).
  rewrite Hw, Hh. unfold start_surface.
  cbn [new_surface s_width s_height].
  rewrite Hcfg. repeat split; try reflexivity; [exact Ht | apply Hu | apply Hu].
Qed.

Lemma generate_without_config_always_completes_witness :
  exists surface w',
    @LogoGenerator.generate rational_math None sample_world = (Ok surface, w')
    /\ self_config w' = 1%nat /\ fresh w' = 2%nat
    /\ s_width surface = 500%Z /\ s_height surface = 500%Z.
Proof.
  destruct (@generate_without_config_always_completes rational_math
              sample_world)
    as (surface & w' & E & Hc & Hf & _ & _ & _ & Hw & Hh & _).
  { vm_compute. discriminate. }
  exists surface, w'. auto.
Defined.

(** ** File names *)

Lemma append_cons (a : ascii) (s t : string) :
  (String a s ++ t)%string = String a (s ++ t)%string.
Proof. reflexivity. Qed.

Lemma parse_zeros (n : nat) (s : string) :
  Py.parse_nat (string_of_list_ascii (replicate n "0"%char) ++ s)
  = Py.parse_nat s.
Proof.
  induction n as [|n IH]; [reflexivity |].
  cbn [replicate string_of_list_ascii]. rewrite append_cons.
  rewrite <- IH. unfold Py.parse_nat.
  cbn [DecimalString.NilEmpty.uint_of_string].
  destruct (DecimalString.NilEmpty.uint_of_string
              (string_of_list_ascii (replicate n "0"%char) ++ s)) as [d|];
    reflexivity.
Qed.

Lemma parse_str_nat (n : nat) : Py.parse_nat (Py.str_nat n) = Some n.
Proof.
  unfold Py.parse_nat, Py.str_nat. rewrite DecimalString.NilEmpty.usu.
  cbn. rewrite DecimalNat.Unsigned.of_to. reflexivity.
Qed.

(** Different numbers have different [{:03d}] renderings. *)
Lemma format_03d_inj (a b : Z) :
  (0 <= a)%Z -> (0 <= b)%Z -> Py.format_03d a = Py.format_03d b -> a = b.
Proof.
  intros Ha Hb E. unfold Py.format_03d in E.
  destruct (Z.ltb_spec a 0) as [?|_]; [lia |].
  destruct (Z.ltb_spec b 0) as [?|_]; [lia |].
  apply (f_equal Py.parse_nat) in E. unfold Py.pad_zeros in E.
  rewrite !parse_zeros, !parse_str_nat in E. injection E as E. lia.
Qed.

Lemma list_ascii_app (s t : string) :
  list_ascii_of_string (s ++ t)
  = list_ascii_of_string s ++ list_ascii_of_string t.
Proof.
  induction s as [|a s IH]; [reflexivity |].
  rewrite append_cons. cbn [list_ascii_of_string app]. rewrite IH.
  reflexivity.
Qed.

Lemma append_inv_tail (s t u : string) : (s ++ u = t ++ u)%string -> s = t.
Proof.
  intros E. apply (f_equal list_ascii_of_string) in E.
  rewrite !list_ascii_app in E. apply app_inv_tail in E.
  rewrite <- (string_of_list_ascii_of_string s),
    <- (string_of_list_ascii_of_string t), E. reflexivity.
Qed.

Lemma starts_with_slash_app (s t : string) :
  s <> "" -> Os.starts_with_slash (s ++ t) = Os.starts_with_slash s.
Proof. destruct s as [|a s]; [contradiction | reflexivity]. Qed.

(** [os.path.join(dir, stem + x + ".png")] is different for different
    [x], when the stem is not empty. *)
Lemma path_join_inj (dir stem x y : string) :
  stem <> "" ->
  Os.path_join dir (stem ++ x ++ ".png") = Os.path_join dir (stem ++ y ++ ".png")
  -> x = y.
Proof.
  intros Hstem. unfold Os.path_join.
  rewrite !(starts_with_slash_app stem) by exact Hstem.
  destruct (Os.starts_with_slash stem);
    [| destruct (String.eqb dir "" || Os.ends_with_slash dir)];
    intros E;
    repeat (apply String.app_inj in E);
    apply append_inv_tail in E; exact E.
Qed.

Lemma append_assoc (s t u : string) :
  (s ++ t ++ u)%string = ((s ++ t) ++ u)%string.
Proof.
  induction s as [|a s IH]; [reflexivity |].
  rewrite !append_cons, IH. reflexivity.
Qed.

Lemma batch_name_inj (output_dir prefix : string) (j k : nat) :
  batch_name output_dir prefix j = batch_name output_dir prefix k -> j = k.
Proof.
  unfold batch_name. rewrite !(append_assoc prefix "_"). intros E.
  apply path_join_inj in E.
  - apply format_03d_inj in E; lia.
  - destruct prefix; discriminate.
Qed.

Lemma variation_name_inj (output_dir : string) (j k : nat) :
  variation_name output_dir j = variation_name output_dir k -> j = k.
Proof.
  unfold variation_name. intros E. apply path_join_inj in E.
  - apply format_03d_inj in E; lia.
  - discriminate.
Qed.

(** ** Loops that write files *)

Lemma fs_for_each_map {A B C} (f : A -> B) (xs : list A) (body : B -> IO C) :
  Fs.for_each (map f xs) body = Fs.for_each xs (fun x => body (f x)).
Proof.
  induction xs as [|x xs IH]; [reflexivity |].
  cbn [map Fs.for_each]. rewrite IH. reflexivity.
Qed.

(** A loop over the indices [a, a + 1, ..., a + n - 1] whose body keeps an
    invariant of the index, the store and the disk. *)
Lemma fs_loop {B} (body : nat -> IO B) (Inv : nat -> World -> Disk -> Prop)
    (out : nat -> B) (bound : nat) :
  (forall k w d,
      (k < bound)%nat -> Inv k w d ->
      exists w' d', body k w d = (Ok (out k), w', d') /\ Inv (S k) w' d') ->
  forall n a w d,
    (a + n <= bound)%nat -> Inv a w d ->
    exists w' d',
      Fs.for_each (seq a n) body w d = (Ok (map out (seq a n)), w', d')
      /\ Inv (a + n)%nat w' d'.
Proof.
  intros Hbody. induction n as [|n IH]; intros a w d Hbound Hinv.
  - exists w, d. split; [reflexivity |]. rewrite Nat.add_0_r. exact Hinv.
  - cbn [seq Fs.for_each map]. cbv [mbind IO_bind].
    destruct (Hbody a w d ltac:(lia) Hinv) as (w1 & d1 & E & Hinv1).
    rewrite E.
    destruct (IH (S a) w1 d1 ltac:(lia) Hinv1) as (w2 & d2 & E2 & Hinv2).
    rewrite E2. exists w2, d2. split; [reflexivity |].
    replace (a + S n)%nat with (S a + n)%nat by lia. exact Hinv2.
Qed.

(** ** LogoGenerator.batch_generate *)

Section Batch.
Context `{MathLib}.

(** A random configuration stored in a new dict and rendered. *)
Lemma fresh_logo_run (w : World) :
  ~ m_sqrt 3 == 0 ->
  exists cfg st' es st,
    LogoGenerator._random_config (rng w) = (Ok cfg, st')
    /\ LogoGenerator.generate (Some (fresh w))
         (snd (Store.alloc cfg (Store.set_rng st' w)))
       = (Ok (draw_all es
                (start_surface cfg
                   (snd (Store.alloc cfg (Store.set_rng st' w))))),
          Store.set_rng st
            (entered (fresh w)
               (snd (Store.alloc cfg (Store.set_rng st' w))))).
Proof.
  intros Hsqrt.
  destruct (random_config_usable (rng w) Hsqrt) as (cfg & st' & E & Hu & _).
  set (w1 := snd (Store.alloc cfg (Store.set_rng st' w))).
  assert (Hcfg : heap w1 (fresh w) = cfg).
  { unfold w1. cbn [Store.alloc snd heap Store.set_rng fresh].
    rewrite decide_True; reflexivity. }
  destruct (generate_run (fresh w) w1) as (es & st & Egen);
    [rewrite Hcfg; exact Hu |].
  rewrite Hcfg in Egen. exists cfg, st', es, st. split; assumption.
Qed.

Lemma batch_step (output_dir prefix : string) (w0 : World) (d0 : Disk)
    (k : nat) (w : World) (d : Disk) :
  ~ m_sqrt 3 == 0 ->
  batch_state output_dir prefix w0 d0 k w d ->
  exists w' d',
    (config ← Fs.run (c ← Store.random LogoGenerator._random_config;
                      Store.alloc c);
     surface ← Fs.run (LogoGenerator.generate (Some config));
     _ ← LogoGenerator.save surface (batch_name output_dir prefix k);
     mret (batch_name output_dir prefix k)) w d
    = (Ok (batch_name output_dir prefix k), w', d')
    /\ batch_state output_dir prefix w0 d0 (S k) w' d'.
Proof.
  intros Hsqrt (Hw & Hh & Hf & Hheap & Hdir & Hfiles & Hother).
  destruct (fresh_logo_run w Hsqrt) as (cfg & st' & es & st & E & Egen).
  cbv [mbind IO_bind M_bind Fs.run Store.random mret IO_ret].
  rewrite E.
  change (Store.alloc cfg (Store.set_rng st' w))
    with (Ok (fresh w), snd (Store.alloc cfg (Store.set_rng st' w))).
  cbv iota beta. rewrite Egen.
  unfold LogoGenerator.save, Fs.write_to_png.
  eexists. eexists. split; [reflexivity |].
  unfold batch_state.
  cbn [Store.set_rng entered Store.set_config Store.alloc snd self_width
       self_height fresh heap dirs png_files].
  split; [exact Hw |]. split; [exact Hh |]. split; [lia |].
  split.
  { intros l Hl. rewrite decide_False by lia. apply Hheap, Hl. }
  split; [exact Hdir |].
  split.
  - intros j Hj. unfold holds_render. cbn [png_files].
    destruct (decide (batch_name output_dir prefix j
                      = batch_name output_dir prefix k)) as [Heq|Hne].
    + rewrite Heq, lookup_insert_eq. eexists. split; [reflexivity |].
      match goal with
      | |- context [draw_all ?l ?s] =>
          destruct (draw_all_frame l s) as (-> & -> & _)
      end.
      unfold start_surface.
      cbn [new_surface s_width s_height Store.set_rng Store.alloc snd
           self_width self_height].
      split; assumption.
    + rewrite lookup_insert_ne by congruence.
      apply Hfiles. assert (j <> k) by congruence. lia.
  - intros name Hname.
    rewrite lookup_insert_ne by (apply not_eq_sym, Hname; lia).
    apply Hother. intros j Hj. apply Hname. lia.
Qed.

End Batch.

(** X25: [batch_generate] (the square root of 3 not being zero) never raises
    and returns exactly [count] file names (none for [count <= 0]), in the
    order of generation: [prefix_001.png], [prefix_002.png], ... joined to
    the output directory, all different.  Afterwards the output directory
    exists, every returned name holds a render of the generator's size and
    no other file has changed; the generator has its size unchanged, one
    new dict per logo, and every dict that existed before is as it was. *)
Theorem batch_generate_writes_count_distinct_files `{MathLib}
    (count : Z) (output_dir prefix : string) (w : World) (d : Disk) :
  ~ m_sqrt 3 == 0 ->
  exists files w' d',
    LogoGenerator.batch_generate count output_dir prefix w d
    = (Ok files, w', d')
    /\ files = map (batch_name output_dir prefix) (seq 0 (Z.to_nat count))
    /\ length files = Z.to_nat count
    /\ NoDup files
    /\ output_dir ∈ dirs d'
    /\ (forall name, name ∈ files ->
          holds_render d' name (self_width w) (self_height w))
    /\ (forall name, name ∉ files ->
          png_files d' !! name = png_files d !! name)
    /\ self_width w' = self_width w /\ self_height w' = self_height w
    /\ fresh w' = (fresh w + Z.to_nat count)%nat
    /\ (forall l, (l < fresh w)%nat -> heap w' l = heap w l).
Proof.
  intros Hsqrt. unfold LogoGenerator.batch_generate.
  cbv [mbind IO_bind Fs.makedirs mret IO_ret].
  set (d1 := {| dirs := {[output_dir]} ∪ dirs d; png_files := png_files d |}).
  rewrite range0_seq, fs_for_each_map.
  destruct (fs_loop
              (fun k => config ← Fs.run (c ← Store.random
                                            LogoGenerator._random_config;
                                          Store.alloc c);
                        surface ← Fs.run (LogoGenerator.generate (Some config));
                        _ ← LogoGenerator.save surface
                              (batch_name output_dir prefix k);
                        mret (batch_name output_dir prefix k))
              (batch_state output_dir prefix w d1)
              (batch_name output_dir prefix) (Z.to_nat count)
              (fun k w2 d2 _ Hs =>
                 batch_step output_dir prefix w d1 k w2 d2 Hsqrt Hs)
              (Z.to_nat count) 0%nat w d1 ltac:(lia))
    as (w' & d' & E & Hw & Hh & Hf & Hheap & Hdir & Hfiles & Hother).
  { unfold batch_state.
    split; [reflexivity |]. split; [reflexivity |]. split; [lia |].
    split; [reflexivity |].
    split; [unfold d1; cbn [dirs]; set_solver |].
    split; [intros j Hj; lia | reflexivity]. }
  change (Fs.for_each (seq 0 (Z.to_nat count))
            (fun x => _) w d1) with
    (Fs.for_each (seq 0 (Z.to_nat count))
       (fun k => config ← Fs.run (c ← Store.random
                                     LogoGenerator._random_config;
                                   Store.alloc c);
                 surface ← Fs.run (LogoGenerator.generate (Some config));
                 _ ← LogoGenerator.save surface
                       (batch_name output_dir prefix k);
                 mret (batch_name output_dir prefix k)) w d1).
  rewrite E. eexists. eexists. eexists. split; [reflexivity |].
  split; [reflexivity |].
  split; [rewrite length_map, length_seq; reflexivity |].
  split.
  { apply NoDup_fmap_2_strong; [| apply NoDup_seq].
    intros j k _ _. apply batch_name_inj. }
  split; [exact Hdir |].
  split.
  { intros name Hin. apply list_elem_of_fmap in Hin.
    destruct Hin as (j & -> & Hj). apply elem_of_seq in Hj.
    apply Hfiles. lia. }
  split.
  { intros name Hnot. rewrite Hother; [reflexivity |].
    intros j Hj ->. apply Hnot. apply list_elem_of_fmap.
    exists j. split; [reflexivity |]. apply elem_of_seq. lia. }
  repeat split; assumption.
Qed.

Lemma batch_generate_writes_count_distinct_files_witness :
  exists files w' d',
    @LogoGenerator.batch_generate rational_math 5 "logos" "logo" sample_world
      {| dirs := ∅; png_files := ∅ |}
    = (Ok files, w', d')
    /\ files = map (batch_name "logos" "logo") (seq 0 5)
    /\ length files = 5%nat
    /\ NoDup files.
Proof.
  destruct (@batch_generate_writes_count_distinct_files rational_math 5
              "logos" "logo" sample_world {| dirs := ∅; png_files := ∅ |})
    as (files & w' & d' & E & Hfiles & Hlen & Hnd & _).
  { vm_compute. discriminate. }
  exists files, w', d'. auto.
Defined.

(** ** LogoGenerator.generate_variations *)

Lemma io_bind_ok {A B} (m : IO A) (f : A -> IO B) (w : World) (d : Disk)
    (a : A) (w' : World) (d' : Disk) :
  m w d = (Ok a, w', d') -> (m ≫= f) w d = f a w' d'.
Proof. intros E. cbv [mbind IO_bind]. rewrite E. reflexivity. Qed.

Lemma clamp01_cases (x : Q) :
  (x <= 0 /\ ColorPalette.clamp01 x == 0)
  \/ (0 <= x /\ x <= 1 /\ ColorPalette.clamp01 x == x)
  \/ (1 <= x /\ ColorPalette.clamp01 x == 1).
Proof.
  unfold ColorPalette.clamp01, Py.max, Py.min.
  destruct (Qle_bool 1 x) eqn:E1.
  - apply Qle_bool_iff in E1. right; right. split; [exact E1 |].
    simpl. reflexivity.
  - assert (H1 : ~ 1 <= x) by (rewrite <- Qle_bool_iff; congruence).
    apply Qnot_le_lt in H1.
    destruct (Qle_bool x 0) eqn:E0.
    + apply Qle_bool_iff in E0. left. split; [exact E0 | reflexivity].
    + assert (H0 : ~ x <= 0) by (rewrite <- Qle_bool_iff; congruence).
      apply Qnot_le_lt in H0. right; left.
      split; [lra |]. split; [lra | reflexivity].
Qed.

Lemma nudged_channel (c : Q) (n : N) :
  nudged c (ColorPalette.clamp01
              (c + (- (1 # 10) + ((1 # 10) - - (1 # 10)) * Random.unit_float n))).
Proof.
  destruct (uniform_range (- (1 # 10)) (1 # 10) n ltac:(reflexivity))
    as [Hlo Hhi].
  set (d := - (1 # 10) + ((1 # 10) - - (1 # 10)) * Random.unit_float n) in *.
  destruct (clamp01_bounds (c + d)) as [H0 H1].
  split; [exact H0 |]. split; [exact H1 |].
  intros Hc0 Hc1.
  destruct (clamp01_cases (c + d)) as [[Hx E]|[(Hx0 & Hx1 & E)|[Hx E]]];
    rewrite E; split; lra.
Qed.

Lemma vary_color_run (color : Color) (st : Random.State) :
  exists color',
    LogoGenerator.vary_color color st
    = (Ok color', advanced (length color) st)
    /\ Forall2 nudged color color'.
Proof.
  revert st. induction color as [|c color IH]; intros st.
  - exists []. split; [reflexivity | constructor].
  - cbn [LogoGenerator.vary_color].
    cbv [mbind R_bind mret R_ret]. unfold Random.bind at 1.
    rewrite uniform_run. unfold Random.bind at 1.
    destruct (IH (Random.advance st)) as (color' & E & Hall).
    rewrite E. eexists. split; [reflexivity |].
    constructor; [apply nudged_channel | exact Hall].
Qed.

Lemma vary_colors_run (colors : list Color) (st : Random.State) :
  exists colors' st',
    LogoGenerator.vary_colors colors st = (Ok colors', st')
    /\ varied colors colors'.
Proof.
  revert st. induction colors as [|color colors IH]; intros st.
  - exists [], st. split; [reflexivity | constructor].
  - cbn [LogoGenerator.vary_colors].
    cbv [mbind R_bind mret R_ret]. unfold Random.bind at 1.
    destruct (vary_color_run color st) as (color' & E & Hc). rewrite E.
    unfold Random.bind at 1.
    destruct (IH (advanced (length color) st)) as (colors' & st' & E' & Hcs).
    rewrite E'. eexists. eexists. split; [reflexivity |].
    constructor; assumption.
Qed.

Section Variations.
Context `{MathLib}.

(** [config = base_config.copy()] *)
Lemma copy_run (base : loc) (w : World) (d : Disk) :
  Fs.run (c ← Store.deref base; Store.alloc c) w d
  = (Ok (fresh w), snd (Store.alloc (heap w base) w), d).
Proof. reflexivity. Qed.

(** The colours of the copy are varied. *)
Lemma vary_run (config : loc) (w : World) (d : Disk) :
  exists w',
    Fs.run (cfg ← Store.deref config;
            match cfg_colors cfg with
            | Some colors =>
                varied_colors ← Store.random (LogoGenerator.vary_colors colors);
                Store.assign config (set_colors varied_colors)
            | None => mret tt
            end) w d
    = (Ok tt, w', d)
    /\ touches_only config w w'
    /\ same_design (heap w' config) (heap w config)
    /\ varied_config (heap w config) (heap w' config)
    /\ cfg_pattern (heap w' config) = cfg_pattern (heap w config)
    /\ cfg_extra_shapes (heap w' config) = cfg_extra_shapes (heap w config).
Proof.
  unfold Fs.run. cbv [mbind M_bind mret M_ret Store.deref].
  unfold varied_config.
  destruct (cfg_colors (heap w config)) as [colors|] eqn:Ec.
  - unfold Store.random.
    destruct (vary_colors_run colors (rng w)) as (colors' & st' & E & Hv).
    rewrite E. cbn [Store.assign Store.set_rng heap fresh self_width
                    self_height self_config rng].
    eexists. split; [reflexivity |].
    cbn [heap]. rewrite decide_True by reflexivity.
    split.
    { unfold touches_only. cbn [fresh self_width self_height heap].
      repeat split. intros l Hl. rewrite decide_False by exact Hl.
      reflexivity. }
    split; [unfold same_design, set_colors; cbn; repeat split |].
    split; [cbn [set_colors cfg_colors]; exact Hv |].
    split; reflexivity.
  - exists w. split; [reflexivity |].
    split; [unfold touches_only; repeat split |].
    split; [unfold same_design; repeat split |].
    rewrite Ec. repeat split.
Qed.

(** [config["extra_shapes"] = random.choice([True, False])] *)
Lemma extra_run (config : loc) (w : World) (d : Disk) :
  exists b w',
    Fs.run (b ← Store.random (Random.choice [true; false]);
            Store.assign config (set_extra_shapes b)) w d
    = (Ok tt, w', d)
    /\ touches_only config w w'
    /\ heap w' config = set_extra_shapes b (heap w config).
Proof.
  unfold Fs.run. cbv [mbind M_bind Store.random].
  destruct (choice_run true [false] (rng w)) as (b & E & _). rewrite E.
  cbn [Store.assign Store.set_rng heap fresh self_width self_height
       self_config rng].
  exists b. eexists. split; [reflexivity |].
  cbn [heap]. rewrite decide_True by reflexivity.
  split; [| reflexivity].
  unfold touches_only. cbn [fresh self_width self_height heap].
  repeat split. intros l Hl. rewrite decide_False by exact Hl. reflexivity.
Qed.

(** [config["pattern"] = random.choice(self.AVAILABLE_PATTERNS)] *)
Lemma pattern_run (config : loc) (w : World) (d : Disk) :
  exists name w',
    Fs.run (name ← Store.random (Random.choice
                                   LogoGenerator.AVAILABLE_PATTERNS);
            Store.assign config (set_pattern name)) w d
    = (Ok tt, w', d)
    /\ touches_only config w w'
    /\ name ∈ LogoGenerator.AVAILABLE_PATTERNS
    /\ heap w' config = set_pattern name (heap w config).
Proof.
  unfold Fs.run. cbv [mbind M_bind Store.random].
  unfold LogoGenerator.AVAILABLE_PATTERNS at 1.
  match goal with
  | |- context [Random.choice (?x :: ?xs) ?s] =>
      destruct (choice_among x xs s) as (name & E & Hin)
  end.
  rewrite E.
  cbn [Store.assign Store.set_rng heap fresh self_width self_height
       self_config rng].
  exists name. eexists. split; [reflexivity |].
  cbn [heap]. rewrite decide_True by reflexivity.
  split; [| split; [exact Hin | reflexivity]].
  unfold touches_only. cbn [fresh self_width self_height heap].
  repeat split. intros l Hl. rewrite decide_False by exact Hl. reflexivity.
Qed.

(** The render of a usable configuration, where files are written. *)
Lemma render_run (config : loc) (w : World) (d : Disk) :
  usable (heap w config) ->
  exists surface w',
    Fs.run (LogoGenerator.generate (Some config)) w d = (Ok surface, w', d)
    /\ s_width surface = self_width w /\ s_height surface = self_height w
    /\ fresh w' = fresh w
    /\ self_width w' = self_width w /\ self_height w' = self_height w
    /\ heap w' = heap w.
Proof.
  intros Hu. destruct (generate_run config w Hu) as (es & st & E).
  unfold Fs.run. rewrite E. eexists. eexists. split; [reflexivity |].
  destruct (draw_all_frame es (start_surface (heap w config) w))
    as (-> & -> & _).
  repeat split.
Qed.

End Variations.

Section VariationsLoop.
Context `{MathLib}.

Lemma varied_nonempty (base c : Config) :
  varied_config base c -> cfg_colors base <> Some [] ->
  cfg_colors c <> Some [].
Proof.
  unfold varied_config, varied.
  destruct (cfg_colors base) as [cs|], (cfg_colors c) as [cs'|];
    try contradiction; try discriminate.
  intros Hv Hne [= ->]. apply Forall2_nil_inv_r in Hv. subst cs.
  contradiction.
Qed.

Lemma variation_step (output_dir : string) (base : loc) (w0 : World)
    (d0 : Disk) (k : nat) (w : World) (d : Disk) :
  ~ m_sqrt 3 == 0 ->
  cfg_colors (heap w0 base) <> Some [] ->
  (base < fresh w0)%nat ->
  variations_state output_dir base w0 d0 k w d ->
  exists w' d',
    (config ← Fs.run (c ← Store.deref base; Store.alloc c);
     _ ← Fs.run (
       cfg ← Store.deref config;
       match cfg_colors cfg with
       | Some colors =>
           varied_colors ← Store.random (LogoGenerator.vary_colors colors);
           Store.assign config (set_colors varied_colors)
       | None => mret tt
       end);
     _ ← Fs.run (
       b ← Store.random (Random.choice [true; false]);
       Store.assign config (set_extra_shapes b));
     _ ← Fs.run (
       name ← Store.random (Random.choice LogoGenerator.AVAILABLE_PATTERNS);
       Store.assign config (set_pattern name));
     surface ← Fs.run (LogoGenerator.generate (Some config));
     _ ← LogoGenerator.save surface (variation_name output_dir k);
     mret (variation_name output_dir k)) w d
    = (Ok (variation_name output_dir k), w', d')
    /\ variations_state output_dir base w0 d0 (S k) w' d'.
Proof.
  intros Hsqrt Hcolors Hbase
    (Hw & Hh & Hf & Hheap & Hvars & Hdir & Hfiles & Hother).
  erewrite io_bind_ok by apply copy_run.
  set (config := fresh w).
  set (w1 := snd (Store.alloc (heap w base) w)).
  assert (Hw1 : heap w1 config = heap w0 base).
  { unfold w1, config. cbn [Store.alloc snd heap].
    rewrite decide_True by reflexivity. apply Hheap, Hbase. }
  assert (Hold1 : forall l, l <> config -> heap w1 l = heap w l).
  { intros l Hl. unfold w1. cbn [Store.alloc snd heap].
    rewrite decide_False by exact Hl. reflexivity. }
  destruct (vary_run config w1 d)
    as (w2 & E2 & (F2 & W2 & H2 & O2) & S2 & V2 & P2 & X2).
  erewrite io_bind_ok by exact E2.
  destruct (extra_run config w2 d) as (b & w3 & E3 & (F3 & W3 & H3 & O3) & C3).
  erewrite io_bind_ok by exact E3.
  destruct (pattern_run config w3 d)
    as (name & w4 & E4 & (F4 & W4 & H4 & O4) & Hname & C4).
  erewrite io_bind_ok by exact E4.
  assert (Hcfg : heap w4 config
                 = set_pattern name (set_extra_shapes b (heap w2 config))).
  { rewrite C4, C3. reflexivity. }
  assert (Hvar : variation_of (heap w0 base) (heap w4 config)).
  { rewrite Hcfg. rewrite Hw1 in S2, V2. unfold variation_of.
    split; [exact S2 |]. split; [exact V2 |].
    split; [exists name; split; [reflexivity | exact Hname] |].
    exists b. reflexivity. }
  assert (Hu : usable (heap w4 config)).
  { split; [| intros _; exact Hsqrt].
    destruct Hvar as (_ & Hv & _).
    exact (varied_nonempty _ _ Hv Hcolors). }
  destruct (render_run config w4 d Hu)
    as (surface & w5 & E5 & Sw & Sh & F5 & W5 & H5 & Heap5).
  erewrite io_bind_ok by exact E5.
  unfold LogoGenerator.save, Fs.write_to_png.
  cbv [mbind IO_bind mret IO_ret].
  eexists. eexists. split; [reflexivity |].
  assert (Hfresh1 : fresh w1 = S (fresh w)) by reflexivity.
  assert (Hwidth1 : self_width w1 = self_width w) by reflexivity.
  assert (Hheight1 : self_height w1 = self_height w) by reflexivity.
  unfold variations_state. cbn [dirs png_files].
  split; [congruence |]. split; [congruence |].
  split; [rewrite F5, F4, F3, F2, Hfresh1; lia |].
  assert (Hkeep : forall l, l <> config -> heap w5 l = heap w l).
  { intros l Hl. rewrite Heap5, O4, O3, O2 by exact Hl. apply Hold1, Hl. }
  split.
  { intros l Hl. rewrite Hkeep by (unfold config; lia). apply Hheap, Hl. }
  split.
  { intros j Hj. destruct (decide (j = k)) as [->|Hne].
    - replace (fresh w0 + k)%nat with config by (unfold config; lia).
      rewrite Heap5. exact Hvar.
    - rewrite Hkeep by (unfold config; lia). apply Hvars. lia. }
  split; [exact Hdir |].
  split.
  - intros j Hj. unfold holds_render. cbn [png_files].
    destruct (decide (variation_name output_dir j
                      = variation_name output_dir k)) as [Heq|Hne].
    + rewrite Heq, lookup_insert_eq. exists surface.
      split; [reflexivity |]. split; congruence.
    + rewrite lookup_insert_ne by congruence.
      apply Hfiles. assert (j <> k) by congruence. lia.
  - intros f Hname'.
    rewrite lookup_insert_ne by (apply not_eq_sym, Hname'; lia).
    apply Hother. intros j Hj. apply Hname'. lia.
Qed.

End VariationsLoop.

(** X26: on a base configuration whose colour list is not empty
    [generate_variations] (the square root of 3 not being zero) never
    raises and returns [count] different file names,
    [variation_001.png], [variation_002.png], ... joined to the output
    directory, each holding a render of the generator's size.  The base
    dict, like every dict that existed before, is left as it was: each
    variation is a new dict that agrees with the base on every key but
    "colors", "extra_shapes" and "pattern", has as many colours with as
    many channels as the base, every channel within [0, 1] (and within 0.1
    of the base channel when that was within [0, 1]), and a pattern from
    the list of available patterns. *)
Theorem variations_leave_the_base_config_untouched `{MathLib}
    (base : loc) (count : Z) (output_dir : string) (w : World) (d : Disk) :
  ~ m_sqrt 3 == 0 ->
  cfg_colors (heap w base) <> Some [] ->
  (base < fresh w)%nat ->
  exists files w' d',
    LogoGenerator.generate_variations base count output_dir w d
    = (Ok files, w', d')
    /\ files = map (variation_name output_dir) (seq 0 (Z.to_nat count))
    /\ NoDup files
    /\ (forall l, (l < fresh w)%nat -> heap w' l = heap w l)
    /\ fresh w' = (fresh w + Z.to_nat count)%nat
    /\ (forall j, (j < Z.to_nat count)%nat ->
          variation_of (heap w base) (heap w' (fresh w + j)%nat))
    /\ (forall name, name ∈ files ->
          holds_render d' name (self_width w) (self_height w))
    /\ (forall name, name ∉ files ->
          png_files d' !! name = png_files d !! name)
    /\ self_width w' = self_width w /\ self_height w' = self_height w.
Proof.
  intros Hsqrt Hcolors Hbase. unfold LogoGenerator.generate_variations.
  cbv [mbind IO_bind Fs.makedirs mret IO_ret].
  set (d1 := {| dirs := {[output_dir]} ∪ dirs d; png_files := png_files d |}).
  rewrite range0_seq, fs_for_each_map.
  match goal with
  | |- context [Fs.for_each (seq 0 ?n) ?body w d1] =>
      destruct (fs_loop
                  (fun k => body k)
                  (variations_state output_dir base w d1)
                  (variation_name output_dir) n
                  (fun k w2 d2 _ Hs =>
                     variation_step output_dir base w d1 k w2 d2 Hsqrt
                       Hcolors Hbase Hs)
                  n 0%nat w d1 ltac:(lia))
        as (w' & d' & E & Hw & Hh & Hf & Hheap & Hvars & Hdir & Hfiles
            & Hother)
  end.
  { unfold variations_state.
    split; [reflexivity |]. split; [reflexivity |]. split; [lia |].
    split; [reflexivity |]. split; [intros j Hj; lia |].
    split; [unfold d1; cbn [dirs]; set_solver |].
    split; [intros j Hj; lia | reflexivity]. }
  cbv beta in E. rewrite E.
  eexists. eexists. eexists. split; [reflexivity |].
  split; [reflexivity |].
  split.
  { apply NoDup_fmap_2_strong; [| apply NoDup_seq].
    intros j k _ _. apply variation_name_inj. }
  split; [exact Hheap |]. split; [exact Hf |]. split; [exact Hvars |].
  split.
  { intros name Hin. apply list_elem_of_fmap in Hin.
    destruct Hin as (j & -> & Hj). apply elem_of_seq in Hj.
    apply Hfiles. lia. }
  split.
  { intros name Hnot. rewrite Hother; [reflexivity |].
    intros j Hj ->. apply Hnot. apply list_elem_of_fmap.
    exists j. split; [reflexivity |]. apply elem_of_seq. lia. }
  split; assumption.
Qed.

Lemma variations_leave_the_base_config_untouched_witness :
  exists files w' d',
    @LogoGenerator.generate_variations rational_math 0%nat 5 "variations"
      rich_world {| dirs := ∅; png_files := ∅ |}
    = (Ok files, w', d')
    /\ files = map (variation_name "variations") (seq 0 5)
    /\ heap w' 0%nat = rich_config
    /\ fresh w' = 6%nat.
Proof.
  destruct (@variations_leave_the_base_config_untouched rational_math 0%nat 5
              "variations" rich_world {| dirs := ∅; png_files := ∅ |})
    as (files & w' & d' & E & Hfiles & _ & Hheap & Hfresh & _).
  { vm_compute. discriminate. }
  { discriminate. }
  { simpl. lia. }
  exists files, w', d'. split; [exact E |]. split; [exact Hfiles |].
  split; [apply (Hheap 0%nat); simpl; lia | exact Hfresh].
Defined.

(** ** LogoGenerator.generate_size_variants *)

(** A loop over a list whose body keeps an invariant of the entries
    already processed, the store and the disk. *)
Lemma fs_list_loop {A B} (body : A -> IO B)
    (Inv : list A -> World -> Disk -> Prop) (out : A -> B) :
  (forall done x w d,
      Inv done w d ->
      exists w' d', body x w d = (Ok (out x), w', d')
                    /\ Inv (done ++ [x]) w' d') ->
  forall xs done w d,
    Inv done w d ->
    exists w' d',
      Fs.for_each xs body w d = (Ok (map out xs), w', d')
      /\ Inv (done ++ xs) w' d'.
Proof.
  intros Hbody. induction xs as [|x xs IH]; intros done w d Hinv.
  - exists w, d. split; [reflexivity |]. rewrite app_nil_r. exact Hinv.
  - cbn [Fs.for_each map]. cbv [mbind IO_bind].
    destruct (Hbody done x w d Hinv) as (w1 & d1 & E & Hinv1). rewrite E.
    destruct (IH (done ++ [x]) w1 d1 Hinv1) as (w2 & d2 & E2 & Hinv2).
    rewrite E2. exists w2, d2. split; [reflexivity |].
    rewrite <- app_assoc in Hinv2. exact Hinv2.
Qed.

Lemma io_bind_raise {A B} (m : IO A) (f : A -> IO B) (w : World) (d : Disk)
    (e : exn) (w' : World) (d' : Disk) :
  m w d = (Raise e, w', d') -> (m ≫= f) w d = (Raise e, w', d').
Proof. intros E. cbv [mbind IO_bind]. rewrite E. reflexivity. Qed.

Section SizeVariants.
Context `{MathLib}.

Lemma size_step (output_dir : string) (config : loc) (w0 : World)
    (done : list (Z * Z)) (size : Z * Z) (w : World) (d : Disk) :
  usable (heap w0 config) ->
  size_variants_state output_dir w0 done w d ->
  exists w' d',
    (_ ← Fs.run (Store.set_width (fst size));
     _ ← Fs.run (Store.set_height (snd size));
     surface ← Fs.run (LogoGenerator.generate (Some config));
     _ ← LogoGenerator.save surface (size_name output_dir size);
     mret (size_name output_dir size)) w d
    = (Ok (size_name output_dir size), w', d')
    /\ size_variants_state output_dir w0 (done ++ [size]) w' d'.
Proof.
  intros Hu (Hheap & Hfresh & Hdir & Hfiles).
  erewrite io_bind_ok by reflexivity.
  erewrite io_bind_ok by reflexivity.
  match goal with
  | |- exists _ _, _ ?w2 d = _ /\ _ =>
      destruct (render_run config w2 d)
        as (surface & w3 & E & Sw & Sh & F3 & _ & _ & H3)
  end.
  { cbn [heap]. rewrite Hheap. exact Hu. }
  erewrite io_bind_ok by exact E.
  unfold LogoGenerator.save, Fs.write_to_png.
  cbv [mbind IO_bind mret IO_ret].
  eexists. eexists. split; [reflexivity |].
  unfold size_variants_state. cbn [dirs png_files].
  split; [rewrite H3; exact Hheap |].
  split; [rewrite F3; exact Hfresh |].
  split; [exact Hdir |].
  intros s Hs. apply elem_of_app in Hs.
  destruct (decide (size_name output_dir s = size_name output_dir size))
    as [Heq|Hne].
  - exists size. split; [apply elem_of_app; right; apply list_elem_of_singleton; reflexivity |].
    split; [symmetry; exact Heq |].
    unfold holds_render. cbn [png_files]. exists surface.
    rewrite Heq, lookup_insert_eq.
    split; [reflexivity |]. split; assumption.
  - destruct Hs as [Hs|Hs];
      [| apply list_elem_of_singleton in Hs; subst s; contradiction].
    destruct (Hfiles s Hs) as (s' & Hs' & Hname & surf & Hsurf & Hsize).
    exists s'. split; [apply elem_of_app; left; exact Hs' |].
    split; [exact Hname |].
    exists surf. cbn [png_files]. rewrite lookup_insert_ne by congruence.
    split; assumption.
Qed.

(** On an empty colour list the render raises [IndexError]. *)
Lemma generate_without_colors (config : loc) (w : World) :
  cfg_colors (heap w config) = Some [] ->
  exists st,
    LogoGenerator.generate (Some config) w
    = (Raise IndexError, Store.set_rng st (entered config w)).
Proof.
  intros Hc. destruct (generate_is_seven_steps config w) as [st E].
  exists st. rewrite E. f_equal.
  unfold seven_steps, drawn_by. run_step.
  cbn [entered Store.set_config snd heap fst].
  rewrite Hc. cbn [default length Nat.leb].
  rewrite !andb_false_r. reflexivity.
Qed.

End SizeVariants.

(** X27: on a configuration on which [generate] completes,
    [generate_size_variants] returns one file name per size, in order,
    [logo_WxH.png] joined to the output directory (the five default sizes
    when none are given), and every returned file holds a render at a size
    of that name.  When it returns, the generator has the width and height
    it had before the call, and no dict has changed. *)
Theorem size_variants_restore_the_generator_size `{MathLib}
    (config : loc) (sizes : option (list (Z * Z))) (output_dir : string)
    (w : World) (d : Disk) :
  usable (heap w config) ->
  exists files w' d',
    LogoGenerator.generate_size_variants config sizes output_dir w d
    = (Ok files, w', d')
    /\ files = map (size_name output_dir) (default default_sizes sizes)
    /\ self_width w' = self_width w /\ self_height w' = self_height w
    /\ heap w' = heap w /\ fresh w' = fresh w
    /\ output_dir ∈ dirs d'
    /\ forall size, size ∈ default default_sizes sizes ->
         exists size', size' ∈ default default_sizes sizes
                       /\ size_name output_dir size'
                          = size_name output_dir size
                       /\ holds_render d' (size_name output_dir size)
                            (fst size') (snd size').
Proof.
  intros Hu. unfold LogoGenerator.generate_size_variants.
  change [(64, 64); (128, 128); (256, 256); (512, 512); (1024, 1024)]%Z
    with default_sizes.
  set (todo := default default_sizes sizes).
  cbv zeta. erewrite io_bind_ok by reflexivity.
  erewrite io_bind_ok by reflexivity.
  erewrite io_bind_ok by reflexivity.
  set (d1 := {| dirs := {[output_dir]} ∪ dirs d; png_files := png_files d |}).
  match goal with
  | |- context [Fs.for_each todo ?body] =>
      destruct (fs_list_loop body (size_variants_state output_dir w)
                  (size_name output_dir)
                  (fun done size w2 d2 Hs =>
                     size_step output_dir config w done size w2 d2 Hu Hs)
                  todo [] w d1)
        as (w' & d' & E & Hheap & Hfresh & Hdir & Hfiles)
  end.
  { unfold size_variants_state. split; [reflexivity |].
    split; [reflexivity |]. split; [unfold d1; cbn [dirs]; set_solver |].
    intros size Hin. apply elem_of_nil in Hin. contradiction. }
  erewrite io_bind_ok by exact E.
  erewrite io_bind_ok by reflexivity.
  erewrite io_bind_ok by reflexivity.
  eexists. eexists. eexists. split; [reflexivity |].
  cbn [self_width self_height heap fresh].
  repeat (split; [first [reflexivity | assumption] |]).
  exact Hfiles.
Qed.

Lemma size_variants_restore_the_generator_size_witness :
  exists files w' d',
    @LogoGenerator.generate_size_variants rational_math 0%nat None "sizes"
      rich_world {| dirs := ∅; png_files := ∅ |}
    = (Ok files, w', d')
    /\ files = map (size_name "sizes") default_sizes
    /\ self_width w' = 500%Z /\ self_height w' = 500%Z.
Proof.
  destruct (@size_variants_restore_the_generator_size rational_math 0%nat
              None "sizes" rich_world {| dirs := ∅; png_files := ∅ |})
    as (files & w' & d' & E & Hfiles & Hw & Hh & _).
  { split; [discriminate |]. intros _. vm_compute. discriminate. }
  exists files, w', d'. auto.
Defined.

(** X28: when the render of a size raises, [generate_size_variants] ends
    there without restoring the generator: on a configuration with an empty
    colour list the call raises [IndexError] at the first size, writes no
    file, and leaves the generator with the width and height of that first
    size instead of its own. *)
Theorem size_variants_keep_the_failing_size_on_error `{MathLib}
    (config : loc) (width height : Z) (sizes : list (Z * Z))
    (output_dir : string) (w : World) (d : Disk) :
  cfg_colors (heap w config) = Some [] ->
  exists w' d',
    LogoGenerator.generate_size_variants config
      (Some ((width, height) :: sizes)) output_dir w d
    = (Raise IndexError, w', d')
    /\ self_width w' = width /\ self_height w' = height
    /\ png_files d' = png_files d
    /\ heap w' = heap w.
Proof.
  intros Hc. unfold LogoGenerator.generate_size_variants.
  cbv zeta. cbn [default].
  erewrite io_bind_ok by reflexivity.
  erewrite io_bind_ok by reflexivity.
  erewrite io_bind_ok by reflexivity.
  set (d1 := {| dirs := {[output_dir]} ∪ dirs d; png_files := png_files d |}).
  set (w1 := snd (Store.set_height height (snd (Store.set_width width w)))).
  destruct (generate_without_colors config w1 Hc) as [st E].
  exists (Store.set_rng st (entered config w1)), d1.
  split; [| repeat split].
  apply io_bind_raise. cbn [Fs.for_each]. apply io_bind_raise.
  cbn [fst snd].
  erewrite io_bind_ok by reflexivity.
  erewrite io_bind_ok by reflexivity.
  apply io_bind_raise. unfold Fs.run.
  match goal with
  | |- (let (_, _) := LogoGenerator.generate (Some config) ?w2 in _) = _ =>
      change w2 with w1
  end.
  rewrite E. reflexivity.
Qed.

Lemma size_variants_keep_the_failing_size_on_error_witness :
  exists w' d',
    @LogoGenerator.generate_size_variants rational_math 0%nat
      (Some [(64, 64); (128, 128)]%Z) "sizes"
      (holding 0%nat (set_colors [] rich_config) rich_world)
      {| dirs := ∅; png_files := ∅ |}
    = (Raise IndexError, w', d')
    /\ self_width w' = 64%Z /\ self_height w' = 64%Z.
Proof.
  destruct (@size_variants_keep_the_failing_size_on_error rational_math
              0%nat 64 64 [(128, 128)%Z] "sizes"
              (holding 0%nat (set_colors [] rich_config) rich_world)
              {| dirs := ∅; png_files := ∅ |})
    as (w' & d' & E & Hw & Hh & _).
  { reflexivity. }
  exists w', d'. auto.
Defined.

(** ** LogoGenerator._apply_extra_shapes *)

(** A loop whose body yields at most one drawing call. *)
Lemma repeat_draw_bounded {B} (body : Random.R (list B)) (P : B -> Prop) :
  (forall st, exists es st',
      body st = (Ok es, st') /\ (length es <= 1)%nat /\ Forall P es) ->
  forall n st,
    exists es st',
      Random.repeat_draw n body st = (Ok es, st')
      /\ (length es <= n)%nat /\ Forall P es.
Proof.
  intros Hbody. induction n as [|n IH]; intros st.
  - exists [], st. split; [reflexivity |]. split; [simpl; lia | constructor].
  - cbn [Random.repeat_draw]. unfold Random.bind at 1.
    destruct (Hbody st) as (ys & st1 & E & Hlen & Hys). rewrite E.
    unfold Random.bind at 1.
    destruct (IH st1) as (zs & st2 & E2 & Hlen2 & Hzs). rewrite E2.
    exists (ys ++ zs), st2. split; [reflexivity |].
    split; [rewrite length_app; lia | apply Forall_app; split; assumption].
Qed.

Section ExtraShapes.
Context `{MathLib}.

Lemma extra_shape_run (width height : Z) (c0 : Color) (colors : list Color)
    (st : Random.State) :
  exists es st',
    LogoGenerator.extra_shape width height (c0 :: colors) st = (Ok es, st')
    /\ (length es <= 1)%nat /\ Forall a_decoration es
    /\ ((Z.of_N (st 4%nat) mod 4 = 3)%Z -> es = []).
Proof.
  unfold LogoGenerator.extra_shape.
  cbv [mbind R_bind mret R_ret]. unfold Random.bind at 1. rewrite uniform_run.
  unfold Random.bind at 1. rewrite uniform_run.
  unfold Random.bind at 1.
  destruct (choice_run c0 colors (Random.advance (Random.advance st)))
    as (color & Ec & _).
  rewrite Ec. unfold Random.bind at 1. rewrite uniform_run.
  pose proof (uniform_range (3 # 10) (7 # 10)
                (Random.advance (Random.advance (Random.advance st)) O)
                ltac:(reflexivity)) as [Ha0 Ha1].
  set (alpha := (3 # 10) + ((7 # 10) - (3 # 10)) * _) in *.
  unfold Random.bind at 1.
  set (st4 := Random.advance (Random.advance (Random.advance
                (Random.advance st)))).
  assert (Eshape : exists name,
             Random.choice ["circle"; "square"; "diamond"; "triangle"] st4
             = (Ok name, Random.advance st4)
             /\ ((Z.of_N (st 4%nat) mod 4 = 3)%Z -> name = "triangle")).
  { unfold Random.choice, Random.randbelow, Random.bind, Random.next,
      Random.ret, Random.lift, PyR.item.
    change (st4 O) with (st 4%nat). cbn [length].
    pose proof (Z.mod_pos_bound (Z.of_N (st 4%nat)) 4 ltac:(lia)) as Hb.
    change (Z.of_nat 4) with 4%Z.
    generalize dependent (Z.of_N (st 4%nat) mod 4)%Z. intros i Hb.
    assert (Hi : i = 0%Z \/ i = 1%Z \/ i = 2%Z \/ i = 3%Z) by lia.
    destruct Hi as [-> | [-> | [-> | ->]]]; eexists; (split; [reflexivity |]);
      intros; first [reflexivity | lia]. }
  destruct Eshape as (name & -> & Htriangle).
  unfold Random.bind at 1. rewrite uniform_run.
  assert (Hdeco : forall s, (match s with
                             | Circle _ _ | Square _ _ _ => True
                             | _ => False
                             end) ->
                            a_decoration (filled s (Py.slice_to 3 color ++ [alpha]))).
  { intros s Hs. split; [destruct s; try contradiction; exact I |].
    exists color, alpha. repeat split; assumption. }
  destruct (String.eqb_spec name "circle") as [->|_].
  { eexists. eexists. split; [reflexivity |]. split; [simpl; lia |].
    split; [constructor; [apply Hdeco; exact I | constructor] |].
    intros Hm. specialize (Htriangle Hm). discriminate. }
  destruct (String.eqb_spec name "square") as [->|_].
  { unfold Random.bind at 1. rewrite uniform_run.
    eexists. eexists. split; [reflexivity |]. split; [simpl; lia |].
    split; [constructor; [apply Hdeco; exact I | constructor] |].
    intros Hm. specialize (Htriangle Hm). discriminate. }
  destruct (String.eqb_spec name "diamond") as [->|_].
  { unfold Random.bind at 1. unfold Random.lift.
    eexists. eexists. split; [reflexivity |]. split; [simpl; lia |].
    split.
    - constructor; [| constructor]. split.
      + unfold closed_outline. cbn. split; reflexivity.
      + exists color, alpha. repeat split; assumption.
    - intros Hm. specialize (Htriangle Hm). discriminate. }
  eexists. eexists. split; [reflexivity |]. split; [simpl; lia |].
  split; [constructor | reflexivity].
Qed.

End ExtraShapes.

(** X29: with "extra_shapes" switched on and a colour list that is not
    empty, [_apply_extra_shapes] never raises and draws at most eight
    elements, each a filled disc, square or diamond with an alpha in
    [0.3, 0.7).  It can draw fewer than the three to eight it loops over:
    the shape type "triangle" has no branch, so an iteration that picks it
    (the fifth random number of the iteration being 3 modulo 4) draws
    nothing. *)
Theorem extra_shapes_draws_nothing_for_a_triangle `{MathLib}
    (config : loc) (w : World) :
  cfg_extra_shapes (heap w config) = Some true ->
  cfg_colors (heap w config) <> Some [] ->
  (exists es,
     drawn_by LogoGenerator._apply_extra_shapes config w = Ok es
     /\ (length es <= 8)%nat /\ Forall a_decoration es)
  /\ forall width height c0 colors st,
       (Z.of_N (st 4%nat) mod 4 = 3)%Z ->
       fst (LogoGenerator.extra_shape width height (c0 :: colors) st) = Ok [].
Proof.
  intros Hon Hc. split.
  - unfold drawn_by. run_step. rewrite Hon. cbn [default negb].
    pick_colors Hc.
    cbv [mbind R_bind]. unfold Random.bind at 1.
    change (negb (id true)) with false. cbv beta iota.
    destruct (randint_run 3 8 (rng w)) as (k & -> & Hk); [lia |].
    cbv beta iota.
    destruct (repeat_draw_bounded
                (LogoGenerator.extra_shape (self_width w) (self_height w)
                   (c0 :: cs))
                a_decoration
                (fun st =>
                   match extra_shape_run (self_width w) (self_height w) c0 cs st
                   with
                   | ex_intro _ es (ex_intro _ st' (conj E (conj Hl (conj Hd _))))
                     => ex_intro _ es (ex_intro _ st' (conj E (conj Hl Hd)))
                   end)
                (Z.to_nat k) (Random.advance (rng w)))
      as (es & st' & Erun & Hlen & Hall).
    rewrite Erun. cbn [fst]. eexists. split; [reflexivity |].
    rewrite draw_all_drawn. change (s_drawn blank) with (@nil Element).
    cbn [app]. split; [lia | exact Hall].
  - intros width height c0 colors st Hm.
    destruct (extra_shape_run width height c0 colors st)
      as (es & st' & E & _ & _ & Hempty).
    rewrite E, (Hempty Hm). reflexivity.
Qed.

Lemma extra_shapes_draws_nothing_for_a_triangle_witness :
  exists es,
    drawn_by (@LogoGenerator._apply_extra_shapes rational_math) 0%nat
      rich_world = Ok es
    /\ (length es <= 8)%nat /\ Forall a_decoration es.
Proof.
  apply (@extra_shapes_draws_nothing_for_a_triangle rational_math 0%nat
           rich_world); [reflexivity | discriminate].
Defined.

(** ** Persistence: files that were not written by [save_config] *)

Lemma loaded_colors (file : gmap string json) :
  (match (Json.load <$> file) !! "bg_color" with
   | Some (PList items) => <["bg_color" := PTuple items]> (Json.load <$> file)
   | _ => Json.load <$> file
   end) !! "colors" = Json.load <$> file !! "colors".
Proof.
  destruct ((Json.load <$> file) !! "bg_color") as [[]|];
    rewrite ?lookup_insert_ne by discriminate; apply lookup_fmap.
Qed.

Lemma loaded_keys (file : gmap string json) (key : string) :
  is_Some ((match (Json.load <$> file) !! "bg_color" with
            | Some (PList items) =>
                <["bg_color" := PTuple items]> (Json.load <$> file)
            | _ => Json.load <$> file
            end) !! key) <-> is_Some (file !! key).
Proof.
  assert (Hplain : is_Some ((Json.load <$> file) !! key)
                   <-> is_Some (file !! key)).
  { rewrite lookup_fmap. apply fmap_is_Some. }
  destruct ((Json.load <$> file) !! "bg_color") as [v|] eqn:E;
    [| exact Hplain].
  destruct v; try exact Hplain.
  destruct (decide (key = "bg_color")) as [->|Hne].
  - rewrite lookup_insert_eq. rewrite lookup_fmap in E.
    split; intros _; [| eauto].
    destruct (file !! "bg_color"); [eauto | discriminate].
  - rewrite lookup_insert_ne by congruence. exact Hplain.
Qed.

(** X30: once [open] and [json.load] have read the file into a JSON object
    whose values are [null], booleans, numbers, strings or arrays (a
    missing or malformed file raises before that, and objects below the
    top level are not modelled), what [load_config] does to that object
    raises only [TypeError], and it does so exactly when the object holds
    [null], a boolean or a number under "colors".  When it returns, the
    configuration has exactly the keys of the object; a string under
    "colors" comes back as the list of its characters, and every key other
    than "bg_color" and "colors" holds the value read from the file. *)
Theorem load_config_rejects_only_scalar_colors (file : gmap string json) :
  (Persistence.load_config file = Raise TypeError
   <-> exists v, file !! "colors" = Some v /\ scalar v = true)
  /\ (forall e, Persistence.load_config file = Raise e -> e = TypeError)
  /\ (forall config,
        Persistence.load_config file = Ok config ->
        (forall key, is_Some (config !! key) <-> is_Some (file !! key))
        /\ (forall s, file !! "colors" = Some (JStr s) ->
                      config !! "colors" = Some (PList (Persistence.chars s)))
        /\ (forall key, key <> "bg_color" -> key <> "colors" ->
                        config !! key = Json.load <$> file !! key)).
Proof.
  unfold Persistence.load_config. cbv zeta.
  rewrite loaded_colors.
  set (config0 := match (Json.load <$> file) !! "bg_color" with
                  | Some (PList items) =>
                      <["bg_color" := PTuple items]> (Json.load <$> file)
                  | _ => Json.load <$> file
                  end).
  assert (Hkeys : forall key, is_Some (config0 !! key) <-> is_Some (file !! key))
    by (intros key; apply loaded_keys).
  assert (Hother : forall key, key <> "bg_color" ->
                     config0 !! key = Json.load <$> file !! key).
  { intros key Hne. unfold config0.
    destruct ((Json.load <$> file) !! "bg_color") as [[]|];
      rewrite ?lookup_insert_ne by congruence; apply lookup_fmap. }
  destruct (file !! "colors") as [v|] eqn:Ev; cbn [fmap option_fmap option_map].
  - destruct v as [|b|z|q|s|items]; cbn [Json.load Persistence.tuples_of
      mbind result_bind scalar].
    1-4: (split; [split; [intros _; eexists; split; reflexivity | reflexivity] |];
          split; [intros e [= <-]; reflexivity | intros config [=]]).
    + split; [split; [discriminate | intros (v & [= <-] & [=])] |].
      split; [discriminate |]. intros config [= <-].
      split.
      { intros key. destruct (decide (key = "colors")) as [->|Hne].
        - rewrite lookup_insert_eq, Ev. split; eauto.
        - rewrite lookup_insert_ne by congruence. apply Hkeys. }
      split; [intros s' [= <-]; apply lookup_insert_eq |].
      intros key Hb Hc. rewrite lookup_insert_ne by congruence.
      apply Hother, Hb.
    + split; [split; [discriminate | intros (v & [= <-] & [=])] |].
      split; [discriminate |]. intros config [= <-].
      split.
      { intros key. destruct (decide (key = "colors")) as [->|Hne].
        - rewrite lookup_insert_eq, Ev. split; eauto.
        - rewrite lookup_insert_ne by congruence. apply Hkeys. }
      split; [discriminate |].
      intros key Hb Hc. rewrite lookup_insert_ne by congruence.
      apply Hother, Hb.
  - split; [split; [discriminate | intros (v & [=] & _)] |].
    split; [discriminate |]. intros config [= <-].
    split; [exact Hkeys |]. split; [discriminate |].
    intros key Hb _. apply Hother, Hb.
Qed.
